(** * NaverStockConsensusTracker: a shallow embedding of [src/index.js]

    The script scrapes a list of stock codes, computes for each the gap
    between the analysts' target price and the current price, collects the
    stocks whose gap passes a threshold and posts them to Slack in batches;
    a cron handler starts one run at a time.

    Conventions of the embedding:
    - a JavaScript string is the list of its UTF-16 code units ([list N]);
    - a JavaScript number is an IEEE-754 binary64 value, represented by
      [spec_float] of the standard library with its operations at
      precision 53 and maximal exponent 1024;
    - the file system, the browser, the clock and Slack are oracles gathered
      in a record [world]; the asynchronous code is written in a state and
      exception monad whose state holds [skip-list.txt], the two arrays the
      run fills and a trace of the calls made to the outside;
    - [console.log] output of the pipeline is not modelled; the messages of
      the cron handler are. *)

From Stdlib Require Import ZArith NArith String Ascii List Lia Bool.
From Stdlib Require Import Sorting.Sorted Sorting.Permutation.
From Stdlib Require Import Floats.SpecFloat.
From stdpp Require Import gmap strings list.

(** ** JavaScript numbers *)

Module F64.

Definition prec : Z := 53.
Definition emax : Z := 1024.

Abbreviation number := spec_float.

Definition NaN : number := S754_nan.
Definition zero : number := S754_zero false.

(** The Number value of a mathematical integer (round to nearest, ties
    to even). *)
Definition of_Z (z : Z) : number := binary_normalize prec emax z 0 false.

Definition add : number -> number -> number := SFadd prec emax.
Definition sub : number -> number -> number := SFsub prec emax.
Definition mul : number -> number -> number := SFmul prec emax.
Definition div : number -> number -> number := SFdiv prec emax.

Definition ltb : number -> number -> bool := SFltb.
Definition leb : number -> number -> bool := SFleb.
(** [x > y] and [x >= y] *)
Definition gtb (x y : number) : bool := SFltb y x.
Definition geb (x y : number) : bool := SFleb y x.

Definition isNaN (x : number) : bool :=
  match x with S754_nan => true | _ => false end.

(** ToBoolean on numbers: NaN, +0 and -0 are falsy. *)
Definition truthy (x : number) : bool :=
  match x with S754_nan | S754_zero _ => false | _ => true end.

(** The representation invariant of a binary64 value. *)
Definition valid (x : number) : bool := valid_binary prec emax x.

End F64.

Abbreviation number := spec_float.

(** ** JavaScript strings *)

Definition codeunit := N.
Definition jsstring := list codeunit.

(** Decoding of a UTF-8 literal of this file into UTF-16 code units, used
    only to write the string constants of the script legibly. *)
Definition utf16_emit (cp : N) : list codeunit :=
  if (cp <? 65536)%N then [cp]
  else [(55296 + (cp - 65536) / 1024)%N; (56320 + (cp - 65536) mod 1024)%N].

Fixpoint utf16_go (pending : nat) (acc : N) (s : string) : jsstring :=
  match s with
  | EmptyString => []
  | String a r =>
      let b := N_of_ascii a in
      match pending with
      | O =>
          if (b <? 128)%N then b :: utf16_go 0 0%N r
          else if (b <? 224)%N then utf16_go 1 (b - 192)%N r
          else if (b <? 240)%N then utf16_go 2 (b - 224)%N r
          else utf16_go 3 (b - 240)%N r
      | S p =>
          let acc' := (acc * 64 + (b - 128))%N in
          match p with
          | O => utf16_emit acc' ++ utf16_go 0 0%N r
          | S _ => utf16_go p acc' r
          end
      end
  end.

Definition utf16 (s : string) : jsstring := utf16_go 0 0%N s.

Module Str.

Definition comma : codeunit := 44%N.
Definition newline : codeunit := 10%N.

(** [s.includes(c)], [s.split(c)], [s.replace(c, r)] and
    [s.replace(/c/g, r)] for a pattern [c] of one code unit, which is
    what every call of the script passes. *)
Definition includes (s : jsstring) (c : codeunit) : bool :=
  existsb (N.eqb c) s.

Fixpoint split_go (c : codeunit) (cur : jsstring) (s : jsstring) : list jsstring :=
  match s with
  | [] => [reverse cur]
  | x :: s' =>
      if (x =? c)%N then reverse cur :: split_go c [] s'
      else split_go c (x :: cur) s'
  end.

Definition split (s : jsstring) (c : codeunit) : list jsstring := split_go c [] s.

Fixpoint replace (s : jsstring) (c : codeunit) (r : jsstring) : jsstring :=
  match s with
  | [] => []
  | x :: s' => if (x =? c)%N then r ++ s' else x :: replace s' c r
  end.

Fixpoint replaceAll (s : jsstring) (c : codeunit) (r : jsstring) : jsstring :=
  match s with
  | [] => []
  | x :: s' => if (x =? c)%N then r ++ replaceAll s' c r else x :: replaceAll s' c r
  end.

(** WhiteSpace and LineTerminator code points of ECMAScript. *)
Definition isWhiteSpace (c : codeunit) : bool :=
  ((c =? 9) || (c =? 10) || (c =? 11) || (c =? 12) || (c =? 13) || (c =? 32)
   || (c =? 160) || (c =? 5760) || ((8192 <=? c) && (c <=? 8202))
   || (c =? 8232) || (c =? 8233) || (c =? 8239) || (c =? 8287)
   || (c =? 12288) || (c =? 65279))%N.

Fixpoint trimStart (s : jsstring) : jsstring :=
  match s with
  | [] => []
  | x :: s' => if isWhiteSpace x then trimStart s' else s
  end.

Definition trim (s : jsstring) : jsstring :=
  reverse (trimStart (reverse (trimStart s))).

Definition isDigit (c : codeunit) : bool := ((48 <=? c) && (c <=? 57))%N.

Fixpoint digitsPrefix (s : jsstring) : jsstring :=
  match s with
  | [] => []
  | x :: s' => if isDigit x then x :: digitsPrefix s' else []
  end.

Fixpoint afterDigits (s : jsstring) : jsstring :=
  match s with
  | [] => []
  | x :: s' => if isDigit x then afterDigits s' else s
  end.

(** The mathematical value of a string of decimal digits. *)
Definition digitsValue (ds : jsstring) : Z :=
  fold_left (fun acc d => (10 * acc + (Z.of_N d - 48))%Z) ds 0%Z.

(** The decimal digits of a natural number, as in [`${n}`]. *)
Fixpoint decimal_go (fuel : nat) (n : N) (acc : jsstring) : jsstring :=
  match fuel with
  | O => acc
  | S fuel' =>
      let acc' := (48 + n mod 10)%N :: acc in
      if (n <? 10)%N then acc' else decimal_go fuel' (n / 10)%N acc'
  end.

Definition decimal (n : nat) : jsstring :=
  decimal_go (S n) (N.of_nat n) [].

End Str.

(** ** [parseInt(s, 10)] and [parseFloat(s)] *)

Module Parse.

Import Str.

Definition minus : codeunit := 45%N.
Definition plus : codeunit := 43%N.

(** An optional sign in front of a literal. *)
Definition sign (s : jsstring) : bool * jsstring :=
  match s with
  | x :: s' =>
      if (x =? minus)%N then (true, s')
      else if (x =? plus)%N then (false, s')
      else (false, s)
  | [] => (false, s)
  end.

(** The integer a string starts with, if any: leading white space is
    skipped, then a sign, then the longest run of decimal digits. *)
Definition leadingInteger (s : jsstring) : option (bool * Z) :=
  let '(neg, s') := sign (trimStart s) in
  match digitsPrefix s' with
  | [] => None
  | ds => Some (neg, digitsValue ds)
  end.

Definition integerValue (s : jsstring) : option Z :=
  match leadingInteger s with
  | Some (neg, v) => Some (if neg then (- v)%Z else v)
  | None => None
  end.

Definition parseInt (s : jsstring) : number :=
  match leadingInteger s with
  | None => F64.NaN
  | Some (neg, v) =>
      binary_normalize F64.prec F64.emax (if neg then (- v)%Z else v) 0 neg
  end.

(** The Number value of [m * 10^k] for [m >= 0]; for a negative [k] the
    quotient is computed with 64 bits more than the divisor and a sticky
    bit, which is enough to round it correctly. *)
Definition round10 (neg : bool) (m : Z) (k : Z) : number :=
  let sgn (z : Z) := if neg then (- z)%Z else z in
  if (m =? 0)%Z then S754_zero neg
  else if (0 <=? k)%Z then
    binary_normalize F64.prec F64.emax (sgn (m * 10 ^ k)%Z) 0 neg
  else
    let d := (10 ^ (- k))%Z in
    let s := (64 + Z.log2 d + 1)%Z in
    let '(q, r) := Z.div_eucl (m * 2 ^ s)%Z d in
    let q' := (2 * q + (if (r =? 0)%Z then 0 else 1))%Z in
    binary_normalize F64.prec F64.emax (sgn q') (- s - 1)%Z neg.

Definition Infinity : jsstring := Eval vm_compute in utf16 "Infinity".

Fixpoint startsWith (pat s : jsstring) : bool :=
  match pat, s with
  | [], _ => true
  | p :: pat', x :: s' => (x =? p)%N && startsWith pat' s'
  | _ :: _, [] => false
  end.

Definition exponentPart (s : jsstring) : Z :=
  match s with
  | x :: s' =>
      if ((x =? 101) || (x =? 69))%N then
        let '(eneg, s'') := sign s' in
        match digitsPrefix s'' with
        | [] => 0%Z
        | ds => if eneg then (- digitsValue ds)%Z else digitsValue ds
        end
      else 0%Z
  | [] => 0%Z
  end.

(** [parseFloat]: the longest prefix of the trimmed string that is a
    StrDecimalLiteral, NaN when there is none. *)
Definition parseFloat (s : jsstring) : number :=
  let '(neg, s1) := sign (trimStart s) in
  if startsWith Infinity s1 then S754_infinity neg
  else
    let ip := digitsPrefix s1 in
    let r1 := afterDigits s1 in
    let '(fp, r2) :=
      match r1 with
      | x :: r =>
          if (x =? 46)%N then (digitsPrefix r, afterDigits r) else ([], r1)
      | [] => ([], r1)
      end in
    match ip ++ fp with
    | [] => F64.NaN
    | ds => round10 neg (digitsValue ds) (exponentPart r2 - Z.of_nat (length fp))%Z
    end.

(** ToString of a possibly undefined [process.env] entry. *)
Definition undefined : jsstring := Eval vm_compute in utf16 "undefined".

Definition envString (v : option jsstring) : jsstring :=
  match v with Some s => s | None => undefined end.

End Parse.

(** ** [parseMarketCapToBillions] (index.js, lines 28-44) *)

Inductive jsval :=
| VUndefined
| VNull
| VBoolean (b : bool)
| VNumber (x : number)
| VString (s : jsstring)
| VObject.

Definition jo : codeunit := 51312%N.
Definition eok : codeunit := 50613%N.

Definition parseMarketCapToBillions (marketCapStr : jsval) : number :=
  match marketCapStr with
  | VString [] => F64.zero
  | VString s =>
      let totalBillions := F64.zero in
      let str := Str.replaceAll s Str.comma [] in
      if Str.includes str jo then
        let parts := Str.split str jo in
        let totalBillions :=
          F64.add totalBillions
            (F64.mul (Parse.parseInt (nth 0 parts [])) (F64.of_Z 10000)) in
        match nth_error parts 1 with
        | Some ((_ :: _) as p1) =>
            if Str.includes p1 eok then
              F64.add totalBillions (Parse.parseInt (Str.replace p1 eok []))
            else totalBillions
        | _ => totalBillions
        end
      else if Str.includes str eok then
        F64.add totalBillions (Parse.parseInt (Str.replace str eok []))
      else totalBillions
  | _ => F64.zero
  end.

(** ** The data of a run *)

(** What [page.evaluate] returns (lines 183-212): four strings. *)
Record StockData := {
  name : jsstring;
  currentPrice : jsstring;
  targetPrice : jsstring;
  marketCap : jsstring;
}.

(** A row [{ code, ...stockData }] of [results]. *)
Record row := { row_code : jsstring; row_data : StockData }.

(** An element [{ code, ...stockData, gap }] of [notificationBatch]. *)
Record candidate := { code : jsstring; data : StockData; gap : number }.

(** The markers the extraction puts where the page has no such element,
    and the marker of a failed item. *)
Definition noName : jsstring := Eval vm_compute in utf16 "종목명 없음".
Definition noCurrentPrice : jsstring := Eval vm_compute in utf16 "현재가 없음".
Definition noTargetPrice : jsstring := Eval vm_compute in utf16 "목표주가 없음".
Definition noMarketCap : jsstring := Eval vm_compute in utf16 "시총 없음".
Definition errorMark : jsstring := Eval vm_compute in utf16 "오류 발생".

Definition errorRow (code : jsstring) : row :=
  {| row_code := code;
     row_data := {| name := errorMark; currentPrice := errorMark;
                    targetPrice := errorMark; marketCap := errorMark |} |}.

(** [process.env] *)
Record Env := {
  STOCK_CODES : option jsstring;
  PRICE_GAP_PERCENTAGE : option jsstring;
  MIN_MARKET_CAP_BILLIONS : option jsstring;
  SLACK_TOKEN : option jsstring;
  SLACK_CHANNEL_ID : option jsstring;
}.

(** [!v] for an entry of [process.env]: undefined and the empty string. *)
Definition falsy (v : option jsstring) : bool :=
  match v with None | Some [] => true | Some (_ :: _) => false end.

(** Exceptions: the errors of [fs] carry a [code], the others only a name. *)
Inductive exn :=
| Errno (errno : jsstring)
| Failure (what : jsstring).

Definition ENOENT : jsstring := Eval vm_compute in utf16 "ENOENT".
Definition TypeError : jsstring := Eval vm_compute in utf16 "TypeError".

(** [error.code !== 'ENOENT'] *)
Definition notENOENT (error : exn) : bool :=
  match error with
  | Errno c => negb (bool_decide (c = ENOENT))
  | Failure _ => true
  end.

(** What lines 146-212 do for one code: [browser.newPage()] may reject,
    a later step on the page may reject, or the four fields come back. *)
Inductive fetched :=
| NoPage (error : exn)
| PageError (error : exn)
| Extracted (stockData : StockData).

Definition pageCreated (f : fetched) : bool :=
  match f with NoPage _ => false | _ => true end.

(** The outside of one run. The oracles indexed by a number take the loop
    variable of the call: the index of the code, or the offset of the batch. *)
Record world := {
  env : Env;
  getDay : Z;
  getDate : Z;
  unlinkFault : option exn;
  readFault : option exn;
  appendFault : nat -> option exn;
  launch : option exn;
  fetch : nat -> jsstring -> fetched;
  closePage : nat -> option exn;
  closeBrowser : option exn;
  postMessage : nat -> option exn;
  getKSTTimestamp : nat -> jsstring;
  getRandomDelay : nat -> Z;
}.

Inductive event :=
| EUnlink
| EReadFile
| EAppendFile (text : jsstring)
| ELaunch
| EFetch (index : nat) (code : jsstring)
| EClosePage
| ECloseBrowser
| ESleep (ms : Z)
| EPostMessage (channel title : jsstring) (stocks : list candidate).

Record runstate := {
  skipFile : option jsstring;
  results : list row;
  notificationBatch : list candidate;
  trace : list event;
}.

(** ** The monad of the asynchronous code *)

Inductive outcome (A : Type) :=
| Ret (a : A)
| Throw (error : exn).
Arguments Ret {A} a.
Arguments Throw {A} error.

Definition M (A : Type) : Type := runstate -> outcome A * runstate.

Definition ret {A} (a : A) : M A := fun s => (Ret a, s).

Definition bind {A B} (m : M A) (k : A -> M B) : M B :=
  fun s => match m s with
           | (Ret a, s') => k a s'
           | (Throw e, s') => (Throw e, s')
           end.

Definition throw {A} (e : exn) : M A := fun s => (Throw e, s).

(** [try { m } catch (error) { h error }] *)
Definition try_catch {A} (m : M A) (h : exn -> M A) : M A :=
  fun s => match m s with
           | (Ret a, s') => (Ret a, s')
           | (Throw e, s') => h e s'
           end.

(** [try { m } finally { f }]: [f] runs in both cases and its exception
    replaces the outcome of [m]. *)
Definition finally {A} (m : M A) (f : M unit) : M A :=
  fun s => match m s with
           | (r, s') =>
               match f s' with
               | (Ret _, s'') => (r, s'')
               | (Throw e, s'') => (Throw e, s'')
               end
           end.

Declare Scope js_scope.
Delimit Scope js_scope with js.
Notation "'let!' x ':=' m 'in' k" := (bind m (fun x => k))
  (at level 10, x name, m at level 100, k at level 200) : js_scope.
Notation "m '>>' k" := (bind m (fun _ => k))
  (at level 90, right associativity) : js_scope.

Definition emit (e : event) : M unit :=
  fun s => (Ret tt, {| skipFile := skipFile s; results := results s;
                       notificationBatch := notificationBatch s;
                       trace := trace s ++ [e] |}).

Definition setFile (f : option jsstring) : M unit :=
  fun s => (Ret tt, {| skipFile := f; results := results s;
                       notificationBatch := notificationBatch s;
                       trace := trace s |}).

Definition pushResult (r : row) : M unit :=
  fun s => (Ret tt, {| skipFile := skipFile s; results := results s ++ [r];
                       notificationBatch := notificationBatch s;
                       trace := trace s |}).

Definition setBatch (b : list candidate) : M unit :=
  fun s => (Ret tt, {| skipFile := skipFile s; results := results s;
                       notificationBatch := b;
                       trace := trace s |}).

Definition getFile : M (option jsstring) := fun s => (Ret (skipFile s), s).
Definition getBatch : M (list candidate) := fun s => (Ret (notificationBatch s), s).

(** An operation that only the outside can make fail. *)
Definition external (e : event) (fault : option exn) : M unit :=
  bind (emit e) (fun _ => match fault with Some err => throw err | None => ret tt end).

Definition sleep (ms : Z) : M unit := emit (ESleep ms).

Local Open Scope js_scope.

(** ** [fs.unlink], [fs.readFile] and [fs.appendFile] on [skip-list.txt] *)

Definition unlink (w : world) : M unit :=
  emit EUnlink >>
  match unlinkFault w with
  | Some err => throw err
  | None =>
      let! f := getFile in
      match f with
      | None => throw (Errno ENOENT)
      | Some _ => setFile None
      end
  end.

Definition readFile (w : world) : M jsstring :=
  emit EReadFile >>
  match readFault w with
  | Some err => throw err
  | None =>
      let! f := getFile in
      match f with
      | None => throw (Errno ENOENT)
      | Some text => ret text
      end
  end.

(** [fs.appendFile] on the content of the file. *)
Definition appendText (f : option jsstring) (text : jsstring) : option jsstring :=
  Some (match f with None => text | Some old => old ++ text end).

Definition appendFile (w : world) (index : nat) (text : jsstring) : M unit :=
  emit (EAppendFile text) >>
  match appendFault w index with
  | Some err => throw err
  | None =>
      let! f := getFile in
      setFile (appendText f text)
  end.

(** ** [sendSlackNotification] (lines 47-80)

    The text of the attachment lists [stocks] line by line; the event keeps
    the list itself. *)

Definition titlePrefix : jsstring := Eval vm_compute in utf16 "[".
Definition titleLabel : jsstring :=
  Eval vm_compute in utf16 "] 📈 목표주가 대비 저평가 종목 알림 (".
Definition titleSuffix : jsstring := Eval vm_compute in utf16 "건)".

(** The title with a given count between the brackets. *)
Definition titleFor (timestamp : jsstring) (count : nat) : jsstring :=
  titlePrefix ++ timestamp ++ titleLabel ++ Str.decimal count ++ titleSuffix.

Definition messageTitle (timestamp : jsstring) (stocks : list candidate) : jsstring :=
  titleFor timestamp (length stocks).

Definition sendSlackNotification (w : world) (i : nat) (stocks : list candidate) : M unit :=
  let token := SLACK_TOKEN (env w) in
  let channel := SLACK_CHANNEL_ID (env w) in
  if falsy token || falsy channel || (length stocks =? 0)%nat then ret tt
  else
    let timestamp := getKSTTimestamp w i in
    let title := messageTitle timestamp stocks in
    external (EPostMessage (Parse.envString channel) title stocks) (postMessage w i).

(** ** The price analysis of one item (lines 224-242) *)

Definition gapOf (current target : number) : number :=
  F64.mul (F64.div (F64.sub target current) target) (F64.of_Z 100).

Definition gapPercentage (e : Env) : number :=
  Parse.parseFloat (Parse.envString (PRICE_GAP_PERCENTAGE e)).

(** [parseInt(process.env.MIN_MARKET_CAP_BILLIONS, 10) || 0] *)
Definition minMarketCap (e : Env) : number :=
  let v := Parse.parseInt (Parse.envString (MIN_MARKET_CAP_BILLIONS e)) in
  if F64.truthy v then v else F64.zero.

(** [text.replace(/,/g, '')] *)
Definition ungroup (text : jsstring) : jsstring := Str.replaceAll text Str.comma [].

Definition priceOf (text : jsstring) : number := Parse.parseInt (ungroup text).

Definition analysis (e : Env) (code : jsstring) (stockData : StockData) : option candidate :=
  if negb (F64.isNaN (gapPercentage e)) then
    let current := priceOf (currentPrice stockData) in
    let target := priceOf (targetPrice stockData) in
    let marketCapInBillions := parseMarketCapToBillions (VString (marketCap stockData)) in
    if negb (F64.isNaN current) && negb (F64.isNaN target) && F64.gtb target F64.zero then
      let gap := gapOf current target in
      if F64.geb gap (gapPercentage e) && F64.geb marketCapInBillions (minMarketCap e) then
        Some {| code := code; data := stockData; gap := gap |}
      else None
    else None
  else None.

(** ** [Array.prototype.sort] with [(a, b) => a.gap - b.gap] (line 278)

    The sort is stable; a NaN returned by the comparison function counts
    as zero. For a consistent comparison function the result of a stable
    sort is determined, and insertion gives it. *)

Definition comparefn (a b : candidate) : number := F64.sub (gap a) (gap b).

Definition sortCompare (a b : candidate) : number :=
  let v := comparefn a b in if F64.isNaN v then F64.zero else v.

Fixpoint insert (x : candidate) (l : list candidate) : list candidate :=
  match l with
  | [] => [x]
  | y :: l' =>
      if F64.gtb (sortCompare x y) F64.zero then y :: insert x l'
      else x :: y :: l'
  end.

Fixpoint sort (l : list candidate) : list candidate :=
  match l with
  | [] => []
  | x :: l' => insert x (sort l')
  end.

(** ** Sorting and sending the batch (lines 274-287) *)

Definition BATCH_SIZE : nat := 5.

(** [a.slice(i, j)] for [i <= j] *)
Definition slice {A} (a : list A) (i j : nat) : list A := take (j - i) (drop i a).

(** The [for] loop of line 281; it runs at most once per element. *)
Fixpoint sendLoop (w : world) (fuel : nat) (i : nat) : M unit :=
  match fuel with
  | O => ret tt
  | S fuel' =>
      let! batch := getBatch in
      if (i <? length batch)%nat then
        let chunk := slice batch i (i + BATCH_SIZE) in
        sendSlackNotification w i chunk >>
        (if (i + BATCH_SIZE <? length batch)%nat then sleep 1000 else ret tt) >>
        sendLoop w fuel' (i + BATCH_SIZE)
      else ret tt
  end.

Definition dispatch (w : world) : M unit :=
  let! batch := getBatch in
  if (0 <? length batch)%nat then
    setBatch (sort batch) >>
    sendLoop w (length batch) 0
  else ret tt.

(** ** One iteration of the loop over the codes (lines 140-259) *)

Definition fetchPage (w : world) (index : nat) (code : jsstring) : M StockData :=
  emit (EFetch index code) >>
  match fetch w index code with
  | NoPage err => throw err
  | PageError err => throw err
  | Extracted stockData => ret stockData
  end.

Definition processItem (w : world) (index : nat) (code : jsstring) : M unit :=
  finally
    (try_catch
       (let! stockData := fetchPage w index code in
        pushResult {| row_code := code; row_data := stockData |} >>
        (if bool_decide (targetPrice stockData = noTargetPrice)
         then appendFile w index (code ++ [Str.newline])
         else ret tt) >>
        match analysis (env w) code stockData with
        | Some c => let! batch := getBatch in setBatch (batch ++ [c])
        | None => ret tt
        end)
       (fun error => pushResult (errorRow code)))
    ((if pageCreated (fetch w index code)
      then external EClosePage (closePage w index)
      else ret tt) >>
     sleep (getRandomDelay w index)).

Fixpoint forEach (f : nat -> jsstring -> M unit) (index : nat) (codes : list jsstring) : M unit :=
  match codes with
  | [] => ret tt
  | code :: codes' => f index code >> forEach f (S index) codes'
  end.

(** ** [scrapeStockData] (lines 83-288) *)

Definition isFirstMonday (w : world) : bool :=
  ((getDay w =? 1) && (getDate w <=? 7))%Z.

(** Lines 91-99 *)
Definition resetSkipList (w : world) : M unit :=
  if isFirstMonday w then
    try_catch (unlink w)
      (fun error => if notENOENT error then throw error else ret tt)
  else ret tt.

Definition notBlank (line : jsstring) : bool :=
  negb (bool_decide (Str.trim line = [])).

Definition skipCodesOf (skipData : jsstring) : gset jsstring :=
  list_to_set (List.filter notBlank (Str.split skipData Str.newline)).

(** Lines 102-110 *)
Definition loadSkipCodes (w : world) : M (gset jsstring) :=
  try_catch
    (let! skipData := readFile w in ret (skipCodesOf skipData))
    (fun error => if notENOENT error then throw error else ret ∅).

(** The codes the loop goes through (line 114). *)
Definition stockCodesOf (allStockCodes : list jsstring) (skipCodes : gset jsstring)
  : list jsstring :=
  List.filter (fun code => negb (bool_decide (code ∈ skipCodes))) allStockCodes.

(** Lines 112-287: what follows the loading of the skip codes. *)
Definition processAll (w : world) (skipCodes : gset jsstring) : M unit :=
  let! allStockCodes :=
    match STOCK_CODES (env w) with
    | None => throw (Failure TypeError)
    | Some s => ret (Str.split s Str.comma)
    end in
  let stockCodes := stockCodesOf allStockCodes skipCodes in
  if (length allStockCodes =? 0)%nat then ret tt
  else
    external ELaunch (launch w) >>
    forEach (processItem w) 0 stockCodes >>
    external ECloseBrowser (closeBrowser w) >>
    dispatch w.

Definition scrapeStockData (w : world) : M unit :=
  resetSkipList w >>
  let! skipCodes := loadSkipCodes w in
  processAll w skipCodes.

(** A run starts with the file as it is and two empty arrays. *)
Definition startOfRun (file : option jsstring) : runstate :=
  {| skipFile := file; results := []; notificationBatch := []; trace := [] |}.

Definition run (w : world) (file : option jsstring) : outcome unit * runstate :=
  scrapeStockData w (startOfRun file).

(** ** The cron handler (lines 291-315)

    [isScraping] is the flag of the script. [running] lists the calls of
    [scrapeStockData] that have not settled yet and [invocations] counts
    all of them: the script has neither, they are here to state what the
    flag achieves. A run and the handler interleave only at an [await], and
    the handler touches nothing a run uses, so the effect of a run on
    [skip-list.txt] is taken when it settles. *)

Inductive message :=
| MStarting
| MSkipped
| MTopLevelError (error : exn)
| MFinished.

Record scheduler := {
  isScraping : bool;
  running : list world;
  invocations : nat;
  file : option jsstring;
  console : list message;
}.

Definition startOfScheduler (f : option jsstring) : scheduler :=
  {| isScraping := false; running := []; invocations := 0; file := f; console := [] |}.

(** The callback up to its first [await] (lines 299-308): [w] is the
    outside the run will see if it starts. *)
Definition trigger (w : world) (s : scheduler) : scheduler :=
  if isScraping s then
    {| isScraping := isScraping s; running := running s;
       invocations := invocations s; file := file s;
       console := console s ++ [MStarting; MSkipped] |}
  else
    {| isScraping := true; running := w :: running s;
       invocations := S (invocations s); file := file s;
       console := console s ++ [MStarting] |}.

(** The rest of the callback once the run of [w] has settled
    (lines 309-314); [others] are the runs still going on. *)
Definition settle (w : world) (others : list world) (s : scheduler) : scheduler :=
  let '(r, final) := run w (file s) in
  {| isScraping := false; running := others;
     invocations := invocations s; file := skipFile final;
     console := console s
                ++ match r with Throw error => [MTopLevelError error] | Ret _ => [] end
                ++ [MFinished] |}.

Inductive step : scheduler -> scheduler -> Prop :=
| step_trigger w s : step s (trigger w s)
| step_settle w before after s :
    running s = before ++ w :: after ->
    step s (settle w (before ++ after) s).

Inductive reachable (f : option jsstring) : scheduler -> Prop :=
| reachable_start : reachable f (startOfScheduler f)
| reachable_step s s' : reachable f s -> step s s' -> reachable f s'.

(** ** [getKSTTimestamp] (lines 15-25)

    A time value is a number of milliseconds since the epoch, an integer
    of at most 8.64e15 in absolute value; on these integers the additions
    of numbers are exact. The functions on time values are those of
    ECMAScript, on which the UTC getters of [Date] are defined;
    [YearFromTime], which the standard defines as the largest year that
    starts at or before the time, is computed from an estimate that is
    off by one year at most. An invalid [Date] is [None], and so is the
    NaN its getters return. *)

Module Clock.
Local Open Scope Z_scope.

Definition msPerDay : Z := 86400000.
Definition msPerHour : Z := 3600000.
Definition msPerMinute : Z := 60000.

Definition Day (t : Z) : Z := t / msPerDay.

Definition DaysInYear (y : Z) : Z :=
  if negb (y mod 4 =? 0) then 365
  else if negb (y mod 100 =? 0) then 366
  else if negb (y mod 400 =? 0) then 365
  else 366.

Definition DayFromYear (y : Z) : Z :=
  365 * (y - 1970) + (y - 1969) / 4 - (y - 1901) / 100 + (y - 1601) / 400.

Definition TimeFromYear (y : Z) : Z := msPerDay * DayFromYear y.

Definition YearFromTime (t : Z) : Z :=
  let y := 1970 + Day t * 400 / 146097 in
  if DayFromYear (y + 1) <=? Day t then y + 1
  else if DayFromYear y <=? Day t then y
  else y - 1.

Definition InLeapYear (t : Z) : Z :=
  if DaysInYear (YearFromTime t) =? 366 then 1 else 0.

Definition DayWithinYear (t : Z) : Z := Day t - DayFromYear (YearFromTime t).

Definition MonthFromTime (t : Z) : Z :=
  let d := DayWithinYear t in
  let leap := InLeapYear t in
  if d <? 31 then 0
  else if d <? 59 + leap then 1
  else if d <? 90 + leap then 2
  else if d <? 120 + leap then 3
  else if d <? 151 + leap then 4
  else if d <? 181 + leap then 5
  else if d <? 212 + leap then 6
  else if d <? 243 + leap then 7
  else if d <? 273 + leap then 8
  else if d <? 304 + leap then 9
  else if d <? 334 + leap then 10
  else 11.

Definition DateFromTime (t : Z) : Z :=
  let d := DayWithinYear t in
  let leap := InLeapYear t in
  match MonthFromTime t with
  | 0 => d + 1
  | 1 => d - 30
  | 2 => d - 58 - leap
  | 3 => d - 89 - leap
  | 4 => d - 119 - leap
  | 5 => d - 150 - leap
  | 6 => d - 180 - leap
  | 7 => d - 211 - leap
  | 8 => d - 242 - leap
  | 9 => d - 272 - leap
  | 10 => d - 303 - leap
  | _ => d - 333 - leap
  end.

Definition HourFromTime (t : Z) : Z := (t / msPerHour) mod 24.
Definition MinFromTime (t : Z) : Z := (t / msPerMinute) mod 60.

(** [new Date(value)] keeps the time values and turns the rest into an
    invalid date. *)
Definition TimeClip (t : Z) : option Z :=
  if Z.abs t >? 8640000000000000 then None else Some t.

Definition getUTCFullYear (d : option Z) : option Z := option_map YearFromTime d.
Definition getUTCMonth (d : option Z) : option Z := option_map MonthFromTime d.
Definition getUTCDate (d : option Z) : option Z := option_map DateFromTime d.
Definition getUTCHours (d : option Z) : option Z := option_map HourFromTime d.
Definition getUTCMinutes (d : option Z) : option Z := option_map MinFromTime d.

(** [String(x)] for an integer or NaN, and [s.padStart(n, c)]. *)
Definition NaNString : jsstring := Eval vm_compute in utf16 "NaN".

Definition toString (x : option Z) : jsstring :=
  match x with
  | None => NaNString
  | Some z =>
      if z <? 0 then Parse.minus :: Str.decimal (Z.to_nat (- z))
      else Str.decimal (Z.to_nat z)
  end.

Definition padStart (s : jsstring) (targetLength : nat) (fill : codeunit) : jsstring :=
  repeat fill (targetLength - length s) ++ s.

Definition getKSTTimestamp (now : Z) : jsstring :=
  let kstOffset := 9 * 60 * 60 * 1000 in
  let kstNow := TimeClip (now + kstOffset) in
  let year := getUTCFullYear kstNow in
  let month := padStart (toString (option_map (fun m => m + 1) (getUTCMonth kstNow))) 2 48%N in
  let day := padStart (toString (getUTCDate kstNow)) 2 48%N in
  let hours := padStart (toString (getUTCHours kstNow)) 2 48%N in
  let minutes := padStart (toString (getUTCMinutes kstNow)) 2 48%N in
  toString year ++ [45%N] ++ month ++ [45%N] ++ day ++ [32%N] ++ hours ++ [58%N] ++ minutes.

End Clock.

(** ** The extraction in the page (lines 183-212)

    What the function given to [page.evaluate] sees of the document: the
    [innerText] of the first element each selector matches, if any, and
    for every key of the stock information its [innerText] with that of
    the first value element of its parent, if any. *)
Record document := {
  nameElement : option jsstring;
  currentPriceElement : option jsstring;
  targetPriceElement : option jsstring;
  keys : list (jsstring * option jsstring);
}.

Definition won : codeunit := 50896%N.
Definition marketCapKey : jsstring := Eval vm_compute in utf16 "시총".

Definition evaluate (doc : document) : StockData :=
  let name :=
    match nameElement doc with
    | Some innerText => Str.trim innerText
    | None => noName
    end in
  let currentPrice :=
    match currentPriceElement doc with
    | Some innerText => Str.trim (Str.replace innerText won [])
    | None => noCurrentPrice
    end in
  let targetPrice :=
    match targetPriceElement doc with
    | Some innerText => Str.trim (Str.replace innerText won [])
    | None => noTargetPrice
    end in
  let marketCap :=
    match List.find (fun el => bool_decide (Str.trim el.1 = marketCapKey)) (keys doc) with
    | Some marketCapKeyElement =>
        match marketCapKeyElement.2 with
        | Some innerText => Str.trim innerText
        | None => noMarketCap
        end
    | None => noMarketCap
    end in
  {| name := name; currentPrice := currentPrice; targetPrice := targetPrice;
     marketCap := marketCap |}.

(** ** [getRandomDelay] (line 12)

    [random] is what [Math.random()] returns. *)

Module Random.

(** [Math.floor] *)
Definition floor (x : number) : number :=
  match x with
  | S754_finite s m e =>
      if (0 <=? e)%Z then x
      else
        let n := ((if s then Zneg m else Zpos m) / 2 ^ (- e))%Z in
        if (n =? 0)%Z then S754_zero false else F64.of_Z n
  | _ => x
  end.

Definition getRandomDelay (random min max : number) : number :=
  floor (F64.add (F64.mul random (F64.add (F64.sub max min) (F64.of_Z 1))) min).

End Random.

(** ** Auxiliary notions for the proofs *)

(** The sign of a rounded non-zero mantissa, when the exponent is not
    below the smallest one. *)
Definition signed (sx : bool) (x : number) : Prop :=
  match x with
  | S754_finite s _ _ | S754_infinity s => s = sx
  | _ => False
  end.

(** The order of the numbers that are not NaN, read on a triple of
    integers compared lexicographically. *)
Definition key (x : number) : Z * Z * Z :=
  match x with
  | S754_infinity true => (-2, 0, 0)%Z
  | S754_finite true m e => (-1, - e, - Zpos m)%Z
  | S754_zero _ => (0, 0, 0)%Z
  | S754_finite false m e => (1, e, Zpos m)%Z
  | S754_infinity false => (2, 0, 0)%Z
  | S754_nan => (3, 0, 0)%Z
  end.

Definition lex_le (a b : Z * Z * Z) : Prop :=
  let '(a1, a2, a3) := a in
  let '(b1, b2, b3) := b in
  (a1 < b1 \/ (a1 = b1 /\ (a2 < b2 \/ (a2 = b2 /\ a3 <= b3))))%Z.

(** Strings of decimal digits, and numbers written with separators:
    digits and commas with at least one digit. *)
Definition allDigits (s : jsstring) : bool := forallb Str.isDigit s.

Definition grouped (s : jsstring) : bool :=
  forallb (fun c => Str.isDigit c || (c =? Str.comma)%N) s
  && negb (bool_decide (ungroup s = [])).

Definition groupedValue (s : jsstring) : Z := Str.digitsValue (ungroup s).

(** The stock and the settings of the worked example: 8000 now, 10000 as
    target. *)
Definition exampleStock (nm cap : jsstring) : StockData :=
  {| name := nm; currentPrice := utf16 "8000"; targetPrice := utf16 "10000";
     marketCap := cap |}.

Definition exampleEnv (threshold : string) : Env :=
  {| STOCK_CODES := None; PRICE_GAP_PERCENTAGE := Some (utf16 threshold);
     MIN_MARKET_CAP_BILLIONS := Some (utf16 "0");
     SLACK_TOKEN := None; SLACK_CHANNEL_ID := None |}.


(** ** The run in closed form *)

(** What a trace says: the codes fetched, the texts appended to
    [skip-list.txt], the messages posted. *)
Definition fetchesOf (tr : list event) : list (nat * jsstring) :=
  flat_map (fun e => match e with EFetch i c => [(i, c)] | _ => [] end) tr.

Definition appendsOf (tr : list event) : list jsstring :=
  flat_map (fun e => match e with EAppendFile t => [t] | _ => [] end) tr.

Definition postsOf (tr : list event) : list (jsstring * list candidate) :=
  flat_map (fun e => match e with EPostMessage _ t l => [(t, l)] | _ => [] end) tr.

(** One iteration in closed form. *)
Definition targetUnavailable (f : fetched) : bool :=
  match f with
  | Extracted stockData => bool_decide (targetPrice stockData = noTargetPrice)
  | _ => false
  end.

Definition itemAppends (w : world) (index : nat) (code : jsstring) : list jsstring :=
  if targetUnavailable (fetch w index code) then [code ++ [Str.newline]] else [].

Definition appendRejected (w : world) (index : nat) (code : jsstring) : bool :=
  targetUnavailable (fetch w index code)
  && match appendFault w index with Some _ => true | None => false end.

Definition itemRows (w : world) (index : nat) (code : jsstring) : list row :=
  match fetch w index code with
  | Extracted stockData =>
      {| row_code := code; row_data := stockData |}
      :: (if appendRejected w index code then [errorRow code] else [])
  | _ => [errorRow code]
  end.

Definition itemCandidates (w : world) (index : nat) (code : jsstring) : list candidate :=
  match fetch w index code with
  | Extracted stockData =>
      if appendRejected w index code then []
      else match analysis (env w) code stockData with Some c => [c] | None => [] end
  | _ => []
  end.

Definition itemFile (w : world) (index : nat) (code : jsstring) (f : option jsstring)
  : option jsstring :=
  if targetUnavailable (fetch w index code) && negb (appendRejected w index code)
  then appendText f (code ++ [Str.newline]) else f.

Definition itemOutcome (w : world) (index : nat) (code : jsstring) : outcome unit :=
  if pageCreated (fetch w index code) then
    match closePage w index with Some error => Throw error | None => Ret tt end
  else Ret tt.

Definition itemEvents (w : world) (index : nat) (code : jsstring) : list event :=
  EFetch index code
  :: map EAppendFile (itemAppends w index code)
  ++ (if pageCreated (fetch w index code) then [EClosePage] else [])
  ++ match itemOutcome w index code with
     | Ret _ => [ESleep (getRandomDelay w index)]
     | Throw _ => []
     end.

(** The items the loop reaches: it stops after the first one whose
    page does not close. *)
Fixpoint reached (w : world) (index : nat) (codes : list jsstring) : list (nat * jsstring) :=
  match codes with
  | [] => []
  | code :: codes' =>
      (index, code)
      :: match itemOutcome w index code with
         | Ret _ => reached w (S index) codes'
         | Throw _ => []
         end
  end.

Fixpoint loopOutcome (w : world) (index : nat) (codes : list jsstring) : outcome unit :=
  match codes with
  | [] => Ret tt
  | code :: codes' =>
      match itemOutcome w index code with
      | Ret _ => loopOutcome w (S index) codes'
      | Throw error => Throw error
      end
  end.

Definition indexed (index : nat) (codes : list jsstring) : list (nat * jsstring) :=
  zip (seq index (length codes)) codes.
Definition loopState (w : world) (index : nat) (codes : list jsstring) (s : runstate)
  : runstate :=
  let items := reached w index codes in
  {| skipFile := fold_left (fun f ic => itemFile w ic.1 ic.2 f) items (skipFile s);
     results := results s ++ flat_map (fun ic => itemRows w ic.1 ic.2) items;
     notificationBatch :=
       notificationBatch s ++ flat_map (fun ic => itemCandidates w ic.1 ic.2) items;
     trace := trace s ++ flat_map (fun ic => itemEvents w ic.1 ic.2) items |}.

(** A state with more events in its trace. *)
Definition extend (s : runstate) (evs : list event) : runstate :=
  {| skipFile := skipFile s; results := results s;
     notificationBatch := notificationBatch s; trace := trace s ++ evs |}.

(** Slack can be reached: both settings are there. *)
Definition configured (w : world) : bool :=
  negb (falsy (SLACK_TOKEN (env w))) && negb (falsy (SLACK_CHANNEL_ID (env w))).

(** The offsets 0, 5, 10, ... of the batches of [n] candidates. *)
Definition batchCount (n : nat) : nat := (n + (BATCH_SIZE - 1)) / BATCH_SIZE.

Definition offsets (n : nat) : list nat :=
  map (fun k => k * BATCH_SIZE) (seq 0 (batchCount n)).

Definition batchAt (b : list candidate) (i : nat) : list candidate :=
  slice b i (i + BATCH_SIZE).

Definition postEvent (w : world) (i : nat) (stocks : list candidate) : event :=
  EPostMessage (Parse.envString (SLACK_CHANNEL_ID (env w)))
    (messageTitle (getKSTTimestamp w i) stocks) stocks.

(** What the loop does for the batch at offset [i] when Slack answers. *)
Definition batchEvents (w : world) (b : list candidate) (i : nat) : list event :=
  postEvent w i (batchAt b i)
  :: (if (i + BATCH_SIZE <? length b)%nat then [ESleep 1000] else []).

(** The events the loop can produce at all. *)
Definition dispatchEvent (w : world) (b : list candidate) (e : event) : Prop :=
  match e with
  | EPostMessage _ title stocks =>
      exists i, stocks = batchAt b i /\ title = messageTitle (getKSTTimestamp w i) stocks
  | ESleep ms => ms = 1000%Z
  | _ => False
  end.
(** A state with another batch. *)
Definition withBatch (s : runstate) (b : list candidate) : runstate :=
  {| skipFile := skipFile s; results := results s;
     notificationBatch := b; trace := trace s |}.

(** Ascending gaps, and the candidates whose gap is a binary64 value
    other than NaN. *)
Definition gap_le (a b : candidate) : Prop := F64.leb (gap a) (gap b) = true.

Definition regular (c : candidate) : bool :=
  F64.valid (gap c) && negb (F64.isNaN (gap c)).

(** A state with another content of [skip-list.txt]. *)
Definition withFile (s : runstate) (f : option jsstring) : runstate :=
  {| skipFile := f; results := results s;
     notificationBatch := notificationBatch s; trace := trace s |}.

(** The events before the loop and after it. *)
Definition preludeEvent (e : event) : Prop :=
  match e with EUnlink | EReadFile | ELaunch => True | _ => False end.

Definition tailEvent (w : world) (b : list candidate) (e : event) : Prop :=
  match e with ECloseBrowser => True | _ => dispatchEvent w b e end.

(** [skip-list.txt] once the monthly reset is over. *)
Definition afterReset (w : world) (file : option jsstring) : option jsstring :=
  if isFirstMonday w then
    match unlinkFault w with None => None | Some _ => file end
  else file.

(** The shape of the final state of [m] started in [s]: some events of the
    prelude, the events of the items reached, then the events of the end. *)
Definition shaped (w : world) (s final : runstate) : Prop :=
  exists pre items tail,
    trace final = trace s ++ pre ++ flat_map (fun ic => itemEvents w ic.1 ic.2) items ++ tail
    /\ Forall preludeEvent pre
    /\ Forall (tailEvent w (notificationBatch final)) tail
    /\ results final = results s ++ flat_map (fun ic => itemRows w ic.1 ic.2) items
    /\ Permutation (notificationBatch s ++ flat_map (fun ic => itemCandidates w ic.1 ic.2) items)
         (notificationBatch final)
    /\ skipFile final = fold_left (fun f ic => itemFile w ic.1 ic.2 f) items (skipFile s)
    /\ (notificationBatch final = [] -> postsOf tail = []).

(** The same for a whole run, which starts with an empty trace and empty
    arrays; [base] is the file after the reset. *)
Definition runShape (w : world) (base : option jsstring) (final : runstate) : Prop :=
  exists pre items tail,
    trace final = pre ++ flat_map (fun ic => itemEvents w ic.1 ic.2) items ++ tail
    /\ Forall preludeEvent pre
    /\ Forall (tailEvent w (notificationBatch final)) tail
    /\ results final = flat_map (fun ic => itemRows w ic.1 ic.2) items
    /\ Permutation (flat_map (fun ic => itemCandidates w ic.1 ic.2) items)
         (notificationBatch final)
    /\ skipFile final = fold_left (fun f ic => itemFile w ic.1 ic.2 f) items base
    /\ (notificationBatch final = [] -> postsOf tail = []).

(** Worlds for the examples: a Tuesday, nothing fails, the fetch is given. *)
Definition exampleTimestamp : jsstring := Eval vm_compute in utf16 "2025-01-14 07:00".

Definition quietWorld (e : Env) (fetchFn : nat -> jsstring -> fetched) : world :=
  {| env := e; getDay := 2; getDate := 14;
     unlinkFault := None; readFault := None; appendFault := fun _ => None;
     launch := None; fetch := fetchFn;
     closePage := fun _ => None; closeBrowser := None;
     postMessage := fun _ => None;
     getKSTTimestamp := fun _ => exampleTimestamp;
     getRandomDelay := fun _ => 2000%Z |}.

Definition settings (codes threshold : string) : Env :=
  {| STOCK_CODES := Some (utf16 codes); PRICE_GAP_PERCENTAGE := Some (utf16 threshold);
     MIN_MARKET_CAP_BILLIONS := None;
     SLACK_TOKEN := Some (utf16 "xoxb"); SLACK_CHANNEL_ID := Some (utf16 "C01") |}.

(** Every page shows 8000 against a target of 10000. *)
Definition undervalued : nat -> jsstring -> fetched :=
  fun _ _ => Extracted (exampleStock (utf16 "S") (utf16 "2조4674억")).

(** Every page lacks the target price. *)
Definition withoutTarget : nat -> jsstring -> fetched :=
  fun _ _ => Extracted {| name := utf16 "S"; currentPrice := utf16 "8000";
                          targetPrice := noTargetPrice; marketCap := utf16 "1억" |}.

Definition EACCES : jsstring := Eval vm_compute in utf16 "EACCES".
Definition TimeoutError : jsstring := Eval vm_compute in utf16 "TimeoutError".

Definition exampleCandidate (c : string) : candidate :=
  {| code := utf16 c; data := exampleStock (utf16 "S") (utf16 "2조4674억");
     gap := F64.of_Z 20 |}.

Definition noThreshold (codes : string) : Env :=
  {| STOCK_CODES := Some (utf16 codes); PRICE_GAP_PERCENTAGE := None;
     MIN_MARKET_CAP_BILLIONS := None;
     SLACK_TOKEN := Some (utf16 "xoxb"); SLACK_CHANNEL_ID := Some (utf16 "C01") |}.

(** The skip codes a run loads when reading the file does not fail. *)
Definition loadedSkipCodes (w : world) (file : option jsstring) : gset jsstring :=
  match afterReset w file with
  | Some text => skipCodesOf text
  | None => ∅
  end.

Definition isExtracted (f : fetched) : bool :=
  match f with Extracted _ => true | _ => false end.

(** The second code times out, the others are fine. *)
Definition secondFails : nat -> jsstring -> fetched :=
  fun index _ =>
    match index with
    | 1 => PageError (Failure TimeoutError)
    | _ => Extracted (exampleStock (utf16 "S") (utf16 "2조4674억"))
    end.

(** The pieces of a split put together again. *)
Fixpoint join (sep : codeunit) (pieces : list jsstring) : jsstring :=
  match pieces with
  | [] => []
  | [x] => x
  | x :: rest => x ++ sep :: join sep rest
  end.

(** Every append is refused. *)
Definition readOnly (w : world) : world :=
  {| env := env w; getDay := getDay w; getDate := getDate w;
     unlinkFault := unlinkFault w; readFault := readFault w;
     appendFault := fun _ => Some (Errno EACCES);
     launch := launch w; fetch := fetch w;
     closePage := closePage w; closeBrowser := closeBrowser w;
     postMessage := postMessage w;
     getKSTTimestamp := getKSTTimestamp w;
     getRandomDelay := getRandomDelay w |}.

(** Twelve candidates with the gaps 30, 29, ..., 19. *)
Definition twelve : list candidate :=
  map (fun k => {| code := Str.decimal k;
                   data := exampleStock (utf16 "S") (utf16 "1억");
                   gap := F64.of_Z (30 - Z.of_nat k) |}) (seq 0 12).

(** What the flag guarantees in every state the scheduler can reach. *)
Definition guarded (s : scheduler) : Prop :=
  length (running s) <= 1 /\ (isScraping s = false -> running s = []).

(** [skip-list.txt] is absent, empty, or ends with a newline. *)
Definition terminated (f : option jsstring) : bool :=
  match f with
  | None => true
  | Some text =>
      match reverse text with
      | [] => true
      | x :: _ => (x =? Str.newline)%N
      end
  end.

(** The skip codes a file holds. *)
Definition skipCodesIn (f : option jsstring) : gset jsstring :=
  match f with Some text => skipCodesOf text | None => ∅ end.

(** The codes of the items whose append went through. *)
Definition markedBy (w : world) (items : list (nat * jsstring)) : list jsstring :=
  flat_map (fun ic => if targetUnavailable (fetch w ic.1 ic.2)
                         && negb (appendRejected w ic.1 ic.2)
                      then [ic.2] else []) items.

(** The same outside on the first Monday of a month. *)
Definition onFirstMonday (w : world) : world :=
  {| env := env w; getDay := 1; getDate := 6;
     unlinkFault := unlinkFault w; readFault := readFault w;
     appendFault := appendFault w;
     launch := launch w; fetch := fetch w;
     closePage := closePage w; closeBrowser := closeBrowser w;
     postMessage := postMessage w;
     getKSTTimestamp := getKSTTimestamp w;
     getRandomDelay := getRandomDelay w |}.

(** The state of a run once the skip codes are loaded. *)
Definition afterLoad (w : world) (file : option jsstring) : runstate :=
  extend (withFile (startOfRun file) (afterReset w file))
    ((if isFirstMonday w then [EUnlink] else []) ++ [EReadFile]).

(** The page events of a trace, and those of one item: the page is asked
    for, and closed if it was created. *)
Definition pagesOf (tr : list event) : list event :=
  List.filter (fun e => match e with EFetch _ _ | EClosePage => true | _ => false end) tr.

Definition pageEvents (w : world) (ic : nat * jsstring) : list event :=
  EFetch ic.1 ic.2 :: (if pageCreated (fetch w ic.1 ic.2) then [EClosePage] else []).

(** The events of a whole item loop. *)
Definition loopEvents (w : world) (items : list (nat * jsstring)) : list event :=
  flat_map (fun ic => itemEvents w ic.1 ic.2) items.

(** The sorted batch is sent up to the batch at offset [k * BATCH_SIZE],
    which Slack refuses. *)
Definition eventsUntil (w : world) (b : list candidate) (k : nat) : list event :=
  flat_map (batchEvents w b) (map (fun j => j * BATCH_SIZE) (seq 0 k))
  ++ [postEvent w (k * BATCH_SIZE) (batchAt b (k * BATCH_SIZE))].

(** Slack lacks its token. *)
Definition withoutSlack (codes threshold : string) : Env :=
  {| STOCK_CODES := Some (utf16 codes); PRICE_GAP_PERCENTAGE := Some (utf16 threshold);
     MIN_MARKET_CAP_BILLIONS := None;
     SLACK_TOKEN := None; SLACK_CHANNEL_ID := Some (utf16 "C01") |}.

(** The page of the item at [index] does not close; Slack refuses the
    message at offset [i]. *)
Definition EPIPE : jsstring := Eval vm_compute in utf16 "EPIPE".

Definition stuckPage (index : nat) (w : world) : world :=
  {| env := env w; getDay := getDay w; getDate := getDate w;
     unlinkFault := unlinkFault w; readFault := readFault w;
     appendFault := appendFault w;
     launch := launch w; fetch := fetch w;
     closePage := fun i => if (i =? index)%nat then Some (Failure EPIPE) else None;
     closeBrowser := closeBrowser w;
     postMessage := postMessage w;
     getKSTTimestamp := getKSTTimestamp w;
     getRandomDelay := getRandomDelay w |}.

Definition refusedAt (offset : nat) (w : world) : world :=
  {| env := env w; getDay := getDay w; getDate := getDate w;
     unlinkFault := unlinkFault w; readFault := readFault w;
     appendFault := appendFault w;
     launch := launch w; fetch := fetch w;
     closePage := closePage w;
     closeBrowser := closeBrowser w;
     postMessage := fun i => if (i =? offset)%nat then Some (Failure EPIPE) else None;
     getKSTTimestamp := getKSTTimestamp w;
     getRandomDelay := getRandomDelay w |}.

(** The candidates whose gap neither is below [g] nor has [g] below it. *)
Definition tied (g : number) (c : candidate) : bool :=
  negb (F64.ltb (gap c) g) && negb (F64.ltb g (gap c)).

(** Counting the lines of the console. *)
Definition started (l : list message) : nat :=
  length (List.filter (fun m => match m with MStarting => true | _ => false end) l).
Definition skipped (l : list message) : nat :=
  length (List.filter (fun m => match m with MSkipped => true | _ => false end) l).
Definition finished (l : list message) : nat :=
  length (List.filter (fun m => match m with MFinished => true | _ => false end) l).
Definition failed (l : list message) : nat :=
  length (List.filter (fun m => match m with MTopLevelError _ => true | _ => false end) l).

(** What the console of the handler says about its runs. *)
Definition counted (s : scheduler) : Prop :=
  started (console s) = invocations s + skipped (console s)
  /\ finished (console s) + length (running s) = invocations s
  /\ failed (console s) <= finished (console s).

(** Two triggers in a row, then the run of the first one settles. *)
Definition twoTriggers : scheduler :=
  trigger (quietWorld (settings "B" "15") undervalued)
    (trigger (quietWorld (settings "A" "15") undervalued) (startOfScheduler None)).

Definition exampleScheduler : scheduler :=
  settle (quietWorld (settings "A" "15") undervalued) [] twoTriggers.

(** Numbers written with two and with four digits. *)
Definition digit (n : Z) : codeunit := (48 + Z.to_N n)%N.

Definition two (n : Z) : jsstring := [digit (n / 10); digit (n mod 10)].

Definition four (n : Z) : jsstring :=
  [digit (n / 1000); digit (n / 100 mod 10); digit (n / 10 mod 10); digit (n mod 10)].

(** White space, and a price as a page shows it: digits with separators,
    the currency sign or not, white space around. *)
Definition blank (s : jsstring) : bool := forallb Str.isWhiteSpace s.

Definition priceText (before digits unit after : jsstring) : jsstring :=
  before ++ digits ++ unit ++ after.

(** A page of the example: 8,000 won against a target of 10,000 won. *)
Definition examplePage : document :=
  {| nameElement := Some (utf16 " S ");
     currentPriceElement := Some (utf16 "8,000원");
     targetPriceElement := Some (utf16 " 10,000원 ");
     keys := [(utf16 "PER", Some (utf16 "12.3배")); (utf16 "시총", Some (utf16 "2조4674억"))] |}.

(** The largest number below 1. *)
Definition belowOne : number := S754_finite false 9007199254740991 (-53).

(** A number that is not negative lies between two integers. *)
Definition between (lo hi : Z) (x : number) : Prop :=
  match x with
  | S754_zero _ => lo = 0%Z
  | S754_finite false m e =>
      (e <= 0 /\ lo * 2 ^ (- e) <= Zpos m <= hi * 2 ^ (- e))%Z
  | _ => False
  end.

(** * Properties *)

(** ** Examples of the conversions *)

Example jo_eok_units : utf16 "조" = [jo] /\ utf16 "억" = [eok].
Proof. split; reflexivity. Qed.

Example utf16_examples :
  utf16 "A,B" = [65; 44; 66]%N /\ utf16 "📈" = [55357; 56520]%N.
Proof. split; reflexivity. Qed.

Example decimal_examples :
  Str.decimal 0 = utf16 "0" /\ Str.decimal 5 = utf16 "5" /\ Str.decimal 12 = utf16 "12"
  /\ Str.decimal 1000 = utf16 "1000".
Proof. vm_compute. repeat split. Qed.

Example messageTitle_example :
  messageTitle (utf16 "2025-01-14 07:00") (map exampleCandidate ["A"; "B"]%string)
  = utf16 "[2025-01-14 07:00] 📈 목표주가 대비 저평가 종목 알림 (2건)".
Proof. vm_compute. reflexivity. Qed.

Example split_examples :
  Str.split (utf16 "A,B,C") Str.comma = [utf16 "A"; utf16 "B"; utf16 "C"]
  /\ Str.split [] Str.comma = [[]]
  /\ Str.split (utf16 "A,,B,") Str.comma = [utf16 "A"; []; utf16 "B"; []]
  /\ Str.trim (utf16 "  A B ") = utf16 "A B".
Proof. vm_compute. repeat split. Qed.

Example parseFloat_examples :
  Parse.parseFloat (utf16 "15") = F64.of_Z 15
  /\ Parse.parseFloat (utf16 " 12.5%") = F64.div (F64.of_Z 25) (F64.of_Z 2)
  /\ Parse.parseFloat (utf16 "0.1") = F64.div (F64.of_Z 1) (F64.of_Z 10)
  /\ Parse.parseFloat (utf16 "-1e-2x") = F64.div (F64.of_Z (-1)) (F64.of_Z 100)
  /\ Parse.parseFloat (utf16 "abc") = F64.NaN
  /\ Parse.parseFloat (Parse.envString None) = F64.NaN.
Proof. vm_compute. repeat split. Qed.

Example parseInt_examples :
  Parse.parseInt (utf16 "10,000") = F64.of_Z 10
  /\ Parse.parseInt (utf16 "  -42abc") = F64.of_Z (-42)
  /\ Parse.parseInt (utf16 "") = F64.NaN
  /\ Parse.parseInt (utf16 "현재가 없음") = F64.NaN.
Proof. vm_compute. repeat split. Qed.

Example parseMarketCap_examples :
  parseMarketCapToBillions (VString (utf16 "2조4674억")) = F64.of_Z 24674
  /\ parseMarketCapToBillions (VString (utf16 "1,234조5,678억")) = F64.of_Z 12345678
  /\ parseMarketCapToBillions (VString (utf16 "3조")) = F64.of_Z 30000
  /\ parseMarketCapToBillions (VString (utf16 "4,674억")) = F64.of_Z 4674
  /\ parseMarketCapToBillions (VString (utf16 "시총 없음")) = F64.zero
  /\ parseMarketCapToBillions (VString (utf16 "억")) = F64.NaN.
Proof. vm_compute. repeat split. Qed.


(** ** Numbers: the sign of a rounded value and the order

    [binary_normalize] rounds an integer mantissa; the lemmas below give
    the sign of what it returns, which is all the comparisons of the
    script need, and the order [<=] on the numbers that are not NaN. *)

Module NumberFacts.

Local Open Scope Z_scope.


Lemma digits2_size (m : positive) : digits2_pos m = Pos.size m.
Proof. induction m; simpl; congruence. Qed.

Lemma digits2_bounds (m : positive) :
  2 ^ (Zpos (digits2_pos m) - 1) <= Zpos m < 2 ^ Zpos (digits2_pos m).
Proof.
  rewrite digits2_size.
  pose proof (Pos.size_gt m) as Hgt. pose proof (Pos.size_le m) as Hle.
  assert (H2 : Zpos (2 ^ Pos.size m) = 2 ^ Zpos (Pos.size m)) by apply Pos2Z.inj_pow.
  split.
  - assert (2 * 2 ^ (Zpos (Pos.size m) - 1) = 2 ^ Zpos (Pos.size m)).
    { rewrite <- Z.pow_succ_r by lia. f_equal. lia. }
    lia.
  - lia.
Qed.

Lemma iter_xO_pow (m d : positive) : Zpos (Pos.iter xO m d) = Zpos m * 2 ^ Zpos d.
Proof.
  induction d as [|d IH] using Pos.peano_ind.
  - simpl. lia.
  - rewrite Pos.iter_succ, Pos2Z.inj_xO, IH, Pos2Z.inj_succ, Z.pow_succ_r by lia. lia.
Qed.

Lemma iter_pos_iter {A} (f : A -> A) (p : positive) (x : A) :
  SpecFloat.iter_pos f p x = Pos.iter f x p.
Proof.
  revert x. induction p as [p IH|p IH|]; intros x; simpl; try reflexivity.
  - rewrite !IH. rewrite 2!Pos.iter_swap. reflexivity.
  - rewrite !IH. reflexivity.
Qed.

Lemma shr_1_m mrs : 0 <= shr_m mrs -> shr_m (shr_1 mrs) = Z.div2 (shr_m mrs).
Proof.
  destruct mrs as [m r s]. simpl. destruct m as [|p|p]; try lia; try reflexivity.
  destruct p; reflexivity.
Qed.

Lemma shr_iter_m p mrs :
  0 <= shr_m mrs -> shr_m (SpecFloat.iter_pos shr_1 p mrs) = shr_m mrs / 2 ^ Zpos p.
Proof.
  rewrite iter_pos_iter. revert mrs.
  induction p as [|p IH] using Pos.peano_ind; intros mrs H.
  - simpl. rewrite shr_1_m by assumption. rewrite Z.div2_div. reflexivity.
  - rewrite Pos.iter_succ. rewrite shr_1_m.
    + rewrite IH by assumption. rewrite Z.div2_div, Pos2Z.inj_succ, Z.pow_succ_r by lia.
      rewrite Z.div_div by lia. f_equal. lia.
    + rewrite IH by assumption. apply Z.div_pos; lia.
Qed.

Lemma shr_record_of_loc_m m l : shr_m (shr_record_of_loc m l) = m.
Proof. destruct l as [|[]]; reflexivity. Qed.

Lemma fexp_eq z : fexp F64.prec F64.emax z = Z.max (z - 53) (-1074).
Proof. reflexivity. Qed.

Lemma shr_fexp_pos (q : positive) (e : Z) (l : location) :
  -1074 <= e ->
  0 < shr_m (fst (shr_fexp F64.prec F64.emax (Zpos q) e l))
  /\ -1074 <= snd (shr_fexp F64.prec F64.emax (Zpos q) e l).
Proof.
  intros He. unfold shr_fexp, shr. rewrite fexp_eq. simpl Zdigits2.
  pose proof (digits2_bounds q) as [Hlo _].
  destruct (Z.max (Zpos (digits2_pos q) + e - 53) (-1074) - e) as [|p|p] eqn:Hn;
    cbn [fst snd]; rewrite ?shr_record_of_loc_m; try (split; lia).
  rewrite shr_iter_m by (rewrite shr_record_of_loc_m; lia).
  rewrite shr_record_of_loc_m. split; [|lia].
  assert (Hp : Zpos p <= Zpos (digits2_pos q) - 1) by lia.
  assert (2 ^ Zpos p <= Zpos q).
  { etransitivity; [|exact Hlo]. apply Z.pow_le_mono_r; lia. }
  apply Z.div_str_pos. lia.
Qed.

Lemma round_nearest_even_pos m l : 0 < m -> 0 < round_nearest_even m l.
Proof.
  intros H. destruct l as [|[]]; simpl; try lia. destruct (Z.even m); lia.
Qed.

Lemma binary_round_aux_signed sx (q : positive) e l :
  -1074 <= e -> signed sx (binary_round_aux F64.prec F64.emax sx (Zpos q) e l).
Proof.
  intros He. unfold binary_round_aux.
  destruct (shr_fexp_pos q e l He) as [Hm He'].
  destruct (shr_fexp F64.prec F64.emax (Zpos q) e l) as [mrs' e'].
  cbn [fst snd] in Hm, He'.
  pose proof (round_nearest_even_pos (shr_m mrs') (loc_of_shr_record mrs') Hm) as Hr.
  destruct (round_nearest_even (shr_m mrs') (loc_of_shr_record mrs')) as [|r|r]; try lia.
  destruct (shr_fexp_pos r e' loc_Exact He') as [Hm2 _].
  destruct (shr_fexp F64.prec F64.emax (Zpos r) e' loc_Exact) as [mrs'' e''].
  cbn [fst] in Hm2.
  destruct (shr_m mrs'') as [|m|m]; try lia.
  destruct (e'' <=? F64.emax - F64.prec); reflexivity.
Qed.

Lemma binary_round_signed sx (m : positive) e :
  -1074 <= e -> signed sx (binary_round F64.prec F64.emax sx m e).
Proof.
  intros He. unfold binary_round.
  destruct (shl_align m e (fexp F64.prec F64.emax (Zpos (digits2_pos m) + e))) as [mz ez] eqn:Hs.
  apply binary_round_aux_signed.
  unfold shl_align in Hs. rewrite fexp_eq in *.
  destruct (Z.max (Zpos (digits2_pos m) + e - 53) (-1074) - e) eqn:Hd;
    inversion Hs; subst; lia.
Qed.

(** Whatever the exponent, a rounded negative mantissa is not positive. *)
Lemma binary_round_aux_not_pos mz e l :
  SFltb (S754_zero false) (binary_round_aux F64.prec F64.emax true mz e l) = false.
Proof.
  unfold binary_round_aux.
  destruct (shr_fexp F64.prec F64.emax mz e l) as [mrs' e'].
  destruct (shr_fexp _ _ _ e' loc_Exact) as [mrs'' e''].
  destruct (shr_m mrs''); try reflexivity.
  destruct (e'' <=? F64.emax - F64.prec); reflexivity.
Qed.

Lemma binary_round_neg_not_pos m e :
  SFltb (S754_zero false) (binary_round F64.prec F64.emax true m e) = false.
Proof.
  unfold binary_round.
  destruct (shl_align m e _) as [mz ez]. apply binary_round_aux_not_pos.
Qed.

Lemma signed_false_gt x : signed false x -> SFltb (S754_zero false) x = true.
Proof. destruct x as [| [] | | [] ? ?]; simpl; intros H; try easy. Qed.

(** The sign test [x > 0] on a normalised integer mantissa. *)
Lemma binary_normalize_gt0 (d e : Z) (sz : bool) :
  -1074 <= e ->
  SFltb (S754_zero false) (binary_normalize F64.prec F64.emax d e sz) = (0 <? d).
Proof.
  intros He. destruct d as [|m|m]; simpl binary_normalize.
  - reflexivity.
  - apply signed_false_gt, binary_round_signed, He.
  - apply binary_round_neg_not_pos.
Qed.

Lemma bounded_facts m e :
  bounded F64.prec F64.emax m e = true ->
  -1074 <= e /\ Zpos m < 2 ^ 53 /\ (-1074 < e -> 2 ^ 52 <= Zpos m).
Proof.
  unfold bounded, canonical_mantissa. rewrite fexp_eq.
  intros H. apply andb_true_iff in H as [H _]. apply Z.eqb_eq in H.
  pose proof (digits2_bounds m) as [Hlo Hhi].
  split; [lia|]. split.
  - eapply Z.lt_le_trans; [exact Hhi|]. apply Z.pow_le_mono_r; lia.
  - intros He. replace 52 with (Zpos (digits2_pos m) - 1) by lia. exact Hlo.
Qed.

Lemma shl_align_fst m e e' :
  e' <= e -> Zpos (fst (shl_align m e e')) = Zpos m * 2 ^ (e - e').
Proof.
  intros H. unfold shl_align. destruct (e' - e) as [|d|d] eqn:Hd; cbn [fst]; try lia.
  - replace (e - e') with 0 by lia. lia.
  - rewrite iter_xO_pow. f_equal. f_equal. lia.
Qed.

Lemma canonical_lt mx ex my ey :
  bounded F64.prec F64.emax mx ex = true ->
  bounded F64.prec F64.emax my ey = true ->
  ey < ex -> Zpos my < Zpos mx * 2 ^ (ex - ey).
Proof.
  intros Hx Hy Hlt.
  apply bounded_facts in Hx as (Hex & _ & Hnorm), Hy as (Hey & Hmy & _).
  specialize (Hnorm ltac:(lia)).
  assert (2 ^ 1 <= 2 ^ (ex - ey)) by (apply Z.pow_le_mono_r; lia).
  change (2 ^ 1) with 2 in *. change (2 ^ 52) with 4503599627370496 in *.
  change (2 ^ 53) with 9007199254740992 in *. nia.
Qed.

(** For binary64 values the sign of [x - y] tells whether [y < x]. *)
Lemma sub_gt0 (x y : number) :
  F64.valid x = true -> F64.valid y = true ->
  F64.gtb (F64.sub x y) F64.zero = F64.ltb y x.
Proof.
  unfold F64.gtb, F64.ltb, F64.sub, F64.zero, F64.valid.
  destruct x as [sx|sx| |sx mx ex], y as [sy|sy| |sy my ey];
    try reflexivity;
    try (destruct sx; try destruct sy; reflexivity);
    try (destruct sy; reflexivity).
  intros Hx Hy. cbn [valid_binary] in Hx, Hy.
  pose proof (bounded_facts _ _ Hx) as (Hex & _ & _).
  pose proof (bounded_facts _ _ Hy) as (Hey & _ & _).
  cbn [SFsub]. rewrite binary_normalize_gt0 by lia.
  rewrite !shl_align_fst by lia.
  unfold SFltb, SFcompare.
  assert (0 < 2 ^ (ex - Z.min ex ey)) by (apply Z.pow_pos_nonneg; lia).
  assert (0 < 2 ^ (ey - Z.min ex ey)) by (apply Z.pow_pos_nonneg; lia).
  destruct sx, sy; cbn [cond_Zopp].
  - (* both negative *)
    destruct (Z.compare_spec ey ex) as [He|He|He].
    + subst. rewrite Z.min_id, Z.sub_diag, !Z.mul_1_r, Pos.compare_cont_spec.
      cbn [Pos.switch_Eq]. destruct (Pos.compare_spec my mx); cbn [CompOpp];
        destruct (Z.ltb_spec 0 (- Zpos mx - - Zpos my)); try reflexivity; lia.
    + pose proof (canonical_lt _ _ _ _ Hx Hy He).
      rewrite Z.min_r by lia. rewrite Z.sub_diag, Z.mul_1_r.
      destruct (Z.ltb_spec 0 (- (Zpos mx * 2 ^ (ex - ey)) - - Zpos my)); try reflexivity; lia.
    + pose proof (canonical_lt _ _ _ _ Hy Hx He).
      rewrite Z.min_l by lia. rewrite Z.sub_diag, Z.mul_1_r.
      destruct (Z.ltb_spec 0 (- Zpos mx - - (Zpos my * 2 ^ (ey - ex)))); try reflexivity; lia.
  - destruct (Z.ltb_spec 0 (- (Zpos mx * 2 ^ (ex - Z.min ex ey)) - Zpos my * 2 ^ (ey - Z.min ex ey)));
      try reflexivity; nia.
  - destruct (Z.ltb_spec 0 (Zpos mx * 2 ^ (ex - Z.min ex ey) - - (Zpos my * 2 ^ (ey - Z.min ex ey))));
      try reflexivity; nia.
  - destruct (Z.compare_spec ey ex) as [He|He|He].
    + subst. rewrite Z.min_id, Z.sub_diag, !Z.mul_1_r, Pos.compare_cont_spec.
      cbn [Pos.switch_Eq]. destruct (Pos.compare_spec my mx);
        destruct (Z.ltb_spec 0 (Zpos mx - Zpos my)); try reflexivity; lia.
    + pose proof (canonical_lt _ _ _ _ Hx Hy He).
      rewrite Z.min_r by lia. rewrite Z.sub_diag, Z.mul_1_r.
      destruct (Z.ltb_spec 0 (Zpos mx * 2 ^ (ex - ey) - Zpos my)); try reflexivity; lia.
    + pose proof (canonical_lt _ _ _ _ Hy Hx He).
      rewrite Z.min_l by lia. rewrite Z.sub_diag, Z.mul_1_r.
      destruct (Z.ltb_spec 0 (Zpos mx - Zpos my * 2 ^ (ey - ex))); try reflexivity; lia.
Qed.

Lemma leb_key (x y : number) :
  F64.isNaN x = false -> F64.isNaN y = false ->
  (F64.leb x y = true <-> lex_le (key x) (key y)).
Proof.
  unfold F64.leb, SFleb, SFcompare, lex_le, key.
  destruct x as [sx|sx| |sx mx ex], y as [sy|sy| |sy my ey]; intros Hx Hy;
    try discriminate; try destruct sx; try destruct sy;
    try (split; [intros _; lia | reflexivity]);
    try (split; [discriminate | lia]).
  - destruct (Z.compare_spec ex ey); [subst; rewrite Pos.compare_cont_spec;
      cbn [Pos.switch_Eq]; destruct (Pos.compare_spec mx my) | |];
      cbn [CompOpp]; (split; [intros; try discriminate; lia | intros; try reflexivity; lia]).
  - destruct (Z.compare_spec ex ey); [subst; rewrite Pos.compare_cont_spec;
      cbn [Pos.switch_Eq]; destruct (Pos.compare_spec mx my) | |];
      (split; [intros; try discriminate; lia | intros; try reflexivity; lia]).
Qed.

Lemma leb_not_NaN x y : F64.leb x y = true -> F64.isNaN x = false /\ F64.isNaN y = false.
Proof.
  unfold F64.leb, SFleb, SFcompare.
  destruct x as [| | |], y as [| | |]; try discriminate; split; reflexivity.
Qed.

Lemma leb_trans x y z : F64.leb x y = true -> F64.leb y z = true -> F64.leb x z = true.
Proof.
  intros Hxy Hyz.
  destruct (leb_not_NaN _ _ Hxy) as [Hx Hy]. destruct (leb_not_NaN _ _ Hyz) as [_ Hz].
  apply leb_key in Hxy, Hyz; try assumption. apply leb_key; try assumption.
  unfold lex_le in *.
  destruct (key x) as [[? ?] ?], (key y) as [[? ?] ?], (key z) as [[? ?] ?]. lia.
Qed.

Lemma ltb_leb x y : F64.ltb x y = true -> F64.leb x y = true.
Proof. unfold F64.ltb, F64.leb, SFltb, SFleb. destruct (SFcompare x y) as [[]|]; easy. Qed.

Lemma not_ltb_leb x y :
  F64.isNaN x = false -> F64.isNaN y = false ->
  F64.ltb y x = false -> F64.leb x y = true.
Proof.
  unfold F64.ltb, F64.leb, SFltb, SFleb, SFcompare.
  destruct x as [sx|sx| |sx mx ex], y as [sy|sy| |sy my ey]; intros Hx Hy;
    try discriminate; try destruct sx; try destruct sy; try reflexivity; try discriminate.
  - rewrite (Z.compare_antisym ex ey).
    destruct (Z.compare_spec ex ey); cbn [CompOpp]; try easy.
    subst. rewrite !Pos.compare_cont_spec. cbn [Pos.switch_Eq].
    rewrite (Pos.compare_antisym mx my). destruct (Pos.compare mx my); easy.
  - rewrite (Z.compare_antisym ex ey).
    destruct (Z.compare_spec ex ey); cbn [CompOpp]; try easy.
    subst. rewrite !Pos.compare_cont_spec. cbn [Pos.switch_Eq].
    rewrite (Pos.compare_antisym mx my). destruct (Pos.compare mx my); easy.
Qed.

End NumberFacts.

(** ** Numbers: integers below 2^53 are computed exactly *)

Module ExactFacts.
Import NumberFacts.
Local Open Scope Z_scope.

Lemma digits2_log2 (m : positive) : Zpos (digits2_pos m) = Z.log2 (Zpos m) + 1.
Proof.
  pose proof (digits2_bounds m) as [Hlo Hhi].
  symmetry. apply Z.add_move_r. apply Z.log2_unique; [lia|].
  split; [exact Hlo|]. replace (Z.succ (Zpos (digits2_pos m) - 1)) with (Zpos (digits2_pos m)) by lia.
  exact Hhi.
Qed.

Lemma shr_1_even m :
  0 <= m ->
  shr_1 {| shr_m := 2 * m; shr_r := false; shr_s := false |}
  = {| shr_m := m; shr_r := false; shr_s := false |}.
Proof. intros H. destruct m as [|q|q]; try lia; reflexivity. Qed.

Lemma shr_exact p m :
  0 <= m ->
  SpecFloat.iter_pos shr_1 p {| shr_m := m * 2 ^ Zpos p; shr_r := false; shr_s := false |}
  = {| shr_m := m; shr_r := false; shr_s := false |}.
Proof.
  intros Hm. rewrite iter_pos_iter.
  induction p as [|p IH] using Pos.peano_ind.
  - cbn [Pos.iter]. replace (m * 2 ^ 1) with (2 * m) by lia. apply shr_1_even, Hm.
  - rewrite Pos.iter_succ_r.
    replace (m * 2 ^ Zpos (Pos.succ p)) with (2 * (m * 2 ^ Zpos p))
      by (rewrite Pos2Z.inj_succ, Z.pow_succ_r by lia; lia).
    rewrite shr_1_even by (apply Z.mul_nonneg_nonneg; lia). exact IH.
Qed.

(** Rounding a mantissa that has its surplus digits at zero is exact. *)
Lemma binary_round_aux_exact sx (m : positive) (e n : Z) :
  0 <= n ->
  Z.max (Z.log2 (Zpos m * 2 ^ n) + 1 + e - 53) (-1074) - e = n ->
  e + n <= 971 ->
  binary_round_aux F64.prec F64.emax sx (Zpos m * 2 ^ n) e loc_Exact
  = S754_finite sx m (e + n).
Proof.
  intros Hn Hshift Hmax.
  assert (Hpow : 0 < 2 ^ n) by (apply Z.pow_pos_nonneg; lia).
  assert (Hlog : Z.log2 (Zpos m * 2 ^ n) = Z.log2 (Zpos m) + n)
    by (rewrite Z.log2_mul_pow2 by lia; lia).
  unfold binary_round_aux, shr_fexp. rewrite fexp_eq.
  destruct (Zpos m * 2 ^ n) as [|q|q] eqn:Hq; try lia.
  cbn [Zdigits2 shr_record_of_loc]. rewrite digits2_log2, Hshift.
  assert (Hfirst : shr {| shr_m := Zpos q; shr_r := false; shr_s := false |} e n
                   = ({| shr_m := Zpos m; shr_r := false; shr_s := false |}, e + n)).
  { unfold shr. destruct n as [|p|p]; try lia.
    - rewrite Z.add_0_r. f_equal. f_equal. lia.
    - rewrite <- Hq. rewrite shr_exact by lia. reflexivity. }
  rewrite Hfirst. cbn [shr_m loc_of_shr_record round_nearest_even Zdigits2 shr_record_of_loc].
  rewrite fexp_eq, digits2_log2.
  replace (Z.max (Z.log2 (Zpos m) + 1 + (e + n) - 53) (-1074) - (e + n)) with 0 by lia.
  cbn [shr shr_m]. destruct (Z.leb_spec (e + n) (F64.emax - F64.prec)) as [_|H]; [reflexivity|].
  unfold F64.emax, F64.prec in H. lia.
Qed.

(** The number of a positive integer below 2^53. *)
Lemma of_Z_exact z :
  0 < z < 2 ^ 53 ->
  F64.of_Z z = S754_finite false (Z.to_pos (z * 2 ^ (52 - Z.log2 z))) (Z.log2 z - 52).
Proof.
  intros [Hpos Hlt]. destruct z as [|m|m]; try lia.
  assert (Hl : 0 <= Z.log2 (Zpos m) < 53).
  { split; [apply Z.log2_nonneg|]. apply Z.log2_lt_pow2; lia. }
  unfold F64.of_Z. cbn [binary_normalize]. unfold binary_round.
  rewrite fexp_eq, digits2_log2.
  replace (Z.max (Z.log2 (Zpos m) + 1 + 0 - 53) (-1074)) with (Z.log2 (Zpos m) - 52) by lia.
  unfold shl_align. rewrite Z.sub_0_r.
  destruct (Z.log2 (Zpos m) - 52) as [|p|p] eqn:Hd; try lia.
  - replace (52 - Z.log2 (Zpos m)) with 0 by lia.
    rewrite Z.mul_1_r. cbn [Z.to_pos].
    pose proof (binary_round_aux_exact false m 0 0) as H.
    rewrite Z.mul_1_r in H. rewrite H; [reflexivity|lia|lia|lia].
  - replace (52 - Z.log2 (Zpos m)) with (Zpos p) by lia.
    rewrite <- iter_xO_pow. cbn [Z.to_pos].
    pose proof (binary_round_aux_exact false (Pos.iter xO m p) (Zneg p) 0) as H.
    rewrite Z.mul_1_r in H. rewrite H; [f_equal; lia|lia| |lia].
    rewrite iter_xO_pow, Z.log2_mul_pow2 by lia. lia.
Qed.

Lemma log2_scaled z :
  0 < z -> Z.log2 z <= 52 -> Z.log2 (z * 2 ^ (52 - Z.log2 z)) = 52.
Proof. intros Hz Hl. rewrite Z.log2_mul_pow2 by lia. lia. Qed.

Lemma scaled_pos z : 0 < z -> Z.log2 z <= 52 -> 0 < z * 2 ^ (52 - Z.log2 z).
Proof. intros Hz Hl. apply Z.mul_pos_pos; [lia|]. apply Z.pow_pos_nonneg; lia. Qed.

(** The product of two positive integers, when it is below 2^53. *)
Lemma mul_exact a b :
  0 < a -> 0 < b -> a * b < 2 ^ 53 ->
  F64.mul (F64.of_Z a) (F64.of_Z b) = F64.of_Z (a * b).
Proof.
  intros Ha Hb Hab.
  assert (Hab0 : 0 < a * b) by lia.
  assert (Ha53 : a < 2 ^ 53) by nia. assert (Hb53 : b < 2 ^ 53) by nia.
  assert (Hla : 0 <= Z.log2 a <= 52)
    by (split; [apply Z.log2_nonneg|]; assert (Z.log2 a < 53) by (apply Z.log2_lt_pow2; lia); lia).
  assert (Hlb : 0 <= Z.log2 b <= 52)
    by (split; [apply Z.log2_nonneg|]; assert (Z.log2 b < 53) by (apply Z.log2_lt_pow2; lia); lia).
  assert (Hlab : Z.log2 a + Z.log2 b <= Z.log2 (a * b) <= 52).
  { split; [apply Z.log2_mul_below; lia|].
    assert (Z.log2 (a * b) < 53) by (apply Z.log2_lt_pow2; lia). lia. }
  rewrite (of_Z_exact a), (of_Z_exact b), (of_Z_exact (a * b)) by lia.
  unfold F64.mul. cbn [SFmul xorb]. rewrite Pos2Z.inj_mul.
  rewrite !Z2Pos.id by (apply scaled_pos; lia).
  set (n := 52 + Z.log2 (a * b) - Z.log2 a - Z.log2 b).
  replace (a * 2 ^ (52 - Z.log2 a) * (b * 2 ^ (52 - Z.log2 b)))
    with (Zpos (Z.to_pos (a * b * 2 ^ (52 - Z.log2 (a * b)))) * 2 ^ n).
  - rewrite binary_round_aux_exact.
    + f_equal. unfold n. lia.
    + unfold n. lia.
    + rewrite Z2Pos.id by (apply scaled_pos; lia).
      rewrite Z.log2_mul_pow2 by (unfold n; try apply scaled_pos; lia).
      rewrite log2_scaled by lia. unfold n. lia.
    + unfold n. lia.
  - rewrite Z2Pos.id by (apply scaled_pos; lia).
    replace (a * 2 ^ (52 - Z.log2 a) * (b * 2 ^ (52 - Z.log2 b)))
      with (a * b * (2 ^ (52 - Z.log2 a) * 2 ^ (52 - Z.log2 b))) by ring.
    rewrite <- Z.pow_add_r by lia. rewrite <- Z.mul_assoc, <- Z.pow_add_r by (unfold n; lia).
    f_equal. f_equal. unfold n. lia.
Qed.

(** The sum of two positive integers, when it is below 2^53. *)
Lemma add_exact x y :
  0 < x -> 0 < y -> x + y < 2 ^ 53 ->
  F64.add (F64.of_Z x) (F64.of_Z y) = F64.of_Z (x + y).
Proof.
  intros Hx Hy Hxy.
  assert (Hlx : 0 <= Z.log2 x <= 52)
    by (split; [apply Z.log2_nonneg|]; assert (Z.log2 x < 53) by (apply Z.log2_lt_pow2; lia); lia).
  assert (Hly : 0 <= Z.log2 y <= 52)
    by (split; [apply Z.log2_nonneg|]; assert (Z.log2 y < 53) by (apply Z.log2_lt_pow2; lia); lia).
  assert (Hlz : Z.log2 x <= Z.log2 (x + y) <= 52 /\ Z.log2 y <= Z.log2 (x + y)).
  { split; [split|]; try (apply Z.log2_le_mono; lia).
    assert (Z.log2 (x + y) < 53) by (apply Z.log2_lt_pow2; lia). lia. }
  rewrite (of_Z_exact x), (of_Z_exact y), (of_Z_exact (x + y)) by lia.
  unfold F64.add. cbn [SFadd cond_Zopp].
  set (ez := Z.min (Z.log2 x - 52) (Z.log2 y - 52)).
  rewrite !shl_align_fst by (unfold ez; lia).
  rewrite !Z2Pos.id by (apply scaled_pos; lia).
  assert (Hsum : x * 2 ^ (52 - Z.log2 x) * 2 ^ (Z.log2 x - 52 - ez)
                 + y * 2 ^ (52 - Z.log2 y) * 2 ^ (Z.log2 y - 52 - ez)
                 = (x + y) * 2 ^ (- ez)).
  { rewrite <- !Z.mul_assoc, <- !Z.pow_add_r by (unfold ez; lia).
    replace (52 - Z.log2 x + (Z.log2 x - 52 - ez)) with (- ez) by lia.
    replace (52 - Z.log2 y + (Z.log2 y - 52 - ez)) with (- ez) by lia. ring. }
  rewrite Hsum.
  assert (Hpow : 0 < 2 ^ (- ez)) by (apply Z.pow_pos_nonneg; unfold ez; lia).
  destruct ((x + y) * 2 ^ (- ez)) as [|s|s] eqn:Hs; try nia.
  cbn [binary_normalize]. unfold binary_round. rewrite fexp_eq, digits2_log2, <- Hs.
  rewrite Z.log2_mul_pow2 by (unfold ez; lia).
  match goal with
  | |- context [Z.max ?a (-1074)] =>
      replace (Z.max a (-1074)) with (Z.log2 (x + y) - 52) by lia
  end.
  unfold shl_align.
  set (n := Z.log2 (x + y) - 52 - ez).
  destruct n as [|p|p] eqn:Hn; try (unfold ez in *; lia); cbn [fst snd].
  - replace (Zpos s) with (Zpos (Z.to_pos ((x + y) * 2 ^ (52 - Z.log2 (x + y)))) * 2 ^ 0).
    + rewrite binary_round_aux_exact.
      * f_equal. lia.
      * lia.
      * rewrite Z.mul_1_r, Z2Pos.id, log2_scaled by (try apply scaled_pos; lia). lia.
      * lia.
    + rewrite Z2Pos.id by (apply scaled_pos; lia). rewrite <- Hs. rewrite Z.mul_1_r.
      f_equal. f_equal. lia.
  - replace (Zpos s) with (Zpos (Z.to_pos ((x + y) * 2 ^ (52 - Z.log2 (x + y)))) * 2 ^ Zpos p).
    + rewrite binary_round_aux_exact.
      * f_equal. lia.
      * lia.
      * rewrite Z2Pos.id by (apply scaled_pos; lia).
        rewrite Z.log2_mul_pow2 by (try apply scaled_pos; lia).
        rewrite log2_scaled by lia. lia.
      * lia.
    + rewrite Z2Pos.id by (apply scaled_pos; lia). rewrite <- Hs.
      rewrite <- Z.mul_assoc, <- Z.pow_add_r by lia. f_equal. f_equal. lia.
Qed.

(** For integers that are not negative. *)
Lemma mul_exact_nonneg a b :
  0 <= a -> 0 < b < 2 ^ 53 -> a * b < 2 ^ 53 ->
  F64.mul (F64.of_Z a) (F64.of_Z b) = F64.of_Z (a * b).
Proof.
  intros Ha Hb Hab. destruct (Z.eq_dec a 0) as [->|Hne]; [|apply mul_exact; lia].
  rewrite (of_Z_exact b) by lia. reflexivity.
Qed.

Lemma add_exact_nonneg x y :
  0 <= x -> 0 <= y -> x + y < 2 ^ 53 ->
  F64.add (F64.of_Z x) (F64.of_Z y) = F64.of_Z (x + y).
Proof.
  intros Hx Hy Hxy.
  destruct (Z.eq_dec x 0) as [->|Hx0], (Z.eq_dec y 0) as [->|Hy0].
  - reflexivity.
  - rewrite Z.add_0_l, (of_Z_exact y) by lia. reflexivity.
  - rewrite Z.add_0_r, (of_Z_exact x) by lia. reflexivity.
  - apply add_exact; lia.
Qed.

End ExactFacts.

(** ** Strings and the two parsers *)

Module StrFacts.
Import Str.

Lemma includes_app s t c : includes (s ++ t) c = includes s c || includes t c.
Proof. unfold includes. apply existsb_app. Qed.

Lemma includes_cons x s c : includes (x :: s) c = (c =? x)%N || includes s c.
Proof. reflexivity. Qed.

Lemma replaceAll_app s t c r :
  replaceAll (s ++ t) c r = replaceAll s c r ++ replaceAll t c r.
Proof.
  induction s as [|x s IH]; simpl; [reflexivity|].
  rewrite IH. destruct (x =? c)%N; [rewrite app_assoc|]; reflexivity.
Qed.

Lemma includes_replaceAll s c d :
  d <> c -> includes (replaceAll s c []) d = includes s d.
Proof.
  intros Hd. induction s as [|x s IH]; simpl; [reflexivity|].
  destruct (N.eqb_spec x c) as [->|Hx]; simpl; rewrite IH.
  - destruct (N.eqb_spec d c); [contradiction|reflexivity].
  - reflexivity.
Qed.

Lemma split_go_without c cur s :
  includes s c = false -> split_go c cur s = [reverse cur ++ s].
Proof.
  revert cur. induction s as [|x s IH]; intros cur H; simpl.
  - rewrite app_nil_r. reflexivity.
  - rewrite includes_cons in H. apply orb_false_iff in H as [Hx Hs].
    rewrite N.eqb_sym, Hx. rewrite IH by assumption.
    rewrite reverse_cons, <- app_assoc. reflexivity.
Qed.

Lemma split_go_at c cur a rest :
  includes a c = false ->
  split_go c cur (a ++ c :: rest) = (reverse cur ++ a) :: split_go c [] rest.
Proof.
  revert cur. induction a as [|x a IH]; intros cur H; simpl.
  - rewrite N.eqb_refl, app_nil_r. reflexivity.
  - rewrite includes_cons in H. apply orb_false_iff in H as [Hx Hs].
    rewrite N.eqb_sym, Hx. rewrite IH by assumption.
    rewrite reverse_cons, <- app_assoc. reflexivity.
Qed.

Lemma split_without s c : includes s c = false -> split s c = [s].
Proof. intros H. unfold split. rewrite split_go_without by assumption. reflexivity. Qed.

Lemma split_at a rest c :
  includes a c = false -> split (a ++ c :: rest) c = a :: split rest c.
Proof. intros H. unfold split. rewrite split_go_at by assumption. reflexivity. Qed.

Lemma split_not_nil s c : split s c <> [].
Proof.
  unfold split. generalize (@nil codeunit). induction s as [|x s IH]; intros cur; simpl.
  - discriminate.
  - destruct (x =? c)%N; [discriminate|apply IH].
Qed.

Lemma replace_at a rest c :
  includes a c = false -> replace (a ++ c :: rest) c [] = a ++ rest.
Proof.
  induction a as [|x a IH]; intros H; simpl.
  - rewrite N.eqb_refl. reflexivity.
  - rewrite includes_cons in H. apply orb_false_iff in H as [Hx Hs].
    rewrite N.eqb_sym, Hx. rewrite IH by assumption. reflexivity.
Qed.

Lemma allDigits_excludes s c :
  isDigit c = false -> allDigits s = true -> includes s c = false.
Proof.
  intros Hc. induction s as [|x s IH]; simpl; [reflexivity|].
  intros H. apply andb_true_iff in H as [Hx Hs]. rewrite IH by assumption.
  destruct (N.eqb_spec c x); [subst; congruence|reflexivity].
Qed.

Lemma digitsPrefix_all s : allDigits s = true -> digitsPrefix s = s.
Proof.
  induction s as [|x s IH]; simpl; [reflexivity|].
  intros H. apply andb_true_iff in H as [Hx Hs]. rewrite Hx, IH by assumption. reflexivity.
Qed.

Lemma digit_not_space x : isDigit x = true -> isWhiteSpace x = false.
Proof.
  unfold isDigit, isWhiteSpace. intros H. apply andb_true_iff in H as [H1 H2].
  apply N.leb_le in H1, H2.
  repeat match goal with
  | |- context [(x =? ?k)%N] => destruct (N.eqb_spec x k); [lia|]
  end.
  destruct (N.leb_spec 8192 x); [lia|]. reflexivity.
Qed.

End StrFacts.

Module ParseFacts.
Import Str Parse StrFacts NumberFacts.

Lemma leadingInteger_digits ds :
  allDigits ds = true -> ds <> [] -> leadingInteger ds = Some (false, digitsValue ds).
Proof.
  intros Hall Hne. destruct ds as [|x ds]; [contradiction|].
  pose proof Hall as Hall'. cbn [allDigits forallb] in Hall.
  apply andb_true_iff in Hall as [Hx Hds].
  unfold leadingInteger. cbn [trimStart]. rewrite (digit_not_space x Hx).
  assert (Hsign : sign (x :: ds) = (false, x :: ds)).
  { unfold sign, minus, plus. unfold isDigit in Hx. apply andb_true_iff in Hx as [H1 H2].
    apply N.leb_le in H1, H2.
    destruct (N.eqb_spec x 45); [lia|]. destruct (N.eqb_spec x 43); [lia|]. reflexivity. }
  rewrite Hsign. rewrite digitsPrefix_all by assumption. reflexivity.
Qed.

Lemma parseInt_digits ds :
  allDigits ds = true -> ds <> [] -> parseInt ds = F64.of_Z (digitsValue ds).
Proof.
  intros Hall Hne. unfold parseInt. rewrite leadingInteger_digits by assumption. reflexivity.
Qed.

Lemma parseInt_none s : integerValue s = None -> parseInt s = F64.NaN.
Proof.
  unfold integerValue, parseInt. destruct (leadingInteger s) as [[neg v]|]; [discriminate|reflexivity].
Qed.

Lemma binary_normalize_not_NaN d e sz :
  (-1074 <= e)%Z -> F64.isNaN (binary_normalize F64.prec F64.emax d e sz) = false.
Proof.
  intros He. destruct d as [|m|m]; simpl binary_normalize; [reflexivity| |].
  - pose proof (binary_round_signed false m e He) as H.
    destruct (binary_round _ _ _ _ _); simpl in *; try reflexivity; contradiction.
  - pose proof (binary_round_signed true m e He) as H.
    destruct (binary_round _ _ _ _ _); simpl in *; try reflexivity; contradiction.
Qed.

Lemma parseInt_some s z :
  integerValue s = Some z ->
  F64.isNaN (parseInt s) = false /\ F64.gtb (parseInt s) F64.zero = (0 <? z)%Z.
Proof.
  unfold integerValue, parseInt. destruct (leadingInteger s) as [[neg v]|]; [|discriminate].
  intros [= <-]. split.
  - apply binary_normalize_not_NaN. lia.
  - unfold F64.gtb, F64.zero. apply binary_normalize_gt0. lia.
Qed.

Lemma digitsValue_from acc ds :
  (0 <= acc)%Z -> allDigits ds = true ->
  (0 <= fold_left (fun acc d => (10 * acc + (Z.of_N d - 48))%Z) ds acc)%Z.
Proof.
  revert acc. induction ds as [|d ds IH]; intros acc Hacc Hall; cbn [fold_left].
  - exact Hacc.
  - cbn [allDigits forallb] in Hall. apply andb_true_iff in Hall as [Hd Hds].
    apply IH; [|exact Hds]. unfold isDigit in Hd. apply andb_true_iff in Hd as [H1 _].
    apply N.leb_le in H1. lia.
Qed.

Lemma digitsValue_nonneg ds : allDigits ds = true -> (0 <= digitsValue ds)%Z.
Proof. apply digitsValue_from. lia. Qed.

Lemma add_NaN_r x : F64.add x F64.NaN = F64.NaN.
Proof. destruct x; reflexivity. Qed.

Lemma mul_NaN_l y : F64.mul F64.NaN y = F64.NaN.
Proof. destruct y; reflexivity. Qed.

Lemma add_NaN_l y : F64.add F64.NaN y = F64.NaN.
Proof. destruct y; reflexivity. Qed.

End ParseFacts.

Module MarketCapFacts.
Import Str Parse StrFacts ParseFacts.

Lemma grouped_ungroup s :
  grouped s = true -> allDigits (ungroup s) = true /\ ungroup s <> [].
Proof.
  unfold grouped. intros H. apply andb_true_iff in H as [Hall Hne]. split.
  - clear Hne. unfold ungroup. induction s as [|x s IH]; [reflexivity|].
    cbn [forallb] in Hall. apply andb_true_iff in Hall as [Hx Hs].
    cbn [replaceAll]. unfold comma in *. destruct (x =? 44)%N; simpl.
    + apply IH, Hs.
    + rewrite orb_false_r in Hx. rewrite Hx. apply IH, Hs.
  - apply negb_true_iff, bool_decide_eq_false in Hne. exact Hne.
Qed.

Lemma ungroup_app s t : ungroup (s ++ t) = ungroup s ++ ungroup t.
Proof. apply replaceAll_app. Qed.

Lemma ungroup_nil_inv s : s <> [] -> ungroup s = [] -> includes s jo = false /\ includes s eok = false.
Proof.
  intros _ H. rewrite <- (includes_replaceAll s comma jo) by discriminate.
  rewrite <- (includes_replaceAll s comma eok) by discriminate.
  unfold ungroup in H. rewrite H. split; reflexivity.
Qed.

(** The body of the function on a string that is not empty. *)
Lemma parseMarketCap_unfold s :
  s <> [] ->
  parseMarketCapToBillions (VString s) =
  let str := ungroup s in
  if includes str jo then
    let parts := split str jo in
    let totalBillions :=
      F64.add F64.zero (F64.mul (parseInt (nth 0 parts [])) (F64.of_Z 10000)) in
    match nth_error parts 1 with
    | Some ((_ :: _) as p1) =>
        if includes p1 eok then F64.add totalBillions (parseInt (replace p1 eok []))
        else totalBillions
    | _ => totalBillions
    end
  else if includes str eok then F64.add F64.zero (parseInt (replace str eok []))
  else F64.zero.
Proof. destruct s; [contradiction|reflexivity]. Qed.

Lemma neither_unit s :
  includes s jo = false -> includes s eok = false ->
  parseMarketCapToBillions (VString s) = F64.zero.
Proof.
  intros Hj He. destruct s as [|x s]; [reflexivity|].
  rewrite parseMarketCap_unfold by discriminate. cbv zeta.
  unfold ungroup. rewrite !includes_replaceAll by discriminate. rewrite Hj, He. reflexivity.
Qed.

Lemma digits_no_unit ds : allDigits ds = true -> includes ds jo = false /\ includes ds eok = false.
Proof. intros H. split; apply allDigits_excludes; auto. Qed.

(** The large part: what is in front of the first large unit. *)
Lemma large_part a rest :
  includes a jo = false ->
  parseMarketCapToBillions (VString (a ++ jo :: rest)) =
  let totalBillions :=
    F64.add F64.zero (F64.mul (parseInt (ungroup a)) (F64.of_Z 10000)) in
  match split (ungroup rest) jo with
  | ((_ :: _) as p1) :: _ =>
      if includes p1 eok then F64.add totalBillions (parseInt (replace p1 eok []))
      else totalBillions
  | _ => totalBillions
  end.
Proof.
  intros Ha. rewrite parseMarketCap_unfold by (destruct a; discriminate). cbv zeta.
  rewrite ungroup_app. change (ungroup (jo :: rest)) with (jo :: ungroup rest).
  assert (Ha' : includes (ungroup a) jo = false)
    by (unfold ungroup; rewrite includes_replaceAll by discriminate; exact Ha).
  rewrite includes_app, includes_cons, N.eqb_refl, orb_true_r.
  rewrite split_at by assumption. cbn [nth nth_error].
  pose proof (split_not_nil (ungroup rest) jo).
  destruct (split (ungroup rest) jo) as [|p1 ps]; [contradiction|]. reflexivity.
Qed.

Lemma combined_form a b :
  grouped a = true -> grouped b = true ->
  parseMarketCapToBillions (VString (a ++ [jo] ++ b ++ [eok])) =
  F64.add (F64.add F64.zero (F64.mul (F64.of_Z (groupedValue a)) (F64.of_Z 10000)))
          (F64.of_Z (groupedValue b)).
Proof.
  intros Ha Hb.
  destruct (grouped_ungroup a Ha) as [Hda Hna], (grouped_ungroup b Hb) as [Hdb Hnb].
  destruct (digits_no_unit _ Hda) as [Haj _], (digits_no_unit _ Hdb) as [Hbj Hbe].
  cbn [app]. rewrite large_part
    by (rewrite <- (includes_replaceAll a comma jo) by discriminate; exact Haj).
  cbv zeta. rewrite ungroup_app. change (ungroup [eok]) with [eok].
  rewrite split_without by (rewrite includes_app, Hbj; reflexivity).
  rewrite includes_app, Hbe. cbn [includes existsb N.eqb orb Pos.eqb].
  rewrite replace_at by assumption. rewrite app_nil_r.
  rewrite !parseInt_digits by assumption.
  destruct (ungroup b) as [|y b'] eqn:E; [contradiction|]. cbn [app].
  unfold groupedValue. rewrite E. reflexivity.
Qed.

Lemma large_only a :
  grouped a = true ->
  parseMarketCapToBillions (VString (a ++ [jo])) =
  F64.add F64.zero (F64.mul (F64.of_Z (groupedValue a)) (F64.of_Z 10000)).
Proof.
  intros Ha. destruct (grouped_ungroup a Ha) as [Hda Hna].
  destruct (digits_no_unit _ Hda) as [Haj _].
  rewrite large_part
    by (rewrite <- (includes_replaceAll a comma jo) by discriminate; exact Haj).
  cbv zeta. rewrite parseInt_digits by assumption. reflexivity.
Qed.

Lemma small_part b :
  includes b jo = false -> includes b eok = false ->
  parseMarketCapToBillions (VString (b ++ [eok])) = F64.add F64.zero (parseInt (ungroup b)).
Proof.
  intros Hj He. rewrite parseMarketCap_unfold by (destruct b; discriminate). cbv zeta.
  rewrite ungroup_app. change (ungroup [eok]) with [eok].
  assert (Hj' : includes (ungroup b) jo = false)
    by (unfold ungroup; rewrite includes_replaceAll by discriminate; exact Hj).
  assert (He' : includes (ungroup b) eok = false)
    by (unfold ungroup; rewrite includes_replaceAll by discriminate; exact He).
  rewrite !includes_app, Hj', He'. cbn [includes existsb N.eqb orb Pos.eqb].
  rewrite replace_at by assumption. rewrite app_nil_r. reflexivity.
Qed.

Lemma small_only b :
  grouped b = true ->
  parseMarketCapToBillions (VString (b ++ [eok])) = F64.add F64.zero (F64.of_Z (groupedValue b)).
Proof.
  intros Hb. destruct (grouped_ungroup b Hb) as [Hdb Hnb].
  destruct (digits_no_unit _ Hdb) as [Hbj Hbe].
  rewrite small_part.
  - rewrite parseInt_digits by assumption. reflexivity.
  - rewrite <- (includes_replaceAll b comma jo) by discriminate; exact Hbj.
  - rewrite <- (includes_replaceAll b comma eok) by discriminate; exact Hbe.
Qed.

Lemma large_unparseable a rest :
  includes a jo = false -> integerValue (ungroup a) = None ->
  parseMarketCapToBillions (VString (a ++ jo :: rest)) = F64.NaN.
Proof.
  intros Ha Hn. rewrite large_part by assumption. cbv zeta.
  rewrite (parseInt_none _ Hn), mul_NaN_l, add_NaN_r.
  destruct (split (ungroup rest) jo) as [|[|y p1] ps]; try reflexivity.
  destruct (includes (y :: p1) eok); [apply add_NaN_l|reflexivity].
Qed.

Lemma small_unparseable_combined a b :
  includes a jo = false -> includes b jo = false -> includes b eok = false ->
  integerValue (ungroup b) = None ->
  parseMarketCapToBillions (VString (a ++ [jo] ++ b ++ [eok])) = F64.NaN.
Proof.
  intros Ha Hj He Hn. cbn [app]. rewrite large_part by assumption. cbv zeta.
  rewrite ungroup_app. change (ungroup [eok]) with [eok].
  assert (Hj' : includes (ungroup b) jo = false)
    by (unfold ungroup; rewrite includes_replaceAll by discriminate; exact Hj).
  assert (He' : includes (ungroup b) eok = false)
    by (unfold ungroup; rewrite includes_replaceAll by discriminate; exact He).
  rewrite split_without by (rewrite includes_app, Hj'; reflexivity).
  rewrite includes_app, He'. cbn [includes existsb N.eqb orb Pos.eqb].
  rewrite replace_at by assumption. rewrite app_nil_r.
  rewrite (parseInt_none _ Hn).
  destruct (ungroup b ++ [eok]) as [|y p] eqn:E.
  - destruct (ungroup b); discriminate.
  - apply add_NaN_r.
Qed.

Lemma small_unparseable b :
  includes b jo = false -> includes b eok = false ->
  integerValue (ungroup b) = None ->
  parseMarketCapToBillions (VString (b ++ [eok])) = F64.NaN.
Proof.
  intros Hj He Hn. rewrite small_part by assumption.
  rewrite (parseInt_none _ Hn). apply add_NaN_r.
Qed.

(** Below 2^53 the three forms are the integer itself. *)
Lemma grouped_nonneg a : grouped a = true -> (0 <= groupedValue a)%Z.
Proof.
  intros Ha. destruct (grouped_ungroup a Ha) as [Hd _].
  apply digitsValue_nonneg, Hd.
Qed.

Lemma combined_exact a b :
  grouped a = true -> grouped b = true ->
  (groupedValue a * 10000 + groupedValue b < 2 ^ 53)%Z ->
  parseMarketCapToBillions (VString (a ++ [jo] ++ b ++ [eok]))
  = F64.of_Z (groupedValue a * 10000 + groupedValue b).
Proof.
  intros Ha Hb Hlt. pose proof (grouped_nonneg a Ha). pose proof (grouped_nonneg b Hb).
  rewrite combined_form by assumption.
  rewrite ExactFacts.mul_exact_nonneg by lia.
  change F64.zero with (F64.of_Z 0).
  rewrite (ExactFacts.add_exact_nonneg 0) by lia.
  rewrite ExactFacts.add_exact_nonneg by lia. reflexivity.
Qed.

Lemma large_exact a :
  grouped a = true -> (groupedValue a * 10000 < 2 ^ 53)%Z ->
  parseMarketCapToBillions (VString (a ++ [jo])) = F64.of_Z (groupedValue a * 10000).
Proof.
  intros Ha Hlt. pose proof (grouped_nonneg a Ha).
  rewrite large_only by assumption.
  rewrite ExactFacts.mul_exact_nonneg by lia.
  change F64.zero with (F64.of_Z 0).
  rewrite (ExactFacts.add_exact_nonneg 0) by lia. reflexivity.
Qed.

Lemma small_exact b :
  grouped b = true -> (groupedValue b < 2 ^ 53)%Z ->
  parseMarketCapToBillions (VString (b ++ [eok])) = F64.of_Z (groupedValue b).
Proof.
  intros Hb Hlt. pose proof (grouped_nonneg b Hb).
  rewrite small_only by assumption.
  change F64.zero with (F64.of_Z 0).
  rewrite (ExactFacts.add_exact_nonneg 0) by lia. reflexivity.
Qed.

End MarketCapFacts.

(** ** The market capitalisation *)

(** C4 (as amended). [parseMarketCapToBillions] is a total function into
    the numbers, so it raises nothing. A value that is not a string, the
    empty string and a string without either unit give 0. With digits and
    separators in front of the units, the combined, the large-only and the
    small-only forms give the large part times 10000 plus the small part:
    in the arithmetic of numbers always, and as that very integer when it
    is below 2^53; "2조4674억" gives 24674. A part that [parseInt] cannot
    read does not count as zero: the result is NaN. *)
Theorem C4_market_cap_parser :
  (forall v, (forall s, v <> VString s) -> parseMarketCapToBillions v = F64.zero)
  /\ parseMarketCapToBillions (VString []) = F64.zero
  /\ (forall s, Str.includes s jo = false -> Str.includes s eok = false ->
        parseMarketCapToBillions (VString s) = F64.zero)
  /\ (forall a b, grouped a = true -> grouped b = true ->
        parseMarketCapToBillions (VString (a ++ [jo] ++ b ++ [eok])) =
        F64.add (F64.add F64.zero (F64.mul (F64.of_Z (groupedValue a)) (F64.of_Z 10000)))
                (F64.of_Z (groupedValue b))
        /\ ((groupedValue a * 10000 + groupedValue b < 2 ^ 53)%Z ->
            parseMarketCapToBillions (VString (a ++ [jo] ++ b ++ [eok])) =
            F64.of_Z (groupedValue a * 10000 + groupedValue b)))
  /\ (forall a, grouped a = true ->
        parseMarketCapToBillions (VString (a ++ [jo])) =
        F64.add F64.zero (F64.mul (F64.of_Z (groupedValue a)) (F64.of_Z 10000))
        /\ ((groupedValue a * 10000 < 2 ^ 53)%Z ->
            parseMarketCapToBillions (VString (a ++ [jo])) =
            F64.of_Z (groupedValue a * 10000)))
  /\ (forall b, grouped b = true ->
        parseMarketCapToBillions (VString (b ++ [eok])) =
        F64.add F64.zero (F64.of_Z (groupedValue b))
        /\ ((groupedValue b < 2 ^ 53)%Z ->
            parseMarketCapToBillions (VString (b ++ [eok])) = F64.of_Z (groupedValue b)))
  /\ parseMarketCapToBillions (VString (utf16 "2조4674억")) = F64.of_Z 24674
  /\ (forall a rest, Str.includes a jo = false ->
        Parse.integerValue (ungroup a) = None ->
        parseMarketCapToBillions (VString (a ++ jo :: rest)) = F64.NaN)
  /\ (forall a b, Str.includes a jo = false ->
        Str.includes b jo = false -> Str.includes b eok = false ->
        Parse.integerValue (ungroup b) = None ->
        parseMarketCapToBillions (VString (a ++ [jo] ++ b ++ [eok])) = F64.NaN)
  /\ (forall b, Str.includes b jo = false -> Str.includes b eok = false ->
        Parse.integerValue (ungroup b) = None ->
        parseMarketCapToBillions (VString (b ++ [eok])) = F64.NaN).
Proof.
  split; [|split; [|split; [|split; [|split; [|split; [|split; [|split; [|split]]]]]]]].
  - intros v Hv. destruct v; try reflexivity. destruct (Hv s eq_refl).
  - reflexivity.
  - apply MarketCapFacts.neither_unit.
  - intros a b Ha Hb. split; [apply MarketCapFacts.combined_form; assumption|].
    apply MarketCapFacts.combined_exact; assumption.
  - intros a Ha. split; [apply MarketCapFacts.large_only; assumption|].
    apply MarketCapFacts.large_exact; assumption.
  - intros b Hb. split; [apply MarketCapFacts.small_only; assumption|].
    apply MarketCapFacts.small_exact; assumption.
  - reflexivity.
  - apply MarketCapFacts.large_unparseable.
  - apply MarketCapFacts.small_unparseable_combined.
  - apply MarketCapFacts.small_unparseable.
Qed.

Lemma C4_market_cap_parser_witness :
  grouped (utf16 "1,234") = true /\ grouped (utf16 "5,678") = true
  /\ (groupedValue (utf16 "1,234") * 10000 + groupedValue (utf16 "5,678") < 2 ^ 53)%Z
  /\ parseMarketCapToBillions (VString (utf16 "1,234조5,678억")) = F64.of_Z 12345678.
Proof.
  split; [reflexivity|]. split; [reflexivity|]. split; [reflexivity|].
  exact (proj2 (proj1 (proj2 (proj2 (proj2 C4_market_cap_parser)))
                  (utf16 "1,234") (utf16 "5,678") eq_refl eq_refl) eq_refl).
Defined.

(** C4 as stated fails: with nothing readable in front of the large unit,
    counting that part as zero would give 5, and the function gives NaN. *)
Lemma C4_unparseable_fragment_is_not_zero :
  parseMarketCapToBillions (VString (utf16 "조5억")) = F64.NaN
  /\ parseMarketCapToBillions (VString (utf16 "조5억")) <>
     F64.add (F64.add F64.zero (F64.mul F64.zero (F64.of_Z 10000))) (F64.of_Z 5).
Proof. split; [reflexivity|]. vm_compute. discriminate. Qed.

(** ** The price analysis *)

Module AnalysisFacts.
Import NumberFacts ParseFacts.

Lemma parseInt_of_Z s z :
  Parse.integerValue s = Some z -> z <> 0%Z -> Parse.parseInt s = F64.of_Z z.
Proof.
  unfold Parse.integerValue, Parse.parseInt.
  destruct (Parse.leadingInteger s) as [[neg v]|]; [|discriminate].
  intros [= <-] Hz. unfold F64.of_Z.
  destruct (if neg then (- v)%Z else v); [contradiction| |]; reflexivity.
Qed.

Lemma parseInt_zero s :
  Parse.integerValue s = Some 0%Z -> exists sz, Parse.parseInt s = S754_zero sz.
Proof.
  unfold Parse.integerValue, Parse.parseInt.
  destruct (Parse.leadingInteger s) as [[neg v]|]; [|discriminate].
  intros [= H]. rewrite H. exists neg. reflexivity.
Qed.

Lemma of_Z_positive z : (0 < z)%Z -> signed false (F64.of_Z z).
Proof.
  intros H. destruct z as [|p|p]; try lia. apply binary_round_signed. lia.
Qed.

(** The gap computed from the two strings is the gap of the two integers. *)
Lemma gapOf_integers cs ts zc zt :
  Parse.integerValue cs = Some zc -> Parse.integerValue ts = Some zt -> (0 < zt)%Z ->
  gapOf (Parse.parseInt cs) (Parse.parseInt ts) = gapOf (F64.of_Z zc) (F64.of_Z zt).
Proof.
  intros Hc Ht Hpos. rewrite (parseInt_of_Z ts zt Ht) by lia.
  destruct (Z.eq_dec zc 0%Z) as [->|Hne].
  - destruct (parseInt_zero cs Hc) as [sz ->]. unfold gapOf. f_equal. f_equal.
    pose proof (of_Z_positive zt Hpos) as Hs.
    destruct (F64.of_Z zt) as [| | |]; simpl in Hs; try contradiction; reflexivity.
  - rewrite (parseInt_of_Z cs zc Hc) by assumption. reflexivity.
Qed.

Lemma geb_NaN_r x : F64.geb x F64.NaN = false.
Proof. reflexivity. Qed.


Lemma analysis_integers e code stockData zc zt :
  Parse.integerValue (ungroup (currentPrice stockData)) = Some zc ->
  Parse.integerValue (ungroup (targetPrice stockData)) = Some zt ->
  (0 < zt)%Z ->
  analysis e code stockData =
  if F64.geb (gapOf (F64.of_Z zc) (F64.of_Z zt)) (gapPercentage e)
     && F64.geb (parseMarketCapToBillions (VString (marketCap stockData))) (minMarketCap e)
  then Some {| code := code; data := stockData; gap := gapOf (F64.of_Z zc) (F64.of_Z zt) |}
  else None.
Proof.
  intros Hc Ht Hpos. unfold analysis, priceOf.
  rewrite (gapOf_integers _ _ _ _ Hc Ht Hpos).
  destruct (parseInt_some _ _ Hc) as [Hnc _]. destruct (parseInt_some _ _ Ht) as [Hnt Hgt].
  rewrite Hnc, Hnt, Hgt. destruct (Z.ltb_spec 0 zt); [|lia]. cbn [negb andb].
  destruct (F64.isNaN (gapPercentage e)) eqn:Hnan; cbn [negb]; [|reflexivity].
  destruct (gapPercentage e); try discriminate. reflexivity.
Qed.


(** A stock without a target price is never a candidate. *)
Lemma analysis_no_target e code stockData :
  targetPrice stockData = noTargetPrice -> analysis e code stockData = None.
Proof.
  intros Ht. unfold analysis. rewrite Ht.
  change (priceOf noTargetPrice) with F64.NaN. cbn [F64.isNaN negb andb].
  rewrite andb_false_r. destruct (negb _); reflexivity.
Qed.

End AnalysisFacts.

(** ** Numbers: the operations return binary64 values *)

Module ValidFacts.
Import NumberFacts ExactFacts.
Local Open Scope Z_scope.

Lemma Zdigits2_log2 m : 0 < m -> Zdigits2 m = Z.log2 m + 1.
Proof. intros H. destruct m as [|p|p]; try lia. apply digits2_log2. Qed.

Lemma Zdigits2_nonneg m : 0 <= Zdigits2 m.
Proof. destruct m; cbn; lia. Qed.

Lemma Zdigits2_mono a b : 0 <= a <= b -> Zdigits2 a <= Zdigits2 b.
Proof.
  intros [Ha Hab]. destruct (Z.eq_dec a 0) as [->|Hne]; [apply Zdigits2_nonneg|].
  rewrite !Zdigits2_log2 by lia. pose proof (Z.log2_le_mono a b Hab). lia.
Qed.

Lemma canonical_iff m e :
  canonical_mantissa F64.prec F64.emax m e = true
  <-> Z.max (Z.log2 (Zpos m) + 1 + e - 53) (-1074) = e.
Proof.
  unfold canonical_mantissa. rewrite fexp_eq, digits2_log2. apply Z.eqb_eq.
Qed.

(** The outcome of [shr_fexp] on a mantissa that is not negative. *)
Lemma shr_fexp_value m e l :
  0 <= m ->
  let n := Z.max (Zdigits2 m + e - 53) (-1074) - e in
  shr_m (fst (shr_fexp F64.prec F64.emax m e l)) = (if 0 <? n then m / 2 ^ n else m)
  /\ snd (shr_fexp F64.prec F64.emax m e l) = (if 0 <? n then e + n else e).
Proof.
  intros Hm n. unfold shr_fexp, shr. rewrite fexp_eq. fold n.
  destruct n as [|p|p]; cbn [fst snd Z.ltb Z.compare]; rewrite ?shr_record_of_loc_m; auto.
  rewrite shr_iter_m by (rewrite shr_record_of_loc_m; exact Hm).
  rewrite shr_record_of_loc_m. auto.
Qed.

Lemma round_nearest_even_bounds m l :
  m <= round_nearest_even m l <= m + 1.
Proof. destruct l as [|[]]; cbn; try lia. destruct (Z.even m); lia. Qed.

Lemma log2_div_pow2 m n : 0 < m -> 0 <= n -> Z.log2 (m / 2 ^ n) = Z.max 0 (Z.log2 m - n).
Proof. intros Hm Hn. rewrite <- Z.shiftr_div_pow2 by lia. apply Z.log2_shiftr, Hm. Qed.

(** A mantissa with at least the digits its exponent asks for is rounded
    to a binary64 value. *)
Lemma binary_round_aux_valid sx m e l :
  0 <= m -> e <= Z.max (Zdigits2 m + e - 53) (-1074) ->
  F64.valid (binary_round_aux F64.prec F64.emax sx m e l) = true.
Proof.
  intros Hm Hpre. unfold binary_round_aux.
  destruct (shr_fexp_value m e l Hm) as [Hm1 He1]. cbv zeta in Hm1, He1.
  destruct (shr_fexp F64.prec F64.emax m e l) as [mrs1 e1]. cbn [fst snd] in Hm1, He1.
  set (n := Z.max (Zdigits2 m + e - 53) (-1074) - e) in *.
  assert (Hn : 0 <= n) by (unfold n; lia).
  assert (He1' : e1 = e + n) by (rewrite He1; destruct (Z.ltb_spec 0 n); lia).
  assert (Hm1' : shr_m mrs1 = m / 2 ^ n).
  { rewrite Hm1. destruct (Z.ltb_spec 0 n); [reflexivity|].
    replace n with 0 by lia. rewrite Z.pow_0_r, Z.div_1_r. reflexivity. }
  clear Hm1 He1.
  assert (Hpow : 0 < 2 ^ n) by (apply Z.pow_pos_nonneg; lia).
  assert (Hm1pos : 0 <= shr_m mrs1) by (rewrite Hm1'; apply Z.div_pos; lia).
  pose proof (round_nearest_even_bounds (shr_m mrs1) (loc_of_shr_record mrs1)) as Hr.
  set (m2 := round_nearest_even (shr_m mrs1) (loc_of_shr_record mrs1)) in *.
  assert (Hm2 : 0 <= m2) by lia.
  destruct (shr_fexp_value m2 e1 loc_Exact Hm2) as [Hm3 He3]. cbv zeta in Hm3, He3.
  destruct (shr_fexp F64.prec F64.emax m2 e1 loc_Exact) as [mrs3 e3]. cbn [fst snd] in Hm3, He3.
  set (n2 := Z.max (Zdigits2 m2 + e1 - 53) (-1074) - e1) in *.
  destruct (shr_m mrs3) as [|m3|m3] eqn:Em3; try reflexivity.
  destruct (Z.leb_spec e3 (F64.emax - F64.prec)) as [Hle|Hgt]; [|reflexivity].
  unfold F64.valid. cbn [valid_binary]. unfold bounded.
  apply andb_true_iff. split; [|apply Z.leb_le, Hle].
  apply canonical_iff.
  (* the second shift does not go down *)
  assert (Hm2pos : 0 < m2).
  { destruct (Z.eq_dec m2 0) as [E|]; [|lia]. rewrite E in Hm3.
    destruct (Z.ltb_spec 0 n2);
      [rewrite Z.div_0_l in Hm3 by (apply Z.pow_nonzero; lia)|]; lia. }
  assert (Hn2 : 0 <= n2).
  { unfold n2. destruct (Z.eq_dec e1 (-1074)) as [->|Hne]; [lia|].
    assert (He1n : e1 = Zdigits2 m + e - 53) by (unfold n in He1'; lia).
    assert (Hmpos : 0 < m).
    { destruct (Z.eq_dec m 0) as [E|]; [|lia]. rewrite E in *. cbn in He1n. unfold n in *.
      cbn in *. lia. }
    rewrite Zdigits2_log2 in He1n by lia.
    assert (Hn53 : n = Z.log2 m + 1 - 53) by lia.
    assert (Hl1 : Z.log2 (shr_m mrs1) = 52).
    { rewrite Hm1', log2_div_pow2 by lia. lia. }
    assert (H1pos : 0 < shr_m mrs1).
    { destruct (Z.eq_dec (shr_m mrs1) 0) as [E|]; [rewrite E in Hl1; cbn in Hl1; lia|lia]. }
    pose proof (Z.log2_le_mono (shr_m mrs1) m2 ltac:(lia)).
    rewrite Zdigits2_log2 by lia. lia. }
  assert (Hlog3 : Z.log2 (Zpos m3) = Z.log2 m2 - (if 0 <? n2 then n2 else 0)).
  { rewrite Hm3. destruct (Z.ltb_spec 0 n2); [|lia].
    rewrite log2_div_pow2 by lia.
    assert (Z.log2 m2 - n2 >= 0); [|lia].
    unfold n2. rewrite Zdigits2_log2 by lia.
    assert (-1074 <= e1) by (unfold n in He1'; lia).
    pose proof (Z.log2_nonneg m2). lia. }
  rewrite Hlog3, He3.
  unfold n2 in *. rewrite Zdigits2_log2 in * by lia.
  destruct (Z.ltb_spec 0 (Z.max (Z.log2 m2 + 1 + e1 - 53) (-1074) - e1)); lia.
Qed.

Lemma binary_round_valid sx m e : F64.valid (binary_round F64.prec F64.emax sx m e) = true.
Proof.
  unfold binary_round. rewrite fexp_eq, digits2_log2.
  destruct (shl_align m e (Z.max (Z.log2 (Zpos m) + 1 + e - 53) (-1074))) as [mz ez] eqn:Hs.
  apply binary_round_aux_valid; [lia|].
  unfold shl_align in Hs.
  destruct (Z.max (Z.log2 (Zpos m) + 1 + e - 53) (-1074) - e) as [|d|d] eqn:Hd;
    inversion Hs; subst; clear Hs; cbn [Zdigits2]; rewrite digits2_log2.
  - lia.
  - lia.
  - rewrite iter_xO_pow, Z.log2_mul_pow2 by lia. fold (Z.log2 (Zpos m)). lia.
Qed.

Lemma binary_normalize_valid m e sz :
  F64.valid (binary_normalize F64.prec F64.emax m e sz) = true.
Proof. destruct m; cbn [binary_normalize]; [reflexivity| |]; apply binary_round_valid. Qed.

Lemma of_Z_valid z : F64.valid (F64.of_Z z) = true.
Proof. apply binary_normalize_valid. Qed.

Lemma sub_valid x y :
  F64.valid x = true -> F64.valid y = true -> F64.valid (F64.sub x y) = true.
Proof.
  unfold F64.sub. destruct x as [sx|sx| |sx mx ex], y as [sy|sy| |sy my ey]; intros Hx Hy;
    cbn [SFsub]; try reflexivity; try assumption;
    try (destruct sx; try destruct sy; reflexivity).
  apply binary_normalize_valid.
Qed.

Lemma bounded_canonical m e :
  bounded F64.prec F64.emax m e = true ->
  Z.max (Z.log2 (Zpos m) + 1 + e - 53) (-1074) = e.
Proof.
  unfold bounded. intros H. apply andb_true_iff in H as [H _]. apply canonical_iff, H.
Qed.

Lemma mul_valid x y :
  F64.valid x = true -> F64.valid y = true -> F64.valid (F64.mul x y) = true.
Proof.
  unfold F64.mul. destruct x as [sx|sx| |sx mx ex], y as [sy|sy| |sy my ey]; intros Hx Hy;
    cbn [SFmul]; try reflexivity.
  unfold F64.valid in Hx, Hy. cbn [valid_binary] in Hx, Hy.
  apply bounded_canonical in Hx, Hy.
  apply binary_round_aux_valid; [lia|].
  cbn [Zdigits2]. rewrite digits2_log2, Pos2Z.inj_mul.
  pose proof (Z.log2_mul_below (Zpos mx) (Zpos my) ltac:(lia) ltac:(lia)).
  pose proof (Z.log2_nonneg (Zpos mx)). pose proof (Z.log2_nonneg (Zpos my)). lia.
Qed.

Lemma div_valid x y :
  F64.valid x = true -> F64.valid y = true -> F64.valid (F64.div x y) = true.
Proof.
  unfold F64.div. destruct x as [sx|sx| |sx mx ex], y as [sy|sy| |sy my ey]; intros Hx Hy;
    cbn [SFdiv]; try reflexivity.
  unfold SFdiv_core_binary. cbn [Zdigits2]. rewrite fexp_eq, !digits2_log2.
  set (e' := Z.min (Z.max (Z.log2 (Zpos mx) + 1 + ex - (Z.log2 (Zpos my) + 1 + ey) - 53) (-1074))
                   (ex - ey)).
  set (s := ex - ey - e').
  assert (Hs : 0 <= s) by (unfold s, e'; lia).
  set (m' := match s with Zpos _ => Z.shiftl (Zpos mx) s | Z0 => Zpos mx | Zneg _ => 0 end).
  assert (Hm' : m' = Zpos mx * 2 ^ s).
  { unfold m'. destruct s as [|p|p]; try lia. apply Z.shiftl_mul_pow2. lia. }
  assert (Hpow : 0 < 2 ^ s) by (apply Z.pow_pos_nonneg; lia).
  pose proof (Z.div_eucl_eq m' (Zpos my) ltac:(lia)) as Heq.
  pose proof (Z.mod_pos_bound m' (Zpos my) ltac:(lia)) as Hmod.
  unfold Z.modulo in Hmod.
  destruct (Z.div_eucl m' (Zpos my)) as [q r].
  assert (Hq : 0 <= q) by nia.
  apply binary_round_aux_valid; [exact Hq|].
  destruct (Z_le_gt_dec e' (-1074)) as [Hle|Hgt]; [lia|].
  assert (Hs53 : 53 - Z.log2 (Zpos mx) + Z.log2 (Zpos my) <= s) by (unfold s, e' in *; lia).
  assert (Hq52 : 2 ^ 52 <= q).
  { pose proof (Z.log2_spec (Zpos mx) ltac:(lia)) as [Hlx _].
    pose proof (Z.log2_spec (Zpos my) ltac:(lia)) as [_ Hly].
    pose proof (Z.log2_nonneg (Zpos mx)). pose proof (Z.log2_nonneg (Zpos my)).
    assert (H1 : 2 ^ (53 + Z.log2 (Zpos my)) <= m').
    { rewrite Hm'. apply Z.le_trans with (2 ^ Z.log2 (Zpos mx) * 2 ^ s).
      - rewrite <- Z.pow_add_r by lia. apply Z.pow_le_mono_r; lia.
      - apply Z.mul_le_mono_nonneg_r; lia. }
    assert (H2 : 2 ^ (53 + Z.log2 (Zpos my)) = 2 ^ 52 * 2 ^ Z.succ (Z.log2 (Zpos my))).
    { rewrite <- Z.pow_add_r by lia. f_equal. lia. }
    assert (H3 : 0 < 2 ^ 52) by lia.
    nia. }
  assert (Hl : 52 <= Z.log2 q).
  { change 52 with (Z.log2 (2 ^ 52)). apply Z.log2_le_mono, Hq52. }
  rewrite Zdigits2_log2 by lia. lia.
Qed.

Lemma gapOf_valid current target :
  F64.valid current = true -> F64.valid target = true ->
  F64.valid (gapOf current target) = true.
Proof.
  intros Hc Ht. unfold gapOf.
  apply mul_valid; [|apply of_Z_valid].
  apply div_valid; [|exact Ht]. apply sub_valid; assumption.
Qed.

Lemma parseInt_valid s : F64.valid (Parse.parseInt s) = true.
Proof.
  unfold Parse.parseInt. destruct (Parse.leadingInteger s) as [[neg v]|]; [|reflexivity].
  apply binary_normalize_valid.
Qed.

(** What the analysis keeps can be sorted. *)
Lemma analysis_regular e code stockData c :
  analysis e code stockData = Some c -> regular c = true.
Proof.
  unfold analysis, priceOf.
  destruct (negb (F64.isNaN (gapPercentage e))); [|discriminate].
  destruct (_ && _ && _); [|discriminate].
  destruct (F64.geb _ (gapPercentage e)) eqn:Hge; [|discriminate].
  destruct (F64.geb _ (minMarketCap e)); [|discriminate].
  intros [= <-]. unfold regular. cbn [gap].
  rewrite gapOf_valid by apply parseInt_valid.
  unfold F64.geb in Hge. apply (leb_not_NaN (gapPercentage e)) in Hge as [_ Hn].
  rewrite Hn. reflexivity.
Qed.

End ValidFacts.

(** ** The loop over the codes *)

Module PipelineFacts.

Lemma fetchesOf_app a b : fetchesOf (a ++ b) = fetchesOf a ++ fetchesOf b.
Proof. apply flat_map_app. Qed.
Lemma appendsOf_app a b : appendsOf (a ++ b) = appendsOf a ++ appendsOf b.
Proof. apply flat_map_app. Qed.
Lemma postsOf_app a b : postsOf (a ++ b) = postsOf a ++ postsOf b.
Proof. apply flat_map_app. Qed.

Lemma state_eq (s : runstate) f r b t :
  skipFile s = f -> results s = r -> notificationBatch s = b -> trace s = t ->
  s = {| skipFile := f; results := r; notificationBatch := b; trace := t |}.
Proof. destruct s; simpl; intros; subst; reflexivity. Qed.

Ltac unfold_monad :=
  unfold processItem, fetchPage, appendFile, external, sleep, finally, try_catch,
    bind, ret, throw, emit, pushResult, setBatch, setFile, getBatch, getFile in *.

Lemma processItem_spec (w : world) (index : nat) (code : jsstring) (s : runstate) :
  processItem w index code s =
  (itemOutcome w index code,
   {| skipFile := itemFile w index code (skipFile s);
      results := results s ++ itemRows w index code;
      notificationBatch := notificationBatch s ++ itemCandidates w index code;
      trace := trace s ++ itemEvents w index code |}).
Proof.
  unfold_monad.
  unfold itemOutcome, itemFile, itemRows, itemCandidates, itemEvents, itemOutcome,
    itemAppends, appendRejected, targetUnavailable, appendText.
  destruct (fetch w index code) as [e|e|sd]; cbn [pageCreated];
    try destruct (bool_decide (targetPrice sd = noTargetPrice));
    try destruct (appendFault w index);
    try destruct (analysis (env w) code sd);
    destruct (closePage w index); destruct s as [f r b t]; cbn;
    rewrite ?app_nil_r, <- ?app_assoc; try reflexivity.
Qed.

Lemma forEach_spec (w : world) (codes : list jsstring) :
  forall index s,
    forEach (processItem w) index codes s =
    (loopOutcome w index codes, loopState w index codes s).
Proof.
  induction codes as [|code codes IH]; intros index s.
  - unfold loopState. cbn. rewrite !app_nil_r. destruct s; reflexivity.
  - cbn [forEach]. unfold bind at 1. rewrite processItem_spec.
    cbn [loopOutcome reached]. unfold loopState. cbn [reached].
    destruct (itemOutcome w index code) as [[]|e].
    + rewrite IH. unfold loopState.
      cbn [flat_map fold_left fst snd skipFile results notificationBatch trace].
      rewrite <- !app_assoc. reflexivity.
    + cbn [flat_map fold_left fst snd skipFile results notificationBatch trace].
      rewrite !app_nil_r. reflexivity.
Qed.

Lemma reached_prefix w codes :
  forall index, reached w index codes `prefix_of` indexed index codes.
Proof.
  induction codes as [|code codes IH]; intros index; cbn.
  - reflexivity.
  - unfold indexed. cbn. apply prefix_cons.
    destruct (itemOutcome w index code); [apply IH|apply prefix_nil].
Qed.

Lemma reached_all w codes :
  forall index, loopOutcome w index codes = Ret tt ->
                reached w index codes = indexed index codes.
Proof.
  induction codes as [|code codes IH]; intros index; cbn; [reflexivity|].
  unfold indexed. cbn. destruct (itemOutcome w index code); [|discriminate].
  intros H. f_equal. apply IH, H.
Qed.

Lemma loopOutcome_closes w codes :
  (forall i, closePage w i = None) -> forall index, loopOutcome w index codes = Ret tt.
Proof.
  intros H. induction codes as [|code codes IH]; intros index; cbn; [reflexivity|].
  unfold itemOutcome. rewrite H. destruct (pageCreated _); apply IH.
Qed.

Lemma indexed_codes index codes : map snd (indexed index codes) = codes.
Proof.
  unfold indexed. revert index. induction codes as [|c codes IH]; intros index; cbn;
    [reflexivity|]. f_equal. apply IH.
Qed.

Lemma fetchesOf_items w items :
  fetchesOf (flat_map (fun ic => itemEvents w ic.1 ic.2) items) = items.
Proof.
  induction items as [|[i c] items IH]; [reflexivity|].
  cbn [flat_map]. rewrite fetchesOf_app, IH. cbn [fst snd].
  unfold itemEvents. cbn [fetchesOf flat_map]. rewrite <- app_comm_cons. f_equal.
  change (flat_map _ ?l) with (fetchesOf l). rewrite !fetchesOf_app.
  replace (fetchesOf (map EAppendFile (itemAppends w i c))) with (@nil (nat * jsstring))
    by (unfold itemAppends; destruct (targetUnavailable _); reflexivity).
  destruct (pageCreated _), (itemOutcome w i c); reflexivity.
Qed.

Lemma appendsOf_items w items :
  appendsOf (flat_map (fun ic => itemEvents w ic.1 ic.2) items)
  = flat_map (fun ic => itemAppends w ic.1 ic.2) items.
Proof.
  induction items as [|[i c] items IH]; [reflexivity|].
  cbn [flat_map]. rewrite appendsOf_app, IH. cbn [fst snd]. f_equal.
  unfold itemEvents. cbn [appendsOf flat_map app].
  change (flat_map _ ?l) with (appendsOf l). rewrite !appendsOf_app.
  replace (appendsOf (map EAppendFile (itemAppends w i c))) with (itemAppends w i c)
    by (unfold itemAppends; destruct (targetUnavailable _); reflexivity).
  destruct (pageCreated _), (itemOutcome w i c); cbn; rewrite ?app_nil_r; reflexivity.
Qed.

Lemma postsOf_items w items :
  postsOf (flat_map (fun ic => itemEvents w ic.1 ic.2) items) = [].
Proof.
  induction items as [|[i c] items IH]; [reflexivity|].
  cbn [flat_map]. rewrite postsOf_app, IH, app_nil_r. cbn [fst snd].
  unfold itemEvents. cbn [postsOf flat_map app].
  change (flat_map _ ?l) with (postsOf l). rewrite !postsOf_app.
  replace (postsOf (map EAppendFile (itemAppends w i c))) with (@nil (jsstring * list candidate))
    by (unfold itemAppends; destruct (targetUnavailable _); reflexivity).
  destruct (pageCreated _), (itemOutcome w i c); reflexivity.
Qed.

End PipelineFacts.

(** ** The two settings of the filter *)

Module SettingFacts.
Import Str Parse StrFacts ParseFacts NumberFacts ExactFacts.









End SettingFacts.

(** ** What the analysis keeps *)



(** ** Sorting and sending *)

Module DispatchFacts.

Lemma extend_nil s : extend s [] = s.
Proof. unfold extend. rewrite app_nil_r. destruct s; reflexivity. Qed.

Lemma extend_extend s a b : extend (extend s a) b = extend s (a ++ b).
Proof. unfold extend. cbn. rewrite app_assoc. reflexivity. Qed.

Lemma batchAt_length b i : length (batchAt b i) = Nat.min BATCH_SIZE (length b - i).
Proof.
  unfold batchAt, slice. rewrite length_take, length_drop. f_equal. lia.
Qed.

Lemma send_spec w i stocks s :
  configured w = true -> stocks <> [] ->
  sendSlackNotification w i stocks s =
  (match postMessage w i with Some error => Throw error | None => Ret tt end,
   extend s [postEvent w i stocks]).
Proof.
  unfold configured, sendSlackNotification. intros Hc Hne.
  apply andb_true_iff in Hc as [Ht Hch]. apply negb_true_iff in Ht, Hch.
  rewrite Ht, Hch. destruct stocks as [|c stocks]; [contradiction|]. cbn [length Nat.eqb orb].
  unfold external, bind, emit, throw, ret, extend, postEvent.
  destruct (postMessage w i); reflexivity.
Qed.

Lemma send_events w i stocks s :
  exists evs,
    snd (sendSlackNotification w i stocks s) = extend s evs
    /\ (evs = [] \/ evs = [postEvent w i stocks]).
Proof.
  unfold sendSlackNotification.
  destruct (falsy _ || falsy _ || (length stocks =? 0)%nat).
  - exists []. rewrite extend_nil. auto.
  - exists [postEvent w i stocks]. split; [|auto].
    unfold external, bind, emit, throw, ret, extend, postEvent.
    destruct (postMessage w i); reflexivity.
Qed.

Lemma sendLoop_events w fuel :
  forall i s, exists evs,
    snd (sendLoop w fuel i s) = extend s evs
    /\ Forall (dispatchEvent w (notificationBatch s)) evs.
Proof.
  induction fuel as [|fuel IH]; intros i s; cbn [sendLoop].
  - exists []. rewrite extend_nil. split; [reflexivity|constructor].
  - unfold bind at 1. unfold getBatch at 1.
    destruct (i <? length (notificationBatch s))%nat.
    2:{ exists []. rewrite extend_nil. split; [reflexivity|constructor]. }
    unfold bind at 1.
    destruct (send_events w i (slice (notificationBatch s) i (i + BATCH_SIZE)) s)
      as (evs1 & Hs1 & Hevs1).
    destruct (sendSlackNotification w i _ s) as [[[]|e] s1]; cbn [snd] in Hs1; subst s1.
    2:{ exists evs1. split; [reflexivity|].
        destruct Hevs1 as [->| ->]; repeat constructor. exists i. split; reflexivity. }
    unfold bind at 1.
    set (pause := if (i + BATCH_SIZE <? length (notificationBatch s))%nat
                  then sleep 1000 else ret tt).
    assert (Hp : exists evs2, pause (extend s evs1) = (Ret tt, extend (extend s evs1) evs2)
                              /\ Forall (dispatchEvent w (notificationBatch s)) evs2).
    { unfold pause. destruct (i + BATCH_SIZE <? length (notificationBatch s))%nat.
      - exists [ESleep 1000]. split; [reflexivity|]. repeat constructor.
      - exists []. rewrite extend_nil. split; [reflexivity|constructor]. }
    destruct Hp as (evs2 & -> & Hevs2).
    destruct (IH (i + BATCH_SIZE) (extend (extend s evs1) evs2)) as (evs3 & Hs3 & Hevs3).
    exists (evs1 ++ evs2 ++ evs3). split.
    + rewrite Hs3, !extend_extend, app_assoc. reflexivity.
    + apply Forall_app. split; [|apply Forall_app; split; assumption].
      destruct Hevs1 as [->| ->]; repeat constructor. exists i. split; reflexivity.
Qed.

Lemma slice_nonempty (b : list candidate) i :
  i < length b -> slice b i (i + BATCH_SIZE) <> [].
Proof.
  intros Hlt E. apply (f_equal length) in E. fold (batchAt b i) in E.
  rewrite batchAt_length in E. unfold BATCH_SIZE in E. cbn [length] in E. lia.
Qed.

Lemma below_count n k : k * BATCH_SIZE < n -> batchCount n - k = S (batchCount n - S k).
Proof.
  unfold batchCount, BATCH_SIZE. intros H.
  assert (k < (n + (5 - 1)) / 5) by (apply Nat.div_le_lower_bound; lia). lia.
Qed.

Lemma above_count n k : n <= k * BATCH_SIZE -> batchCount n - k = 0.
Proof.
  unfold batchCount, BATCH_SIZE. intros H.
  assert ((n + (5 - 1)) / 5 < S k); [|lia].
  apply Nat.Div0.div_lt_upper_bound. lia.
Qed.

Lemma sendLoop_spec w :
  configured w = true -> (forall i, postMessage w i = None) ->
  forall fuel k s,
    batchCount (length (notificationBatch s)) - k <= fuel ->
    sendLoop w fuel (k * BATCH_SIZE) s =
    (Ret tt,
     extend s (flat_map (batchEvents w (notificationBatch s))
                 (map (fun k => k * BATCH_SIZE)
                    (seq k (batchCount (length (notificationBatch s)) - k))))).
Proof.
  intros Hc Hp. induction fuel as [|fuel IH]; intros k s Hfuel.
  - replace (batchCount (length (notificationBatch s)) - k) with 0 by lia.
    cbn. rewrite extend_nil. reflexivity.
  - cbn [sendLoop]. unfold bind at 1. unfold getBatch at 1.
    destruct (Nat.ltb_spec (k * BATCH_SIZE) (length (notificationBatch s))) as [Hlt|Hge].
    + unfold bind at 1. rewrite send_spec by (auto using slice_nonempty).
      rewrite Hp. unfold bind at 1.
      pose proof (below_count _ _ Hlt) as Hcnt. rewrite Hcnt in *.
      cbn [seq map flat_map]. unfold batchEvents at 1. fold (batchAt (notificationBatch s) (k * BATCH_SIZE)).
      replace (k * BATCH_SIZE + BATCH_SIZE) with (S k * BATCH_SIZE) by (unfold BATCH_SIZE; lia).
      destruct (S k * BATCH_SIZE <? length (notificationBatch s)).
      * unfold sleep, emit.
        match goal with |- sendLoop w fuel _ ?s1 = _ =>
          rewrite (IH (S k) s1) by (cbn [notificationBatch extend]; lia) end.
        unfold extend. cbn [skipFile results notificationBatch trace].
        rewrite <- !app_assoc. reflexivity.
      * unfold ret.
        rewrite (IH (S k) (extend s _)) by (cbn [notificationBatch extend]; lia).
        unfold extend. cbn [skipFile results notificationBatch trace].
        rewrite <- !app_assoc. reflexivity.
    + rewrite (above_count _ _ Hge). cbn. rewrite extend_nil. reflexivity.
Qed.

(** *** The sort *)

Lemma insert_perm x l : Permutation (x :: l) (insert x l).
Proof.
  induction l as [|y l IH]; cbn [insert]; [reflexivity|].
  destruct (F64.gtb (sortCompare x y) F64.zero); [|reflexivity].
  rewrite perm_swap. constructor. exact IH.
Qed.

Lemma sort_perm l : Permutation l (sort l).
Proof.
  induction l as [|x l IH]; cbn [sort]; [reflexivity|].
  rewrite <- insert_perm. constructor. exact IH.
Qed.

Lemma sort_length l : length (sort l) = length l.
Proof. symmetry. apply Permutation_length, sort_perm. Qed.

Lemma regular_inv c : regular c = true -> F64.valid (gap c) = true /\ F64.isNaN (gap c) = false.
Proof. unfold regular. intros H. apply andb_true_iff in H as [H1 H2]. apply negb_true_iff in H2. auto. Qed.

Lemma sortCompare_gt x y :
  regular x = true -> regular y = true ->
  F64.gtb (sortCompare x y) F64.zero = F64.ltb (gap y) (gap x).
Proof.
  intros Hx Hy. apply regular_inv in Hx as [Hvx _], Hy as [Hvy _].
  rewrite <- (NumberFacts.sub_gt0 _ _ Hvx Hvy).
  unfold sortCompare, comparefn. destruct (F64.sub (gap x) (gap y)); reflexivity.
Qed.

Lemma insert_sorted x l :
  regular x = true -> Forall (fun c => regular c = true) l ->
  StronglySorted gap_le l -> StronglySorted gap_le (insert x l).
Proof.
  intros Hx Hl Hs. induction Hs as [|y l Hs IH Hy]; cbn [insert].
  - repeat constructor.
  - apply Forall_cons in Hl as [Hry Hl].
    rewrite sortCompare_gt by assumption.
    destruct (regular_inv _ Hx) as [_ Hnx], (regular_inv _ Hry) as [_ Hny].
    destruct (F64.ltb (gap y) (gap x)) eqn:Hlt.
    + constructor; [apply IH, Hl|].
      eapply Permutation_Forall; [apply insert_perm|].
      constructor; [apply NumberFacts.ltb_leb, Hlt|exact Hy].
    + assert (Hxy : gap_le x y) by (apply NumberFacts.not_ltb_leb; assumption).
      constructor; [constructor; assumption|].
      constructor; [exact Hxy|].
      eapply Forall_impl; [exact Hy|]. intros z Hz.
      eapply NumberFacts.leb_trans; eassumption.
Qed.

Lemma sort_sorted l :
  Forall (fun c => regular c = true) l -> StronglySorted gap_le (sort l).
Proof.
  induction l as [|x l IH]; intros H; cbn [sort]; [constructor|].
  apply Forall_cons in H as [Hx Hl].
  apply insert_sorted; [exact Hx| |apply IH, Hl].
  eapply Permutation_Forall; [apply sort_perm|exact Hl].
Qed.

(** *** The batches *)

Lemma batches_concat (b : list candidate) :
  forall m k,
    concat (map (batchAt b) (map (fun k => k * BATCH_SIZE) (seq k m)))
    = take (m * BATCH_SIZE) (drop (k * BATCH_SIZE) b).
Proof.
  induction m as [|m IH]; intros k; [reflexivity|].
  cbn [seq map concat]. rewrite IH. unfold batchAt, slice.
  replace (k * BATCH_SIZE + BATCH_SIZE - k * BATCH_SIZE) with BATCH_SIZE by lia.
  replace (S k * BATCH_SIZE) with (k * BATCH_SIZE + BATCH_SIZE) by (unfold BATCH_SIZE; lia).
  rewrite <- drop_drop, take_take_drop. f_equal.
Qed.

Lemma offsets_concat (b : list candidate) :
  concat (map (batchAt b) (offsets (length b))) = b.
Proof.
  unfold offsets. rewrite batches_concat. cbn [Nat.mul]. rewrite drop_0.
  apply take_ge. unfold batchCount, BATCH_SIZE.
  pose proof (Nat.div_mod_eq (length b + (5 - 1)) 5).
  pose proof (Nat.mod_upper_bound (length b + (5 - 1)) 5). lia.
Qed.

Lemma offsets_bounded n : Forall (fun i => i < n) (offsets n).
Proof.
  unfold offsets. apply List.Forall_forall. intros i Hi.
  apply in_map_iff in Hi as (k & <- & Hk). apply in_seq in Hk.
  unfold batchCount, BATCH_SIZE in *.
  pose proof (Nat.div_mod_eq (n + (5 - 1)) 5).
  pose proof (Nat.mod_upper_bound (n + (5 - 1)) 5). lia.
Qed.

(** *** The whole dispatch *)

Lemma dispatch_spec w s :
  configured w = true -> (forall i, postMessage w i = None) ->
  dispatch w s =
  (Ret tt,
   extend (withBatch s (sort (notificationBatch s)))
     (flat_map (batchEvents w (sort (notificationBatch s)))
        (offsets (length (notificationBatch s))))).
Proof.
  intros Hc Hp. unfold dispatch, bind, getBatch.
  destruct (notificationBatch s) as [|c b] eqn:Hb.
  - cbn. unfold extend, withBatch. cbn. rewrite app_nil_r, <- Hb. destruct s; reflexivity.
  - change (0 <? length (c :: b)) with true. cbv iota.
    unfold setBatch. fold (withBatch s (sort (c :: b))).
    pose proof (sendLoop_spec w Hc Hp (length (c :: b)) 0 (withBatch s (sort (c :: b)))) as H.
    change (0 * BATCH_SIZE) with 0 in H. rewrite H.
    + cbn [notificationBatch withBatch]. rewrite Nat.sub_0_r, sort_length. reflexivity.
    + cbn [notificationBatch withBatch]. rewrite sort_length.
      unfold batchCount, BATCH_SIZE.
      pose proof (Nat.div_mod_eq (length (c :: b) + (5 - 1)) 5).
      pose proof (Nat.mod_upper_bound (length (c :: b) + (5 - 1)) 5).
      cbn [length] in *. lia.
Qed.

Lemma dispatch_events w s :
  exists evs,
    snd (dispatch w s) = extend (withBatch s (sort (notificationBatch s))) evs
    /\ Forall (dispatchEvent w (sort (notificationBatch s))) evs
    /\ (notificationBatch s = [] -> evs = []).
Proof.
  unfold dispatch, bind, getBatch.
  destruct (notificationBatch s) as [|c b] eqn:Hb.
  - exists []. cbn. unfold extend, withBatch. cbn. rewrite app_nil_r, <- Hb.
    split; [destruct s; reflexivity|]. split; [constructor|reflexivity].
  - change (0 <? length (c :: b)) with true. cbv iota.
    unfold setBatch. fold (withBatch s (sort (c :: b))).
    destruct (sendLoop_events w (length (c :: b)) 0 (withBatch s (sort (c :: b))))
      as (evs & Hs & Hevs).
    exists evs. split; [exact Hs|]. split; [exact Hevs|discriminate].
Qed.

End DispatchFacts.

(** ** The run as a whole *)

Module RunFacts.
Import PipelineFacts DispatchFacts.

Lemma sendLoop_returns w :
  (forall i, postMessage w i = None) ->
  forall fuel i s, fst (sendLoop w fuel i s) = Ret tt.
Proof.
  intros Hp. induction fuel as [|fuel IH]; intros i s; cbn [sendLoop]; [reflexivity|].
  unfold bind at 1. unfold getBatch at 1.
  destruct (i <? length (notificationBatch s)); [|reflexivity].
  unfold bind at 1.
  assert (Hs : fst (sendSlackNotification w i (slice (notificationBatch s) i (i + BATCH_SIZE)) s) = Ret tt).
  { unfold sendSlackNotification. destruct (falsy _ || falsy _ || _); [reflexivity|].
    unfold external, bind, emit. rewrite Hp. reflexivity. }
  destruct (sendSlackNotification w i _ s) as [r s1]. cbn [fst] in Hs. subst r.
  unfold bind at 1.
  destruct (i + BATCH_SIZE <? length (notificationBatch s)); apply IH.
Qed.

Lemma dispatch_returns w s :
  (forall i, postMessage w i = None) -> fst (dispatch w s) = Ret tt.
Proof.
  intros Hp. unfold dispatch, bind, getBatch.
  destruct (0 <? length (notificationBatch s)); [|reflexivity].
  unfold setBatch. apply sendLoop_returns, Hp.
Qed.

Lemma reset_spec w s :
  resetSkipList w s =
  if isFirstMonday w then
    match unlinkFault w with
    | Some error =>
        (if notENOENT error then Throw error else Ret tt, extend s [EUnlink])
    | None => (Ret tt, extend (withFile s None) [EUnlink])
    end
  else (Ret tt, s).
Proof.
  unfold resetSkipList. destruct (isFirstMonday w); [|reflexivity].
  unfold try_catch, unlink, bind, emit, getFile, setFile, throw, ret, extend, withFile.
  cbn [skipFile results notificationBatch trace].
  destruct (unlinkFault w) as [e|].
  - destruct (notENOENT e); reflexivity.
  - destruct s as [[f|] r b t]; reflexivity.
Qed.

Lemma load_spec w s :
  loadSkipCodes w s =
  (match readFault w with
   | Some error => if notENOENT error then Throw error else Ret ∅
   | None => Ret (match skipFile s with Some text => skipCodesOf text | None => ∅ end)
   end,
   extend s [EReadFile]).
Proof.
  unfold loadSkipCodes, try_catch, readFile, bind, emit, getFile, throw, ret, extend.
  cbn [skipFile results notificationBatch trace].
  destruct (readFault w) as [e|].
  - destruct (notENOENT e); reflexivity.
  - destruct s as [[f|] r b t]; reflexivity.
Qed.

(** What [processAll] is once the codes are there. *)
Lemma processAll_spec w skipCodes codes s :
  STOCK_CODES (env w) = Some codes ->
  processAll w skipCodes s =
  let stockCodes := stockCodesOf (Str.split codes Str.comma) skipCodes in
  match launch w with
  | Some error => (Throw error, extend s [ELaunch])
  | None =>
      let s1 := loopState w 0 stockCodes (extend s [ELaunch]) in
      match loopOutcome w 0 stockCodes with
      | Throw error => (Throw error, s1)
      | Ret _ =>
          match closeBrowser w with
          | Some error => (Throw error, extend s1 [ECloseBrowser])
          | None => dispatch w (extend s1 [ECloseBrowser])
          end
      end
  end.
Proof.
  intros Hc. unfold processAll. rewrite Hc. unfold bind at 1. unfold ret at 1.
  pose proof (StrFacts.split_not_nil codes Str.comma) as Hne.
  destruct (Str.split codes Str.comma) as [|c0 cs] eqn:Hsplit; [contradiction|].
  cbn [length Nat.eqb]. cbv zeta. fold (stockCodesOf (c0 :: cs) skipCodes).
  unfold bind at 1. unfold external at 1. unfold bind at 1, emit at 1.
  fold (extend s [ELaunch]).
  destruct (launch w) as [e|]; [reflexivity|]. unfold ret at 1.
  unfold bind at 1. rewrite forEach_spec.
  destruct (loopOutcome w 0 (stockCodesOf (c0 :: cs) skipCodes)) as [[]|e]; [|reflexivity].
  unfold bind at 1. unfold external at 1. unfold bind at 1, emit at 1.
  match goal with |- context [({| skipFile := skipFile ?x; results := _;
                                  notificationBatch := _; trace := _ ++ [ECloseBrowser] |})] =>
    fold (extend x [ECloseBrowser]) end.
  destruct (closeBrowser w) as [e|]; reflexivity.
Qed.

End RunFacts.

Module ShapeFacts.
Import PipelineFacts DispatchFacts RunFacts.

Lemma shaped_stop w s pre :
  Forall preludeEvent pre -> shaped w s (extend s pre).
Proof.
  intros Hpre. exists pre, [], []. cbn. rewrite !app_nil_r.
  repeat split; auto.
Qed.

Lemma processAll_shaped w skipCodes s : shaped w s (snd (processAll w skipCodes s)).
Proof.
  destruct (STOCK_CODES (env w)) as [codes|] eqn:Hc.
  2:{ unfold processAll. rewrite Hc. cbn. rewrite <- (extend_nil s) at 2.
      apply shaped_stop. constructor. }
  rewrite (processAll_spec w skipCodes codes s Hc). cbv zeta.
  set (stockCodes := stockCodesOf (Str.split codes Str.comma) skipCodes).
  destruct (launch w) as [e|].
  { apply shaped_stop. repeat constructor. }
  set (items := reached w 0 stockCodes).
  destruct (loopOutcome w 0 stockCodes) as [[]|e].
  2:{ exists [ELaunch], items, []. unfold loopState. fold items. cbn.
      rewrite !app_nil_r, <- !app_assoc.
      repeat split; auto. repeat constructor. }
  destruct (closeBrowser w) as [e|].
  { exists [ELaunch], items, [ECloseBrowser]. unfold loopState. fold items. cbn.
    rewrite <- !app_assoc. repeat split; auto; repeat constructor. }
  destruct (dispatch_events w (extend (loopState w 0 stockCodes (extend s [ELaunch])) [ECloseBrowser]))
    as (evs & Hs & Hevs & Hnil).
  rewrite Hs. exists [ELaunch], items, (ECloseBrowser :: evs).
  unfold loopState in *. fold items in Hevs, Hnil |- *.
  cbn [extend withBatch skipFile results notificationBatch trace] in *.
  rewrite <- !app_assoc. repeat split; auto.
  - repeat constructor.
  - constructor; [exact I|]. eapply Forall_impl; [exact Hevs|].
    intros ev Hev. destruct ev; cbn in *; auto.
  - apply sort_perm.
  - intros Hsorted.
    assert (Hb : notificationBatch s ++ flat_map (fun ic => itemCandidates w ic.1 ic.2) items = []).
    { apply Permutation_nil. rewrite <- Hsorted. symmetry. apply sort_perm. }
    rewrite (Hnil Hb). reflexivity.
Qed.

Lemma shaped_run w s final :
  Forall preludeEvent (trace s) -> results s = [] -> notificationBatch s = [] ->
  shaped w s final -> runShape w (skipFile s) final.
Proof.
  intros Hpre Hr Hb (pre & items & tail & H1 & H2 & H3 & H4 & H5 & H6 & H7).
  exists (trace s ++ pre), items, tail. rewrite H1, H4, Hr, <- !app_assoc.
  rewrite Hb in H5. repeat split; auto. apply Forall_app; auto.
Qed.

(** The shape of a whole run. *)
Lemma run_shaped w file : runShape w (afterReset w file) (snd (run w file)).
Proof.
  unfold run, scrapeStockData, afterReset.
  unfold bind at 1. rewrite reset_spec.
  set (s0 := startOfRun file).
  assert (Hstop : forall s, Forall preludeEvent (trace s) -> results s = [] ->
            notificationBatch s = [] -> runShape w (skipFile s) s).
  { intros s H1 H2 H3. apply shaped_run; try assumption.
    rewrite <- (extend_nil s) at 2. apply shaped_stop. constructor. }
  assert (Hload : forall s, Forall preludeEvent (trace s) -> results s = [] ->
            notificationBatch s = [] ->
            runShape w (skipFile s) (snd (bind (loadSkipCodes w) (processAll w) s))).
  { intros s H1 H2 H3. unfold bind. rewrite load_spec.
    assert (H1' : Forall preludeEvent (trace (extend s [EReadFile])))
      by (apply Forall_app; split; [exact H1|repeat constructor]).
    destruct (readFault w) as [e|]; [destruct (notENOENT e)|].
    - apply (Hstop (extend s [EReadFile])); assumption.
    - apply (shaped_run w (extend s [EReadFile])); try assumption. apply processAll_shaped.
    - apply (shaped_run w (extend s [EReadFile])); try assumption. apply processAll_shaped. }
  destruct (isFirstMonday w).
  - destruct (unlinkFault w) as [e|]; [destruct (notENOENT e)|].
    + apply (Hstop (extend s0 [EUnlink])); try reflexivity. repeat constructor.
    + apply (Hload (extend s0 [EUnlink])); try reflexivity. repeat constructor.
    + apply (Hload (extend (withFile s0 None) [EUnlink])); try reflexivity. repeat constructor.
  - apply (Hload s0); try reflexivity. constructor.
Qed.

End ShapeFacts.

Module TraceFacts.
Import PipelineFacts DispatchFacts RunFacts ShapeFacts.

Lemma prelude_quiet pre :
  Forall preludeEvent pre -> fetchesOf pre = [] /\ appendsOf pre = [] /\ postsOf pre = [].
Proof.
  induction 1 as [|e pre He _ IH]; [auto|].
  destruct IH as (H1 & H2 & H3). destruct e; cbn in *; try contradiction; auto.
Qed.

Lemma tail_quiet w b tail :
  Forall (tailEvent w b) tail -> fetchesOf tail = [] /\ appendsOf tail = [].
Proof.
  induction 1 as [|e tail He _ IH]; [auto|].
  destruct IH as (H1 & H2). destruct e; cbn in *; try contradiction; auto.
Qed.

Lemma tail_posts w b tail :
  Forall (tailEvent w b) tail ->
  forall title stocks, In (title, stocks) (postsOf tail) ->
    exists i, stocks = batchAt b i /\ title = messageTitle (getKSTTimestamp w i) stocks.
Proof.
  induction 1 as [|e tail He _ IH]; intros title stocks Hin; [destruct Hin|].
  destruct e; cbn in *; try contradiction; auto.
  destruct Hin as [[= <- <-]|Hin]; auto.
Qed.

(** The codes [processAll] fetches. *)
Lemma processAll_fetches w skipCodes codes s :
  STOCK_CODES (env w) = Some codes ->
  let stockCodes := stockCodesOf (Str.split codes Str.comma) skipCodes in
  exists evs,
    trace (snd (processAll w skipCodes s)) = trace s ++ evs
    /\ fetchesOf evs = match launch w with
                       | None => reached w 0 stockCodes
                       | Some _ => []
                       end
    /\ (fst (processAll w skipCodes s) = Ret tt ->
        launch w = None /\ loopOutcome w 0 stockCodes = Ret tt).
Proof.
  intros Hc. rewrite (processAll_spec w skipCodes codes s Hc). cbv zeta.
  set (stockCodes := stockCodesOf (Str.split codes Str.comma) skipCodes).
  destruct (launch w) as [e|].
  { exists [ELaunch]. repeat split; try reflexivity; discriminate. }
  destruct (loopOutcome w 0 stockCodes) as [[]|e].
  2:{ eexists. unfold loopState. cbn [fst snd trace extend]. rewrite <- app_assoc.
      split; [reflexivity|]. rewrite fetchesOf_app, fetchesOf_items.
      repeat split; try reflexivity; discriminate. }
  destruct (closeBrowser w) as [e|].
  { eexists. unfold loopState. cbn [fst snd trace extend]. rewrite <- !app_assoc.
    split; [reflexivity|]. rewrite !fetchesOf_app, fetchesOf_items. cbn.
    rewrite app_nil_r. repeat split; try reflexivity; discriminate. }
  destruct (dispatch_events w (extend (loopState w 0 stockCodes (extend s [ELaunch])) [ECloseBrowser]))
    as (evs & Hs & Hevs & _).
  rewrite Hs. eexists. unfold loopState. cbn [fst snd trace extend withBatch]. rewrite <- !app_assoc.
  split; [reflexivity|]. rewrite !fetchesOf_app, fetchesOf_items. cbn.
  assert (Hq : fetchesOf evs = []).
  { apply (tail_quiet w (sort (notificationBatch
       (extend (loopState w 0 stockCodes (extend s [ELaunch])) [ECloseBrowser])))).
    eapply Forall_impl; [exact Hevs|]. intros ev Hev. destruct ev; cbn in *; auto. }
  rewrite Hq, app_nil_r. repeat split; reflexivity.
Qed.

End TraceFacts.

Module ReturnFacts.
Import PipelineFacts DispatchFacts RunFacts ShapeFacts TraceFacts.

(** A run that returns has gone through the dispatch. *)
Lemma processAll_returns w skipCodes s :
  fst (processAll w skipCodes s) = Ret tt ->
  exists s1 evs,
    processAll w skipCodes s = dispatch w s1
    /\ trace s1 = trace s ++ evs /\ postsOf evs = [].
Proof.
  destruct (STOCK_CODES (env w)) as [codes|] eqn:Hc.
  2:{ unfold processAll. rewrite Hc. discriminate. }
  rewrite (processAll_spec w skipCodes codes s Hc). cbv zeta.
  destruct (launch w); [discriminate|].
  destruct (loopOutcome w 0 _); [|discriminate].
  destruct (closeBrowser w); [discriminate|]. intros _.
  eexists. eexists. split; [reflexivity|].
  unfold loopState. cbn [trace extend]. rewrite <- !app_assoc. split; [reflexivity|].
  rewrite !postsOf_app, postsOf_items. reflexivity.
Qed.

Lemma run_after_reset w file :
  run w file =
  let s0 := startOfRun file in
  let continue := bind (loadSkipCodes w) (processAll w) in
  if isFirstMonday w then
    match unlinkFault w with
    | Some error =>
        if notENOENT error then (Throw error, extend s0 [EUnlink])
        else continue (extend s0 [EUnlink])
    | None => continue (extend (withFile s0 None) [EUnlink])
    end
  else continue s0.
Proof.
  unfold run, scrapeStockData. unfold bind at 1. rewrite reset_spec. cbv zeta.
  destruct (isFirstMonday w); [|reflexivity].
  destruct (unlinkFault w) as [e|]; [destruct (notENOENT e)|]; reflexivity.
Qed.

Lemma load_returns w s :
  postsOf (trace s) = [] ->
  fst (bind (loadSkipCodes w) (processAll w) s) = Ret tt ->
  exists s1 evs,
    bind (loadSkipCodes w) (processAll w) s = dispatch w s1
    /\ trace s1 = evs /\ postsOf evs = [].
Proof.
  intros Hs. unfold bind. rewrite load_spec.
  assert (Hgo : forall skipCodes,
            fst (processAll w skipCodes (extend s [EReadFile])) = Ret tt ->
            exists s1 evs,
              processAll w skipCodes (extend s [EReadFile]) = dispatch w s1
              /\ trace s1 = evs /\ postsOf evs = []).
  { intros skipCodes Hr. destruct (processAll_returns w skipCodes _ Hr) as (s1 & evs & H1 & H2 & H3).
    exists s1, (trace s1). split; [exact H1|]. split; [reflexivity|].
    rewrite H2. cbn [trace extend]. rewrite !postsOf_app, Hs, H3. reflexivity. }
  destruct (readFault w) as [e|]; [destruct (notENOENT e)|]; try discriminate; apply Hgo.
Qed.

Lemma run_returns w file :
  fst (run w file) = Ret tt ->
  exists s1 evs,
    run w file = dispatch w s1 /\ trace s1 = evs /\ postsOf evs = [].
Proof.
  rewrite run_after_reset. cbv zeta.
  destruct (isFirstMonday w).
  - destruct (unlinkFault w) as [e|]; [destruct (notENOENT e)|]; try discriminate;
      apply load_returns; reflexivity.
  - apply load_returns. reflexivity.
Qed.

Lemma run_regular w file :
  Forall (fun c => regular c = true) (notificationBatch (snd (run w file))).
Proof.
  destruct (run_shaped w file) as (pre & items & tail & _ & _ & _ & _ & Hperm & _).
  eapply Permutation_Forall; [exact Hperm|].
  apply List.Forall_forall. intros c Hin. apply in_flat_map in Hin as ([i code] & _ & Hc).
  cbn [fst snd] in Hc. unfold itemCandidates in Hc.
  destruct (fetch w i code) as [| |sd]; try destruct Hc.
  destruct (appendRejected w i code); [destruct Hc|].
  destruct (analysis (env w) code sd) as [c'|] eqn:Ha; [|destruct Hc].
  destruct Hc as [<-|[]]. eapply ValidFacts.analysis_regular, Ha.
Qed.

Lemma run_sorted w file :
  fst (run w file) = Ret tt -> StronglySorted gap_le (notificationBatch (snd (run w file))).
Proof.
  intros Hr. pose proof (run_regular w file) as Hreg.
  destruct (run_returns w file Hr) as (s1 & evs & Hrun & _ & _).
  destruct (dispatch_events w s1) as (evs' & Hs & _ & _).
  rewrite Hrun, Hs in *. cbn [notificationBatch extend withBatch] in *.
  apply sort_sorted. eapply Permutation_Forall; [symmetry; apply sort_perm|exact Hreg].
Qed.

Lemma postsOf_batches w b offs :
  postsOf (flat_map (batchEvents w b) offs)
  = map (fun i => (messageTitle (getKSTTimestamp w i) (batchAt b i), batchAt b i)) offs.
Proof.
  induction offs as [|i offs IH]; [reflexivity|].
  cbn [flat_map map]. rewrite postsOf_app, IH. unfold batchEvents.
  destruct (i + BATCH_SIZE <? length b); reflexivity.
Qed.

Lemma run_posts w file :
  configured w = true -> (forall i, postMessage w i = None) ->
  fst (run w file) = Ret tt ->
  let sorted := notificationBatch (snd (run w file)) in
  postsOf (trace (snd (run w file)))
  = map (fun i => (messageTitle (getKSTTimestamp w i) (batchAt sorted i), batchAt sorted i))
      (offsets (length sorted)).
Proof.
  intros Hc Hp Hr. cbv zeta.
  destruct (run_returns w file Hr) as (s1 & evs & Hrun & Ht & Hq).
  rewrite Hrun, (dispatch_spec w s1 Hc Hp). cbn [snd trace notificationBatch extend withBatch].
  rewrite postsOf_app, Ht, Hq, postsOf_batches, sort_length. reflexivity.
Qed.

End ReturnFacts.

(** ** The codes that are processed *)

(** C3. Whatever the list of codes and the set of skip codes, the codes
    fetched are, in order, codes of the list that are not in the set: a
    prefix of them, and all of them when the run returns, or when the
    browser starts and every page closes. A code of the set is never
    fetched. With "A,B,C" and the set of B, the codes fetched are A then C. *)
Theorem C3_universe_minus_exclusions :
  (forall (w : world) (skipCodes : gset jsstring) (codes : jsstring) (s : runstate),
     STOCK_CODES (env w) = Some codes ->
     let universe := Str.split codes Str.comma in
     let expected :=
       List.filter (fun code => negb (bool_decide (code ∈ skipCodes))) universe in
     exists evs,
       trace (snd (processAll w skipCodes s)) = trace s ++ evs
       /\ map snd (fetchesOf evs) `prefix_of` expected
       /\ (forall code, code ∈ skipCodes -> ~ In code (map snd (fetchesOf evs)))
       /\ (fst (processAll w skipCodes s) = Ret tt -> map snd (fetchesOf evs) = expected)
       /\ (launch w = None -> (forall i, closePage w i = None) ->
           map snd (fetchesOf evs) = expected))
  /\ (forall (w : world) (s : runstate),
        STOCK_CODES (env w) = Some (utf16 "A,B,C") ->
        launch w = None -> (forall i, closePage w i = None) ->
        exists evs,
          trace (snd (processAll w {[ utf16 "B" ]} s)) = trace s ++ evs
          /\ fetchesOf evs = [(0, utf16 "A"); (1, utf16 "C")]).
Proof.
  split.
  - intros w skipCodes codes s Hc universe expected.
    destruct (TraceFacts.processAll_fetches w skipCodes codes s Hc) as (evs & Ht & Hf & Hret).
    fold universe in Hf, Hret. change (stockCodesOf universe skipCodes) with expected in Hf, Hret.
    exists evs. split; [exact Ht|].
    assert (Hpre : map snd (fetchesOf evs) `prefix_of` expected).
    { rewrite Hf. destruct (launch w); [apply prefix_nil|].
      destruct (PipelineFacts.reached_prefix w expected 0) as [k Hk].
      exists (map snd k). rewrite <- (PipelineFacts.indexed_codes 0 expected) at 1.
      rewrite Hk, map_app. reflexivity. }
    split; [exact Hpre|]. split; [|split].
    + intros code Hin Hfetched. destruct Hpre as [k Hk].
      assert (Hexp : In code expected) by (rewrite Hk; apply in_or_app; auto).
      apply filter_In in Hexp as [_ Hno].
      apply negb_true_iff, bool_decide_eq_false in Hno. contradiction.
    + intros Hr. destruct (Hret Hr) as [Hl Hloop]. rewrite Hf, Hl.
      rewrite (PipelineFacts.reached_all w expected 0 Hloop).
      apply PipelineFacts.indexed_codes.
    + intros Hl Hclose. rewrite Hf, Hl.
      rewrite (PipelineFacts.reached_all w expected 0
                 (PipelineFacts.loopOutcome_closes w expected Hclose 0)).
      apply PipelineFacts.indexed_codes.
  - intros w s Hc Hl Hclose.
    destruct (TraceFacts.processAll_fetches w {[ utf16 "B" ]} _ s Hc) as (evs & Ht & Hf & _).
    exists evs. split; [exact Ht|]. rewrite Hf, Hl.
    rewrite (PipelineFacts.reached_all w _ 0 (PipelineFacts.loopOutcome_closes w _ Hclose 0)).
    vm_compute. reflexivity.
Qed.

Lemma C3_universe_minus_exclusions_witness :
  exists evs,
    trace (snd (processAll (quietWorld (settings "A,B,C" "15") undervalued)
                  {[ utf16 "B" ]} (startOfRun None))) = [] ++ evs
    /\ fetchesOf evs = [(0, utf16 "A"); (1, utf16 "C")].
Proof.
  exact (proj2 C3_universe_minus_exclusions
           (quietWorld (settings "A,B,C" "15") undervalued) (startOfRun None)
           eq_refl eq_refl (fun _ => eq_refl)).
Defined.

(** ** The skip list grows *)

Module AppendFacts.
Import PipelineFacts DispatchFacts RunFacts ShapeFacts TraceFacts.

Lemma file_of_appends w :
  (forall i, appendFault w i = None) ->
  forall items base,
    fold_left (fun f ic => itemFile w ic.1 ic.2 f) items base
    = fold_left appendText (flat_map (fun ic => itemAppends w ic.1 ic.2) items) base.
Proof.
  intros Hf. induction items as [|[i c] items IH]; intros base; [reflexivity|].
  cbn [fold_left flat_map fst snd]. rewrite fold_left_app, IH. f_equal.
  unfold itemFile, itemAppends, appendRejected. rewrite Hf.
  destruct (targetUnavailable (fetch w i c)); reflexivity.
Qed.

Lemma run_appends w file :
  let final := snd (run w file) in
  appendsOf (trace final)
  = flat_map (fun ic => itemAppends w ic.1 ic.2) (fetchesOf (trace final))
  /\ ((forall i, appendFault w i = None) ->
      skipFile final = fold_left appendText (appendsOf (trace final)) (afterReset w file)).
Proof.
  cbv zeta. destruct (run_shaped w file)
    as (pre & items & tail & Ht & Hpre & Htail & _ & _ & Hfile & _).
  destruct (prelude_quiet pre Hpre) as (Hp1 & Hp2 & _).
  destruct (tail_quiet _ _ tail Htail) as (Ht1 & Ht2).
  rewrite Ht, !appendsOf_app, !fetchesOf_app, Hp1, Hp2, Ht1, Ht2.
  rewrite fetchesOf_items, appendsOf_items. cbn [app]. rewrite !app_nil_r.
  split; [reflexivity|]. intros Hf. rewrite Hfile. apply file_of_appends, Hf.
Qed.

End AppendFacts.

(** C7. In every run the texts appended to [skip-list.txt] are, in order,
    one line with the code for each code fetched whose page came back with
    the marker of a missing target price, and nothing for the other codes:
    a code fetched twice is appended twice, a code whose fetch failed is
    not appended. When no append is refused the file ends as the file after
    the reset followed by these lines. The marker of a missing target is
    not the marker of an error. *)
Theorem C7_unavailable_target_appended (w : world) (file : option jsstring) :
  let final := snd (run w file) in
  appendsOf (trace final)
  = flat_map (fun ic =>
      match fetch w ic.1 ic.2 with
      | Extracted stockData =>
          if bool_decide (targetPrice stockData = noTargetPrice)
          then [ic.2 ++ [Str.newline]] else []
      | _ => []
      end) (fetchesOf (trace final))
  /\ ((forall i, appendFault w i = None) ->
      skipFile final = fold_left appendText (appendsOf (trace final)) (afterReset w file))
  /\ noTargetPrice <> errorMark.
Proof.
  cbv zeta. destruct (AppendFacts.run_appends w file) as [Ha Hf].
  split; [|split; [exact Hf|discriminate]].
  rewrite Ha. apply flat_map_ext. intros [i c]. cbn [fst snd].
  unfold itemAppends, targetUnavailable. destruct (fetch w i c); reflexivity.
Qed.

Lemma C7_unavailable_target_appended_witness :
  skipFile (snd (run (quietWorld (settings "A,B" "15") withoutTarget) None))
  = Some (utf16 "A" ++ Str.newline :: utf16 "B" ++ [Str.newline]).
Proof.
  rewrite (proj1 (proj2 (C7_unavailable_target_appended
                           (quietWorld (settings "A,B" "15") withoutTarget) None))
             (fun _ => eq_refl)).
  vm_compute. reflexivity.
Defined.

(** ** No threshold, no alert *)

Module ThresholdFacts.
Import PipelineFacts DispatchFacts RunFacts ShapeFacts TraceFacts.

Lemma unset_is_NaN e : PRICE_GAP_PERCENTAGE e = None -> F64.isNaN (gapPercentage e) = true.
Proof. intros H. unfold gapPercentage. rewrite H. reflexivity. Qed.

Lemma analysis_NaN e code stockData :
  F64.isNaN (gapPercentage e) = true -> analysis e code stockData = None.
Proof. intros H. unfold analysis. rewrite H. reflexivity. Qed.

Lemma no_candidates w items :
  F64.isNaN (gapPercentage (env w)) = true ->
  flat_map (fun ic => itemCandidates w ic.1 ic.2) items = [].
Proof.
  intros H. induction items as [|[i c] items IH]; [reflexivity|].
  cbn [flat_map fst snd]. rewrite IH, app_nil_r. unfold itemCandidates.
  destruct (fetch w i c); try reflexivity.
  rewrite analysis_NaN by assumption. destruct (appendRejected w i c); reflexivity.
Qed.

End ThresholdFacts.

(** C10. When the threshold is unset, or [parseFloat] finds no number in
    it, the analysis yields no candidate for any stock, the batch of the
    run stays empty and no message is posted. *)
Theorem C10_no_threshold_no_alert (w : world) (file : option jsstring) :
  PRICE_GAP_PERCENTAGE (env w) = None \/ F64.isNaN (gapPercentage (env w)) = true ->
  (forall code stockData, analysis (env w) code stockData = None)
  /\ notificationBatch (snd (run w file)) = []
  /\ postsOf (trace (snd (run w file))) = [].
Proof.
  intros H.
  assert (Hnan : F64.isNaN (gapPercentage (env w)) = true)
    by (destruct H; [apply ThresholdFacts.unset_is_NaN|]; assumption).
  split; [intros; apply ThresholdFacts.analysis_NaN, Hnan|].
  destruct (ShapeFacts.run_shaped w file)
    as (pre & items & tail & Ht & Hpre & Htail & _ & Hperm & _ & Hposts).
  rewrite (ThresholdFacts.no_candidates w items Hnan) in Hperm.
  apply Permutation_nil in Hperm. split; [exact Hperm|].
  destruct (TraceFacts.prelude_quiet pre Hpre) as (_ & _ & Hp).
  rewrite Ht, !PipelineFacts.postsOf_app, Hp, PipelineFacts.postsOf_items, (Hposts Hperm).
  reflexivity.
Qed.

Lemma C10_no_threshold_no_alert_witness :
  notificationBatch (snd (run (quietWorld (noThreshold "A,B") undervalued) None)) = []
  /\ postsOf (trace (snd (run (quietWorld (noThreshold "A,B") undervalued) None))) = [].
Proof.
  exact (proj2 (C10_no_threshold_no_alert (quietWorld (noThreshold "A,B") undervalued) None
                  (or_introl eq_refl))).
Defined.

(** ** The title of a message *)

(** C6 (as amended). Every message posted in a run carries one of the
    batches of the sorted candidates, of at most five, and its title is
    made of the time stamp taken for that message, the label, and the
    number of candidates of that batch. *)
Theorem C6_title_counts_the_batch (w : world) (file : option jsstring) :
  let final := snd (run w file) in
  forall title stocks,
    In (title, stocks) (postsOf (trace final)) ->
    exists i,
      stocks = batchAt (notificationBatch final) i
      /\ title = titlePrefix ++ getKSTTimestamp w i ++ titleLabel
                 ++ Str.decimal (length stocks) ++ titleSuffix
      /\ length stocks <= BATCH_SIZE.
Proof.
  cbv zeta. intros title stocks Hin.
  destruct (ShapeFacts.run_shaped w file)
    as (pre & items & tail & Ht & Hpre & Htail & _ & _ & _ & _).
  destruct (TraceFacts.prelude_quiet pre Hpre) as (_ & _ & Hp).
  rewrite Ht, !PipelineFacts.postsOf_app, Hp, PipelineFacts.postsOf_items in Hin.
  cbn [app] in Hin.
  destruct (TraceFacts.tail_posts w _ tail Htail title stocks Hin) as (i & Hs & Htitle).
  exists i. split; [exact Hs|]. split; [exact Htitle|].
  rewrite Hs, DispatchFacts.batchAt_length. apply Nat.le_min_l.
Qed.

Lemma C6_title_counts_the_batch_witness :
  exists i,
    map exampleCandidate ["A"; "B"; "C"; "D"; "E"]%string
    = batchAt (notificationBatch
                 (snd (run (quietWorld (settings "A,B,C,D,E,F" "15") undervalued) None))) i
    /\ titleFor exampleTimestamp 5
       = titlePrefix ++ exampleTimestamp ++ titleLabel
         ++ Str.decimal (length (map exampleCandidate ["A"; "B"; "C"; "D"; "E"]%string))
         ++ titleSuffix
    /\ length (map exampleCandidate ["A"; "B"; "C"; "D"; "E"]%string) <= BATCH_SIZE.
Proof.
  apply (C6_title_counts_the_batch
           (quietWorld (settings "A,B,C,D,E,F" "15") undervalued) None
           (titleFor exampleTimestamp 5)
           (map exampleCandidate ["A"; "B"; "C"; "D"; "E"]%string)).
  vm_compute. left. reflexivity.
Defined.

(** C6 as stated fails: six candidates are found in the run, the first
    message carries five of them and its title says 5, not 6. *)
Lemma C6_title_is_not_the_total :
  let final := snd (run (quietWorld (settings "A,B,C,D,E,F" "15") undervalued) None) in
  length (notificationBatch final) = 6
  /\ map (fun p => (p.1, length p.2)) (postsOf (trace final))
     = [(titleFor exampleTimestamp 5, 5); (titleFor exampleTimestamp 1, 1)]
  /\ ~ Forall (fun p => p.1 = titleFor exampleTimestamp 6) (postsOf (trace final)).
Proof.
  vm_compute. split; [reflexivity|]. split; [reflexivity|].
  intros H. inversion H as [|? ? Hhead _]. discriminate Hhead.
Qed.

(** ** A failing item *)

Module IsolationFacts.
Import PipelineFacts DispatchFacts RunFacts ShapeFacts TraceFacts.

(** A run whose reset and load do not fail is [processAll] on the loaded
    set. *)
Lemma run_loaded w file :
  unlinkFault w = None -> readFault w = None ->
  run w file =
  processAll w (loadedSkipCodes w file)
    (extend (withFile (startOfRun file) (afterReset w file))
       ((if isFirstMonday w then [EUnlink] else []) ++ [EReadFile])).
Proof.
  intros Hu Hr. unfold run, scrapeStockData, loadedSkipCodes, afterReset.
  unfold bind at 1. rewrite reset_spec, Hu.
  destruct (isFirstMonday w); unfold bind at 1; rewrite load_spec, Hr;
    cbn [skipFile extend withFile startOfRun]; reflexivity.
Qed.

Lemma run_results w file :
  let final := snd (run w file) in
  results final = flat_map (fun ic => itemRows w ic.1 ic.2) (fetchesOf (trace final)).
Proof.
  cbv zeta. destruct (run_shaped w file)
    as (pre & items & tail & Ht & Hpre & Htail & Hres & _).
  destruct (prelude_quiet pre Hpre) as (Hp & _ & _).
  destruct (tail_quiet _ _ tail Htail) as (Hq & _).
  rewrite Ht, !fetchesOf_app, Hp, Hq, fetchesOf_items, app_nil_r. exact Hres.
Qed.

Lemma processAll_completes w skipCodes codes s :
  STOCK_CODES (env w) = Some codes ->
  launch w = None -> (forall i, closePage w i = None) -> closeBrowser w = None ->
  (forall i, postMessage w i = None) ->
  fst (processAll w skipCodes s) = Ret tt.
Proof.
  intros Hc Hl Hclose Hb Hp. rewrite (processAll_spec w skipCodes codes s Hc). cbv zeta.
  rewrite Hl, (loopOutcome_closes w _ Hclose 0), Hb. apply dispatch_returns, Hp.
Qed.

End IsolationFacts.

(** C9. An item whose fetch fails, or whose append to the skip list is
    refused, ends normally once its page is closed: a row with the code and
    the marker of an error in the four other fields is added to the
    results, and in the first case nothing else changes but the trace. The
    marker differs from the four markers of a missing field. Every code
    fetched whose fetch failed has such a row at the end of the run. When
    nothing but fetches and appends fails, the run fetches every code left
    after the skip codes and returns. *)
Theorem C9_item_failure_isolated :
  (forall (w : world) (index : nat) (code : jsstring) (s : runstate),
     isExtracted (fetch w index code) = false -> closePage w index = None ->
     exists evs,
       processItem w index code s =
       (Ret tt, {| skipFile := skipFile s;
                   results := results s ++ [errorRow code];
                   notificationBatch := notificationBatch s;
                   trace := trace s ++ EFetch index code :: evs |})
       /\ fetchesOf evs = [])
  /\ (forall (w : world) (index : nat) (code : jsstring) (s : runstate) stockData error,
        fetch w index code = Extracted stockData ->
        targetPrice stockData = noTargetPrice ->
        appendFault w index = Some error -> closePage w index = None ->
        fst (processItem w index code s) = Ret tt
        /\ results (snd (processItem w index code s))
           = results s ++ [{| row_code := code; row_data := stockData |}; errorRow code])
  /\ (forall code,
        errorRow code =
        {| row_code := code;
           row_data := {| name := errorMark; currentPrice := errorMark;
                          targetPrice := errorMark; marketCap := errorMark |} |})
  /\ ~ In errorMark [noName; noCurrentPrice; noTargetPrice; noMarketCap]
  /\ (forall (w : world) (file : option jsstring) index code,
        In (index, code) (fetchesOf (trace (snd (run w file)))) ->
        isExtracted (fetch w index code) = false ->
        In (errorRow code) (results (snd (run w file))))
  /\ (forall (w : world) (file : option jsstring) codes,
        STOCK_CODES (env w) = Some codes ->
        unlinkFault w = None -> readFault w = None -> launch w = None ->
        (forall i, closePage w i = None) -> closeBrowser w = None ->
        (forall i, postMessage w i = None) ->
        fst (run w file) = Ret tt
        /\ map snd (fetchesOf (trace (snd (run w file))))
           = stockCodesOf (Str.split codes Str.comma) (loadedSkipCodes w file)).
Proof.
  split; [|split; [|split; [|split; [|split]]]].
  - intros w index code s Hf Hclose. rewrite PipelineFacts.processItem_spec.
    unfold itemOutcome, itemFile, itemRows, itemCandidates, itemEvents, itemOutcome,
      itemAppends, appendRejected, targetUnavailable.
    rewrite Hclose. destruct (fetch w index code) as [e|e|sd]; try discriminate;
      cbn [pageCreated andb map app]; rewrite app_nil_r; eexists; (split; [reflexivity|]);
      reflexivity.
  - intros w index code s sd e Hf Ht Ha Hclose. rewrite PipelineFacts.processItem_spec.
    cbn [fst snd results]. unfold itemOutcome, itemRows, appendRejected, targetUnavailable.
    rewrite Hf, Ha, Hclose, Ht, bool_decide_eq_true_2 by reflexivity. split; reflexivity.
  - reflexivity.
  - cbn. intros [H|[H|[H|[H|[]]]]]; discriminate H.
  - intros w file index code Hin Hf. rewrite IsolationFacts.run_results.
    apply in_flat_map. exists (index, code). split; [exact Hin|].
    cbn [fst snd]. unfold itemRows. destruct (fetch w index code); try discriminate; left;
      reflexivity.
  - intros w file codes Hc Hu Hr Hl Hclose Hb Hp.
    rewrite (IsolationFacts.run_loaded w file Hu Hr).
    split; [apply (IsolationFacts.processAll_completes w _ codes); assumption|].
    destruct (TraceFacts.processAll_fetches w (loadedSkipCodes w file) codes
                (extend (withFile (startOfRun file) (afterReset w file))
                   ((if isFirstMonday w then [EUnlink] else []) ++ [EReadFile])) Hc)
      as (evs & Ht & Hf & _).
    rewrite Ht, PipelineFacts.fetchesOf_app, Hf, Hl.
    rewrite (PipelineFacts.reached_all w _ 0 (PipelineFacts.loopOutcome_closes w _ Hclose 0)).
    cbn [trace extend withFile startOfRun app].
    replace (fetchesOf ((if isFirstMonday w then [EUnlink] else []) ++ [EReadFile]))
      with (@nil (nat * jsstring)) by (destruct (isFirstMonday w); reflexivity).
    apply PipelineFacts.indexed_codes.
Qed.

Lemma C9_item_failure_isolated_witness :
  fst (run (quietWorld (settings "A,B,C" "15") secondFails) None) = Ret tt
  /\ map snd (fetchesOf (trace (snd (run (quietWorld (settings "A,B,C" "15") secondFails) None))))
     = [utf16 "A"; utf16 "B"; utf16 "C"].
Proof.
  exact (proj2 (proj2 (proj2 (proj2 (proj2 C9_item_failure_isolated))))
           (quietWorld (settings "A,B,C" "15") secondFails) None (utf16 "A,B,C")
           eq_refl eq_refl eq_refl eq_refl (fun _ => eq_refl) eq_refl (fun _ => eq_refl)).
Defined.

(** ** The file of skip codes *)

Module FileFacts.
Import Str StrFacts PipelineFacts DispatchFacts RunFacts ShapeFacts TraceFacts.

Lemma split_go_not_nil c cur s : split_go c cur s <> [].
Proof.
  revert cur. induction s as [|x s IH]; intros cur; cbn [split_go]; [discriminate|].
  destruct (x =? c)%N; [discriminate|apply IH].
Qed.

Lemma join_split_go c s : forall cur, join c (split_go c cur s) = reverse cur ++ s.
Proof.
  induction s as [|x s IH]; intros cur; cbn [split_go].
  - cbn. rewrite app_nil_r. reflexivity.
  - destruct (N.eqb_spec x c) as [->|Hx].
    + pose proof (split_go_not_nil c [] s) as Hne. specialize (IH []).
      destruct (split_go c [] s) as [|p ps]; [contradiction|].
      cbn [join] in *. rewrite IH. reflexivity.
    + rewrite IH, reverse_cons, <- app_assoc. reflexivity.
Qed.

Lemma join_split s c : join c (split s c) = s.
Proof. unfold split. rewrite join_split_go. reflexivity. Qed.

Lemma includes_reverse s c : includes (reverse s) c = includes s c.
Proof.
  induction s as [|x s IH]; [reflexivity|].
  rewrite reverse_cons, includes_app, IH, includes_cons. cbn. rewrite orb_false_r.
  apply orb_comm.
Qed.

Lemma split_go_pieces c s :
  forall cur, includes cur c = false ->
              Forall (fun p => includes p c = false) (split_go c cur s).
Proof.
  induction s as [|x s IH]; intros cur Hcur; cbn [split_go].
  - constructor; [|constructor]. rewrite includes_reverse. exact Hcur.
  - destruct (N.eqb_spec x c) as [->|Hx].
    + constructor; [rewrite includes_reverse; exact Hcur|]. apply IH. reflexivity.
    + apply IH. rewrite includes_cons, Hcur, orb_false_r.
      apply N.eqb_neq. congruence.
Qed.

Lemma split_pieces s c : Forall (fun p => includes p c = false) (split s c).
Proof. apply split_go_pieces. reflexivity. Qed.

Lemma skipCodesOf_spec text code :
  code ∈ skipCodesOf text <-> In code (split text newline) /\ trim code <> [].
Proof.
  unfold skipCodesOf. rewrite elem_of_list_to_set, list_elem_of_In, filter_In.
  unfold notBlank. rewrite negb_true_iff, bool_decide_eq_false. reflexivity.
Qed.

End FileFacts.

(** C8 (as amended). On the first Monday the deletion of a missing
    [skip-list.txt] does nothing, and loading a missing file gives the
    empty set; neither raises. Loading a file gives the set of its lines,
    taken between the newlines, that are not blank. Another failure of the
    deletion or of the load, one that is not the error of a missing file,
    ends the run with that error before any code is fetched. A refused
    append does not: it is caught with the item, whose iteration ends
    normally with the file as it was and with the error row recorded
    after the row of the page; and the run goes on to fetch every code and
    returns, whatever the appends do, when nothing else fails. *)
Theorem C8_skip_list_file :
  (forall w s, isFirstMonday w = true -> unlinkFault w = None -> skipFile s = None ->
     resetSkipList w s = (Ret tt, extend s [EUnlink]))
  /\ (forall w s, readFault w = None -> skipFile s = None ->
        loadSkipCodes w s = (Ret ∅, extend s [EReadFile]))
  /\ (forall w s text, readFault w = None -> skipFile s = Some text ->
        loadSkipCodes w s = (Ret (skipCodesOf text), extend s [EReadFile]))
  /\ (forall text code,
        code ∈ skipCodesOf text
        <-> In code (Str.split text Str.newline) /\ Str.trim code <> [])
  /\ (forall text,
        join Str.newline (Str.split text Str.newline) = text
        /\ Forall (fun line => Str.includes line Str.newline = false)
             (Str.split text Str.newline))
  /\ (forall w file error,
        isFirstMonday w = true -> unlinkFault w = Some error -> error <> Errno ENOENT ->
        run w file = (Throw error, extend (startOfRun file) [EUnlink]))
  /\ (forall w file error,
        unlinkFault w = None -> readFault w = Some error -> error <> Errno ENOENT ->
        fst (run w file) = Throw error
        /\ trace (snd (run w file))
           = (if isFirstMonday w then [EUnlink] else []) ++ [EReadFile])
  /\ (forall w index code s stockData error,
        fetch w index code = Extracted stockData ->
        targetPrice stockData = noTargetPrice ->
        appendFault w index = Some error -> closePage w index = None ->
        fst (processItem w index code s) = Ret tt
        /\ skipFile (snd (processItem w index code s)) = skipFile s
        /\ results (snd (processItem w index code s))
           = results s ++ [{| row_code := code; row_data := stockData |}; errorRow code]
        /\ notificationBatch (snd (processItem w index code s)) = notificationBatch s)
  /\ (forall w file codes,
        STOCK_CODES (env w) = Some codes ->
        unlinkFault w = None -> readFault w = None -> launch w = None ->
        (forall i, closePage w i = None) -> closeBrowser w = None ->
        (forall i, postMessage w i = None) ->
        fst (run w file) = Ret tt
        /\ map snd (fetchesOf (trace (snd (run w file))))
           = stockCodesOf (Str.split codes Str.comma) (loadedSkipCodes w file)).
Proof.
  assert (Hother : forall error, error <> Errno ENOENT -> notENOENT error = true).
  { intros [c|what] Hne; [|reflexivity]. cbn [notENOENT].
    rewrite bool_decide_eq_false_2; [reflexivity|]. intros ->. apply Hne. reflexivity. }
  split; [|split; [|split; [|split; [|split; [|split; [|split; [|split]]]]]]].
  - intros w s Hm Hu Hf. rewrite RunFacts.reset_spec, Hm, Hu. f_equal.
    destruct s; cbn in *; subst; reflexivity.
  - intros w s Hr Hf. rewrite RunFacts.load_spec, Hr, Hf. reflexivity.
  - intros w s text Hr Hf. rewrite RunFacts.load_spec, Hr, Hf. reflexivity.
  - apply FileFacts.skipCodesOf_spec.
  - intros text. split; [apply FileFacts.join_split|apply FileFacts.split_pieces].
  - intros w file error Hm Hu Hn. apply Hother in Hn. unfold run, scrapeStockData.
    unfold bind at 1. rewrite RunFacts.reset_spec, Hm, Hu, Hn. reflexivity.
  - intros w file error Hu Hr Hn. apply Hother in Hn.
    assert (H : run w file =
                (Throw error,
                 extend (withFile (startOfRun file) (afterReset w file))
                   ((if isFirstMonday w then [EUnlink] else []) ++ [EReadFile]))).
    { unfold run, scrapeStockData, afterReset.
      unfold bind at 1. rewrite RunFacts.reset_spec, Hu.
      destruct (isFirstMonday w); unfold bind at 1; rewrite RunFacts.load_spec, Hr, Hn;
        reflexivity. }
    rewrite H. split; reflexivity.
  - intros w index code s sd e Hf Ht Ha Hclose. rewrite PipelineFacts.processItem_spec.
    cbn [fst snd skipFile results notificationBatch].
    unfold itemOutcome, itemFile, itemRows, itemCandidates, appendRejected, targetUnavailable.
    rewrite Hf, Ha, Hclose, Ht, bool_decide_eq_true_2 by reflexivity.
    cbn [pageCreated andb negb]. rewrite app_nil_r. repeat split.
  - intros w file codes Hc Hu Hr Hl Hclose Hb Hp.
    rewrite (IsolationFacts.run_loaded w file Hu Hr).
    split; [apply (IsolationFacts.processAll_completes w _ codes); assumption|].
    destruct (TraceFacts.processAll_fetches w (loadedSkipCodes w file) codes
                (extend (withFile (startOfRun file) (afterReset w file))
                   ((if isFirstMonday w then [EUnlink] else []) ++ [EReadFile])) Hc)
      as (evs & Ht & Hf & _).
    rewrite Ht, PipelineFacts.fetchesOf_app, Hf, Hl.
    rewrite (PipelineFacts.reached_all w _ 0 (PipelineFacts.loopOutcome_closes w _ Hclose 0)).
    cbn [trace extend withFile startOfRun app].
    replace (fetchesOf ((if isFirstMonday w then [EUnlink] else []) ++ [EReadFile]))
      with (@nil (nat * jsstring)) by (destruct (isFirstMonday w); reflexivity).
    apply PipelineFacts.indexed_codes.
Qed.

Lemma C8_skip_list_file_witness :
  loadSkipCodes (quietWorld (settings "A,B" "15") undervalued) (startOfRun None)
  = (Ret ∅, extend (startOfRun None) [EReadFile]).
Proof.
  exact (proj1 (proj2 C8_skip_list_file)
           (quietWorld (settings "A,B" "15") undervalued) (startOfRun None)
           eq_refl eq_refl).
Defined.

(** C8 as stated fails: every append to the file is refused with EACCES,
    an error other than the absence of the file, and the run still fetches
    both codes and returns. *)
Lemma C8_refused_append_does_not_abort :
  let final := run (readOnly (quietWorld (settings "A,B" "15") withoutTarget)) None in
  fst final = Ret tt
  /\ map snd (fetchesOf (trace (snd final))) = [utf16 "A"; utf16 "B"]
  /\ appendsOf (trace (snd final)) = [utf16 "A" ++ [Str.newline]; utf16 "B" ++ [Str.newline]]
  /\ skipFile (snd final) = None.
Proof. vm_compute. repeat split. Qed.

(** ** The order and the batches of the messages *)

Module BatchFacts.
Import DispatchFacts.

Lemma delay_but_last n k :
  k < batchCount n -> (k * BATCH_SIZE + BATCH_SIZE <? n) = (S k <? batchCount n).
Proof.
  unfold batchCount, BATCH_SIZE. intros Hk.
  pose proof (Nat.div_mod_eq (n + (5 - 1)) 5).
  pose proof (Nat.mod_upper_bound (n + (5 - 1)) 5).
  destruct (Nat.ltb_spec (k * 5 + 5) n), (Nat.ltb_spec (S k) ((n + (5 - 1)) / 5));
    try reflexivity; lia.
Qed.

Lemma batch_sizes (b : list candidate) :
  Forall (fun i => 0 < length (batchAt b i) <= BATCH_SIZE) (offsets (length b)).
Proof.
  eapply Forall_impl; [apply offsets_bounded|]. intros i Hi. cbn beta in *.
  rewrite batchAt_length. unfold BATCH_SIZE. lia.
Qed.

End BatchFacts.

(** C5. When Slack is configured and answers, and the gaps are binary64
    values other than NaN, the dispatch leaves the batch sorted by
    ascending gap, a permutation of what was accumulated, and sends it in
    consecutive batches of one to five candidates taken in that order at
    the offsets 0, 5, 10, ...; a pause of 1000 ms follows every batch but
    the last. With twelve candidates: three messages of 5, 5 and 2, and a
    pause after the first and the second. In a run the gaps accumulated are
    such values; the batch of a run that returns is sorted by ascending
    gap, and its messages are these batches one after the other. *)
Theorem C5_sorted_batches :
  (forall (w : world) (s : runstate),
     configured w = true -> (forall i, postMessage w i = None) ->
     forallb regular (notificationBatch s) = true ->
     let sorted := sort (notificationBatch s) in
     let n := length (notificationBatch s) in
     dispatch w s =
       (Ret tt, extend (withBatch s sorted) (flat_map (batchEvents w sorted) (offsets n)))
     /\ Permutation (notificationBatch s) sorted
     /\ StronglySorted gap_le sorted
     /\ concat (map (batchAt sorted) (offsets n)) = sorted
     /\ Forall (fun i => 0 < length (batchAt sorted i) <= BATCH_SIZE) (offsets n)
     /\ (forall k, k < batchCount n ->
           batchEvents w sorted (k * BATCH_SIZE)
           = postEvent w (k * BATCH_SIZE) (batchAt sorted (k * BATCH_SIZE))
             :: (if S k <? batchCount n then [ESleep 1000] else []))
     /\ (n = 12 ->
         flat_map (batchEvents w sorted) (offsets n)
         = [postEvent w 0 (batchAt sorted 0); ESleep 1000;
            postEvent w 5 (batchAt sorted 5); ESleep 1000;
            postEvent w 10 (batchAt sorted 10)]
         /\ map (fun i => length (batchAt sorted i)) (offsets n) = [5; 5; 2]))
  /\ (forall (w : world) (file : option jsstring),
        let final := snd (run w file) in
        forallb regular (notificationBatch final) = true
        /\ (fst (run w file) = Ret tt -> StronglySorted gap_le (notificationBatch final))
        /\ (configured w = true -> (forall i, postMessage w i = None) ->
            fst (run w file) = Ret tt ->
            postsOf (trace final)
            = map (fun i =>
                     (messageTitle (getKSTTimestamp w i) (batchAt (notificationBatch final) i),
                      batchAt (notificationBatch final) i))
                (offsets (length (notificationBatch final))))).
Proof.
  split.
  - intros w s Hc Hp Hreg sorted n.
    assert (Hlen : length sorted = n) by apply DispatchFacts.sort_length.
    split; [apply DispatchFacts.dispatch_spec; assumption|].
    split; [apply DispatchFacts.sort_perm|].
    split.
    { apply DispatchFacts.sort_sorted. apply List.Forall_forall. intros c Hin.
      rewrite forallb_forall in Hreg. apply Hreg, Hin. }
    split; [rewrite <- Hlen; apply DispatchFacts.offsets_concat|].
    split; [rewrite <- Hlen; apply BatchFacts.batch_sizes|].
    split.
    { intros k Hk. unfold batchEvents. rewrite Hlen, BatchFacts.delay_but_last by assumption.
      reflexivity. }
    intros Hn. rewrite Hn. change (offsets 12) with [0; 5; 10].
    cbn [map flat_map app]. unfold batchEvents. rewrite Hlen, Hn.
    split; [reflexivity|].
    rewrite !DispatchFacts.batchAt_length, Hlen, Hn. reflexivity.
  - intros w file final. split; [|split].
    + apply forallb_forall. apply List.Forall_forall. apply ReturnFacts.run_regular.
    + apply ReturnFacts.run_sorted.
    + apply ReturnFacts.run_posts.
Qed.

Lemma C5_sorted_batches_witness :
  map (fun e => match e with
                | EPostMessage _ _ stocks => map gap stocks
                | _ => []
                end)
    (trace (snd (dispatch (quietWorld (settings "A" "15") undervalued)
                   (withBatch (startOfRun None) twelve))))
  = [map F64.of_Z [19; 20; 21; 22; 23]%Z; []; map F64.of_Z [24; 25; 26; 27; 28]%Z; [];
     map F64.of_Z [29; 30]%Z].
Proof.
  rewrite (proj1 (proj1 C5_sorted_batches (quietWorld (settings "A" "15") undervalued)
                    (withBatch (startOfRun None) twelve)
                    eq_refl (fun _ => eq_refl) eq_refl)).
  vm_compute. reflexivity.
Defined.

(** ** The cron handler *)

Module SchedulerFacts.

Lemma trigger_guarded w s : guarded s -> guarded (trigger w s).
Proof.
  intros [Hlen Hidle]. unfold trigger, guarded.
  destruct (isScraping s) eqn:Hg; cbn [running isScraping].
  - split; [exact Hlen|]. discriminate.
  - rewrite (Hidle eq_refl). split; [cbn; lia|discriminate].
Qed.

Lemma settle_fields w others s :
  isScraping (settle w others s) = false
  /\ running (settle w others s) = others
  /\ invocations (settle w others s) = invocations s
  /\ file (settle w others s) = skipFile (snd (run w (file s)))
  /\ console (settle w others s)
     = console s
       ++ match fst (run w (file s)) with
          | Throw error => [MTopLevelError error]
          | Ret _ => []
          end
       ++ [MFinished].
Proof. unfold settle. destruct (run w (file s)) as [r final]. repeat split. Qed.

Lemma settle_guarded w before after s :
  running s = before ++ w :: after -> guarded s -> guarded (settle w (before ++ after) s).
Proof.
  intros Hr [Hlen _]. destruct (settle_fields w (before ++ after) s) as (Hg & Hrun & _).
  unfold guarded. rewrite Hrun. rewrite Hr, length_app in Hlen. cbn [length] in Hlen.
  destruct before, after; cbn in Hlen; try lia. split; [cbn; lia|reflexivity].
Qed.

Lemma reachable_guarded f s : reachable f s -> guarded s.
Proof.
  induction 1 as [|s s' _ IH Hstep].
  - split; [cbn; lia|reflexivity].
  - destruct Hstep as [w s|w before after s Hr].
    + apply trigger_guarded, IH.
    + apply settle_guarded; assumption.
Qed.

End SchedulerFacts.

(** C2. [isScraping] is the one flag of the handler. A trigger that finds
    it set starts no run: the number of calls of [scrapeStockData] and the
    runs going on are the same, the flag stays set and the skip is logged.
    A trigger that finds it clear sets it and starts one run. When a run
    settles the flag is cleared, whether the run returned or threw, and an
    error thrown is logged. In every state the scheduler reaches at most
    one run is going on, and none when the flag is clear; every trigger is
    handled there, so after a run that threw the next trigger starts a run. *)
Theorem C2_run_guard :
  (forall w s, isScraping s = true ->
     invocations (trigger w s) = invocations s
     /\ running (trigger w s) = running s
     /\ isScraping (trigger w s) = true
     /\ file (trigger w s) = file s
     /\ console (trigger w s) = console s ++ [MStarting; MSkipped])
  /\ (forall w s, isScraping s = false ->
        invocations (trigger w s) = S (invocations s)
        /\ running (trigger w s) = w :: running s
        /\ isScraping (trigger w s) = true
        /\ console (trigger w s) = console s ++ [MStarting])
  /\ (forall w others s,
        isScraping (settle w others s) = false
        /\ running (settle w others s) = others
        /\ invocations (settle w others s) = invocations s
        /\ file (settle w others s) = skipFile (snd (run w (file s)))
        /\ console (settle w others s)
           = console s
             ++ match fst (run w (file s)) with
                | Throw error => [MTopLevelError error]
                | Ret _ => []
                end
             ++ [MFinished])
  /\ (forall f s, reachable f s ->
        length (running s) <= 1 /\ (isScraping s = false -> running s = []))
  /\ (forall f s w, reachable f s -> reachable f (trigger w s))
  /\ (forall f s w before after w' error,
        reachable f s -> running s = before ++ w :: after ->
        fst (run w (file s)) = Throw error ->
        let s' := settle w (before ++ after) s in
        reachable f s'
        /\ In (MTopLevelError error) (console s')
        /\ running (trigger w' s') = [w']
        /\ invocations (trigger w' s') = S (invocations s)).
Proof.
  split; [|split; [|split; [|split; [|split]]]].
  - intros w s Hg. unfold trigger. rewrite Hg. repeat split.
  - intros w s Hg. unfold trigger. rewrite Hg. repeat split.
  - apply SchedulerFacts.settle_fields.
  - apply SchedulerFacts.reachable_guarded.
  - intros f s w Hs. eapply reachable_step; [exact Hs|constructor].
  - intros f s w before after w' error Hs Hr Hthrow s'.
    assert (Hs' : reachable f s')
      by (eapply reachable_step; [exact Hs|apply step_settle, Hr]).
    destruct (SchedulerFacts.settle_fields w (before ++ after) s) as (Hg & Hrun & Hinv & _ & Hcon).
    fold s' in Hg, Hrun, Hinv, Hcon. rewrite Hthrow in Hcon.
    destruct (SchedulerFacts.reachable_guarded f s' Hs') as [_ Hidle].
    split; [exact Hs'|]. split.
    + rewrite Hcon. apply in_or_app. right. left. reflexivity.
    + unfold trigger. rewrite Hg. cbn [running invocations].
      rewrite (Hidle Hg), Hinv. split; reflexivity.
Qed.

Lemma C2_run_guard_witness :
  length (running (trigger (quietWorld (settings "B" "15") undervalued)
                     (trigger (quietWorld (settings "A" "15") undervalued)
                        (startOfScheduler None)))) <= 1.
Proof.
  exact (proj1 (proj1 (proj2 (proj2 (proj2 C2_run_guard))) None _
           (reachable_step None _ _
              (reachable_step None _ _ (reachable_start None) (step_trigger _ _))
              (step_trigger _ _)))).
Defined.

(** ** The skip list from one run to the next *)

Module SkipListFacts.
Import Str StrFacts FileFacts PipelineFacts ShapeFacts TraceFacts.

Lemma split_go_app c a b :
  forall cur, split_go c cur (a ++ c :: b) = split_go c cur a ++ split b c.
Proof.
  induction a as [|x a IH]; intros cur; cbn [app split_go].
  - rewrite N.eqb_refl. reflexivity.
  - destruct (x =? c)%N; [cbn [app]; f_equal|]; apply IH.
Qed.

Lemma split_app a b c : split (a ++ c :: b) c = split a c ++ split b c.
Proof. apply split_go_app. Qed.

Lemma skipCodesOf_app a b :
  skipCodesOf (a ++ newline :: b) = skipCodesOf a ∪ skipCodesOf b.
Proof.
  unfold skipCodesOf. rewrite split_app, List.filter_app. apply list_to_set_app_L.
Qed.

Lemma skipCodesOf_nil : skipCodesOf [] = ∅.
Proof. reflexivity. Qed.

Lemma skipCodesOf_line code :
  includes code newline = false ->
  skipCodesOf code = if notBlank code then {[ code ]} else ∅.
Proof.
  intros H. unfold skipCodesOf. rewrite (split_without _ _ H). cbn [List.filter].
  destruct (notBlank code); cbn; [apply (right_id_L ∅ (∪))|reflexivity].
Qed.

Lemma terminated_inv text :
  terminated (Some text) = true -> text = [] \/ exists t, text = t ++ [newline].
Proof.
  unfold terminated. destruct (reverse text) as [|x r] eqn:Hr.
  - intros _. left. apply (f_equal reverse) in Hr. rewrite reverse_involutive in Hr. exact Hr.
  - intros Hx. apply N.eqb_eq in Hx. subst x. right. exists (reverse r).
    apply (f_equal reverse) in Hr. rewrite reverse_involutive, reverse_cons in Hr. exact Hr.
Qed.

Lemma terminated_append f text :
  terminated (appendText f (text ++ [newline])) = true.
Proof.
  unfold appendText, terminated. destruct f as [old|].
  - rewrite app_assoc, reverse_app. reflexivity.
  - rewrite reverse_app. reflexivity.
Qed.

(** Appending a line to a file that ends with a newline adds the codes of
    that line. *)
Lemma skipCodesIn_append f line :
  terminated f = true ->
  skipCodesIn (appendText f (line ++ [newline])) = skipCodesIn f ∪ skipCodesOf line.
Proof.
  intros Hf. destruct f as [text|]; cbn [appendText skipCodesIn].
  - destruct (terminated_inv text Hf) as [->|[t ->]].
    + cbn [app]. change (line ++ [newline]) with (line ++ newline :: []).
      rewrite skipCodesOf_app, skipCodesOf_nil.
      rewrite union_empty_r_L, union_empty_l_L. reflexivity.
    + rewrite <- !app_assoc. cbn [app].
      rewrite (skipCodesOf_app t (line ++ [newline])).
      change (line ++ [newline]) with (line ++ newline :: []).
      rewrite !skipCodesOf_app, skipCodesOf_nil, !union_empty_r_L. reflexivity.
  - change (line ++ [newline]) with (line ++ newline :: []).
    rewrite skipCodesOf_app, skipCodesOf_nil.
    rewrite union_empty_r_L, union_empty_l_L. reflexivity.
Qed.

Lemma itemFile_terminated w i c f :
  terminated f = true -> terminated (itemFile w i c f) = true.
Proof.
  intros Hf. unfold itemFile. destruct (_ && _); [apply terminated_append|exact Hf].
Qed.

Lemma items_terminated w items :
  forall f, terminated f = true ->
            terminated (fold_left (fun f ic => itemFile w ic.1 ic.2 f) items f) = true.
Proof.
  induction items as [|[i c] items IH]; intros f Hf; cbn [fold_left]; [exact Hf|].
  apply IH, itemFile_terminated, Hf.
Qed.

Lemma items_skipCodes w items :
  forall f, terminated f = true ->
    skipCodesIn (fold_left (fun f ic => itemFile w ic.1 ic.2 f) items f)
    = skipCodesIn f ∪ ⋃ (map skipCodesOf (markedBy w items)).
Proof.
  induction items as [|[i c] items IH]; intros f Hf; cbn [fold_left].
  - cbn [markedBy flat_map map]. rewrite union_list_nil, union_empty_r_L. reflexivity.
  - rewrite IH by (apply itemFile_terminated, Hf).
    unfold markedBy. cbn [flat_map]. fold (markedBy w items).
    unfold itemFile. cbn [fst snd].
    destruct (targetUnavailable (fetch w i c) && negb (appendRejected w i c)).
    + rewrite skipCodesIn_append by exact Hf. cbn [app map].
      rewrite union_list_cons, (assoc_L (∪)). reflexivity.
    + cbn [app]. reflexivity.
Qed.

Lemma afterReset_terminated w file :
  terminated file = true -> terminated (afterReset w file) = true.
Proof.
  intros H. unfold afterReset. destruct (isFirstMonday w); [|exact H].
  destruct (unlinkFault w); [exact H|reflexivity].
Qed.

(** The codes a run fetches are the items of its shape. *)
Lemma shape_fetches w final pre items tail :
  trace final = pre ++ flat_map (fun ic => itemEvents w ic.1 ic.2) items ++ tail ->
  Forall preludeEvent pre -> Forall (tailEvent w (notificationBatch final)) tail ->
  fetchesOf (trace final) = items.
Proof.
  intros Ht Hpre Htail.
  destruct (prelude_quiet pre Hpre) as (Hp1 & _ & _).
  destruct (tail_quiet _ _ tail Htail) as (Ht1 & _).
  rewrite Ht, !fetchesOf_app, Hp1, Ht1, fetchesOf_items. cbn [app]. apply app_nil_r.
Qed.

Lemma run_file w file :
  skipFile (snd (run w file))
  = fold_left (fun f ic => itemFile w ic.1 ic.2 f) (fetchesOf (trace (snd (run w file))))
      (afterReset w file).
Proof.
  destruct (run_shaped w file)
    as (pre & items & tail & Ht & Hpre & Htail & _ & _ & Hfile & _).
  rewrite (shape_fetches w _ pre items tail Ht Hpre Htail). exact Hfile.
Qed.

End SkipListFacts.

Module ReachFacts.
Import Str StrFacts FileFacts PipelineFacts DispatchFacts RunFacts ShapeFacts TraceFacts ReturnFacts.

(** A run either stops before the codes are read, having only touched
    the file, or goes on with [processAll]. *)
Lemma run_reaches w file :
  (exists error, fst (run w file) = Throw error
                 /\ Forall preludeEvent (trace (snd (run w file))))
  \/ (exists skipCodes,
        run w file = processAll w skipCodes (afterLoad w file)
        /\ (readFault w = None -> skipCodes = skipCodesIn (afterReset w file))).
Proof.
  rewrite run_after_reset. cbv zeta. unfold afterLoad, afterReset.
  assert (Hload : forall s,
            let r := bind (loadSkipCodes w) (processAll w) s in
            (exists error, r = (Throw error, extend s [EReadFile]))
            \/ (exists skipCodes,
                  r = processAll w skipCodes (extend s [EReadFile])
                  /\ (readFault w = None -> skipCodes = skipCodesIn (skipFile s)))).
  { intros s. cbv zeta. unfold bind. rewrite load_spec.
    destruct (readFault w) as [e|]; [destruct (notENOENT e)|].
    - left. exists e. reflexivity.
    - right. exists ∅. split; [reflexivity|discriminate].
    - right. eexists. split; reflexivity. }
  set (s0 := startOfRun file).
  destruct (isFirstMonday w).
  - destruct (unlinkFault w) as [e|]; [destruct (notENOENT e)|].
    + left. exists e. split; [reflexivity|repeat constructor].
    + destruct (Hload (extend s0 [EUnlink])) as [[e' He]|(sc & He & H)].
      * left. exists e'. rewrite He. split; [reflexivity|repeat constructor].
      * right. exists sc. rewrite He. split; [reflexivity|exact H].
    + destruct (Hload (extend (withFile s0 None) [EUnlink])) as [[e' He]|(sc & He & H)].
      * left. exists e'. rewrite He. split; [reflexivity|repeat constructor].
      * right. exists sc. rewrite He. split; [reflexivity|exact H].
  - destruct (Hload s0) as [[e' He]|(sc & He & H)].
    + left. exists e'. rewrite He. split; [reflexivity|repeat constructor].
    + right. exists sc. rewrite He. split; [reflexivity|exact H].
Qed.

Lemma afterLoad_quiet w file :
  fetchesOf (trace (afterLoad w file)) = [] /\ postsOf (trace (afterLoad w file)) = []
  /\ ~ In ECloseBrowser (trace (afterLoad w file))
  /\ Forall (fun e => e = EUnlink \/ e = EReadFile) (trace (afterLoad w file)).
Proof.
  unfold afterLoad. cbn [trace extend withFile startOfRun app].
  destruct (isFirstMonday w); cbn [app]; (split; [reflexivity|]); (split; [reflexivity|]); split.
  - intros [H|[H|[]]]; discriminate.
  - repeat (constructor; [auto|]). constructor.
  - intros [H|[]]; discriminate.
  - repeat (constructor; [auto|]). constructor.
Qed.

(** No code of the skip set is fetched. *)
Lemma stockCodes_not_skipped (allStockCodes : list jsstring) (skipCodes : gset jsstring) code :
  code ∈ skipCodes -> ~ In code (stockCodesOf allStockCodes skipCodes).
Proof.
  intros Hin H. unfold stockCodesOf in H. apply List.filter_In in H as [_ H].
  rewrite bool_decide_eq_true_2 in H by exact Hin. discriminate.
Qed.

Lemma prefix_In {A} (l1 l2 : list A) x : l1 `prefix_of` l2 -> In x l1 -> In x l2.
Proof. intros [k ->] H. apply in_or_app. left. exact H. Qed.

Lemma reached_codes w codes index :
  map snd (reached w index codes) `prefix_of` codes.
Proof.
  rewrite <- (indexed_codes index codes) at 2.
  destruct (reached_prefix w codes index) as [k Hk]. rewrite Hk, map_app.
  apply prefix_app_r. reflexivity.
Qed.

Lemma processAll_unset w skipCodes s :
  STOCK_CODES (env w) = None -> processAll w skipCodes s = (Throw (Failure TypeError), s).
Proof. intros H. unfold processAll, bind. rewrite H. reflexivity. Qed.

Lemma processAll_unskipped w skipCodes s code :
  fetchesOf (trace s) = [] -> code ∈ skipCodes ->
  ~ In code (map snd (fetchesOf (trace (snd (processAll w skipCodes s))))).
Proof.
  intros Hs Hin. destruct (STOCK_CODES (env w)) as [codes|] eqn:Hc.
  - destruct (processAll_fetches w skipCodes codes s Hc) as (evs & Ht & Hf & _).
    rewrite Ht, fetchesOf_app, Hs, Hf. cbn [app].
    destruct (launch w); [intros []|].
    intros H. apply (prefix_In _ _ _ (reached_codes w _ 0)) in H.
    exact (stockCodes_not_skipped _ _ _ Hin H).
  - rewrite processAll_unset by exact Hc. cbn [snd]. rewrite Hs. intros [].
Qed.

Lemma run_unskipped w file code :
  readFault w = None -> code ∈ skipCodesIn (afterReset w file) ->
  ~ In code (map snd (fetchesOf (trace (snd (run w file))))).
Proof.
  intros Hr Hin.
  destruct (run_reaches w file) as [(e & _ & Hpre)|(sc & Hrun & Hsc)].
  - destruct (prelude_quiet _ Hpre) as (-> & _). intros [].
  - rewrite Hrun. apply processAll_unskipped.
    + apply afterLoad_quiet.
    + rewrite (Hsc Hr). exact Hin.
Qed.

End ReachFacts.

(** X1. Appending the line of [code] to [skip-list.txt] and loading the
    result: when the file is absent, empty or ends with a newline and
    [code] holds no newline, the skip codes are those of the file with
    [code] added, unless [code] is blank, in which case nothing is added;
    and the file ends with a newline again. *)
Theorem X1_append_then_load (f : option jsstring) (code : jsstring) :
  terminated f = true -> Str.includes code Str.newline = false ->
  skipCodesIn (appendText f (code ++ [Str.newline]))
  = skipCodesIn f ∪ (if notBlank code then {[ code ]} else ∅)
  /\ terminated (appendText f (code ++ [Str.newline])) = true.
Proof.
  intros Hf Hc. split; [|apply SkipListFacts.terminated_append].
  rewrite SkipListFacts.skipCodesIn_append by exact Hf.
  rewrite SkipListFacts.skipCodesOf_line by exact Hc. reflexivity.
Qed.

Lemma X1_append_then_load_witness :
  skipCodesIn (appendText (Some (utf16 "005930" ++ [Str.newline])) (utf16 "000660" ++ [Str.newline]))
  = skipCodesIn (Some (utf16 "005930" ++ [Str.newline]))
    ∪ (if notBlank (utf16 "000660") then {[ utf16 "000660" ]} else ∅).
Proof.
  exact (proj1 (X1_append_then_load (Some (utf16 "005930" ++ [Str.newline])) (utf16 "000660")
                  eq_refl eq_refl)).
Defined.

(** X2. A run that finds [skip-list.txt] absent, empty or ending with a
    newline leaves it so. The skip codes of the file it leaves are those
    of the file after the monthly reset together with the lines of the
    codes it appended; unless the run falls on a first Monday no skip
    code of the file is lost; and a code without newline that is not
    blank, fetched without a target price and whose append is not
    refused, is one of them. *)
Theorem X2_skip_list_after_run (w : world) (file : option jsstring) :
  terminated file = true ->
  let final := snd (run w file) in
  terminated (skipFile final) = true
  /\ skipCodesIn (skipFile final)
     = skipCodesIn (afterReset w file)
       ∪ ⋃ (map skipCodesOf (markedBy w (fetchesOf (trace final))))
  /\ (isFirstMonday w = false -> skipCodesIn file ⊆ skipCodesIn (skipFile final))
  /\ (forall index code stockData,
        In (index, code) (fetchesOf (trace final)) ->
        fetch w index code = Extracted stockData ->
        targetPrice stockData = noTargetPrice -> appendFault w index = None ->
        Str.includes code Str.newline = false -> Str.trim code <> [] ->
        code ∈ skipCodesIn (skipFile final)).
Proof.
  intros Hf final. unfold final.
  pose proof (SkipListFacts.afterReset_terminated w file Hf) as Hbase.
  assert (Hcodes : skipCodesIn (skipFile (snd (run w file)))
     = skipCodesIn (afterReset w file)
       ∪ ⋃ (map skipCodesOf (markedBy w (fetchesOf (trace (snd (run w file))))))).
  { rewrite SkipListFacts.run_file at 1. apply SkipListFacts.items_skipCodes, Hbase. }
  split; [|split; [exact Hcodes|split]].
  - rewrite SkipListFacts.run_file. apply SkipListFacts.items_terminated, Hbase.
  - intros Hm. rewrite Hcodes. unfold afterReset. rewrite Hm. apply union_subseteq_l.
  - intros index code stockData Hin Hfetch Ht Ha Hnl Hb. rewrite Hcodes.
    apply elem_of_union. right. apply elem_of_union_list.
    exists (skipCodesOf code). split.
    + apply list_elem_of_fmap. exists code. split; [reflexivity|].
      apply list_elem_of_In. unfold markedBy. apply in_flat_map.
      exists (index, code). split; [exact Hin|]. cbn [fst snd].
      unfold appendRejected, targetUnavailable. rewrite Hfetch, Ha, Ht.
      rewrite bool_decide_eq_true_2 by reflexivity. left. reflexivity.
    + rewrite SkipListFacts.skipCodesOf_line by exact Hnl. unfold notBlank.
      rewrite bool_decide_eq_false_2 by exact Hb. apply elem_of_singleton. reflexivity.
Qed.

Lemma X2_skip_list_after_run_witness :
  skipCodesIn (skipFile (snd (run (quietWorld (settings "A,B" "15") withoutTarget) None)))
  = skipCodesIn (afterReset (quietWorld (settings "A,B" "15") withoutTarget) None)
    ∪ ⋃ (map skipCodesOf
           (markedBy (quietWorld (settings "A,B" "15") withoutTarget)
              (fetchesOf (trace (snd (run (quietWorld (settings "A,B" "15") withoutTarget)
                                       None)))))).
Proof.
  exact (proj1 (proj2 (X2_skip_list_after_run (quietWorld (settings "A,B" "15") withoutTarget)
                         None eq_refl))).
Defined.

(** X3. A code that a run put on the skip list is not fetched by the
    next run, provided that the file was absent, empty or ending with a
    newline before the first run, that the code holds no newline and is
    not blank, and that the next run does not fall on a first Monday and
    can read the file. *)
Theorem X3_marked_code_is_skipped_next_time
  (w1 w2 : world) (file : option jsstring) (index : nat) (code : jsstring)
  (stockData : StockData) :
  terminated file = true ->
  In (index, code) (fetchesOf (trace (snd (run w1 file)))) ->
  fetch w1 index code = Extracted stockData ->
  targetPrice stockData = noTargetPrice -> appendFault w1 index = None ->
  Str.includes code Str.newline = false -> Str.trim code <> [] ->
  isFirstMonday w2 = false -> readFault w2 = None ->
  ~ In code (map snd (fetchesOf (trace (snd (run w2 (skipFile (snd (run w1 file)))))))).
Proof.
  intros Hf Hin Hfetch Ht Ha Hnl Hb Hm Hr.
  apply ReachFacts.run_unskipped; [exact Hr|].
  unfold afterReset. rewrite Hm.
  pose proof (SkipListFacts.afterReset_terminated w1 file Hf) as Hbase.
  rewrite SkipListFacts.run_file, SkipListFacts.items_skipCodes by exact Hbase.
  apply elem_of_union. right. apply elem_of_union_list.
  exists (skipCodesOf code). split.
  - apply list_elem_of_fmap. exists code. split; [reflexivity|].
    apply list_elem_of_In. unfold markedBy. apply in_flat_map.
    exists (index, code). split; [exact Hin|]. cbn [fst snd].
    unfold appendRejected, targetUnavailable. rewrite Hfetch, Ha, Ht.
    rewrite bool_decide_eq_true_2 by reflexivity. left. reflexivity.
  - rewrite SkipListFacts.skipCodesOf_line by exact Hnl. unfold notBlank.
    rewrite bool_decide_eq_false_2 by exact Hb. apply elem_of_singleton. reflexivity.
Qed.

Lemma X3_marked_code_is_skipped_next_time_witness :
  ~ In (utf16 "A")
      (map snd (fetchesOf (trace (snd (run (quietWorld (settings "A,B" "15") undervalued)
        (skipFile (snd (run (quietWorld (settings "A,B" "15") withoutTarget) None)))))))).
Proof.
  refine (X3_marked_code_is_skipped_next_time
            (quietWorld (settings "A,B" "15") withoutTarget)
            (quietWorld (settings "A,B" "15") undervalued) None 0 (utf16 "A")
            {| name := utf16 "S"; currentPrice := utf16 "8000";
               targetPrice := noTargetPrice; marketCap := utf16 "1억" |}
            eq_refl _ eq_refl eq_refl eq_refl eq_refl _ eq_refl eq_refl).
  - vm_compute. left. reflexivity.
  - vm_compute. discriminate.
Defined.

(** The conditions on the file and on the code are needed: after a file
    that does not end with a newline the line of the code is glued to what
    was there, and the line of an empty code is blank; both codes are
    fetched again. *)
Example mark_lost_without_the_conditions :
  skipFile (snd (run (quietWorld (settings "A" "15") withoutTarget) (Some (utf16 "X"))))
  = Some (utf16 "XA" ++ [Str.newline])
  /\ map snd (fetchesOf (trace (snd (run (quietWorld (settings "A" "15") withoutTarget)
        (skipFile (snd (run (quietWorld (settings "A" "15") withoutTarget)
                          (Some (utf16 "X"))))))))) = [utf16 "A"]
  /\ map snd (fetchesOf (trace (snd (run (quietWorld (settings "A," "15") withoutTarget)
                                      None)))) = [utf16 "A"; []]
  /\ map snd (fetchesOf (trace (snd (run (quietWorld (settings "A," "15") withoutTarget)
        (skipFile (snd (run (quietWorld (settings "A," "15") withoutTarget) None)))))))
     = [[]].
Proof. vm_compute. repeat split. Qed.

(** X4. On a first Monday, when the deletion and the load go through,
    the run ignores the skip list it found: it fetches every code of
    [STOCK_CODES] if the browser starts and the pages close, and the file
    it leaves holds the lines of this run only. *)
Theorem X4_first_monday_starts_over (w : world) (file : option jsstring) (codes : jsstring) :
  isFirstMonday w = true -> unlinkFault w = None -> readFault w = None ->
  STOCK_CODES (env w) = Some codes -> launch w = None ->
  (forall i, closePage w i = None) ->
  let final := snd (run w file) in
  map snd (fetchesOf (trace final)) = Str.split codes Str.comma
  /\ skipCodesIn (skipFile final)
     = ⋃ (map skipCodesOf (markedBy w (fetchesOf (trace final))))
  /\ ((forall i, appendFault w i = None) ->
      skipFile final = fold_left appendText (appendsOf (trace final)) None).
Proof.
  intros Hm Hu Hr Hc Hl Hclose final. unfold final.
  assert (Hbase : afterReset w file = None) by (unfold afterReset; rewrite Hm, Hu; reflexivity).
  split; [|split].
  - rewrite IsolationFacts.run_loaded by assumption.
    destruct (TraceFacts.processAll_fetches w (loadedSkipCodes w file) codes
                (extend (withFile (startOfRun file) (afterReset w file))
                   ((if isFirstMonday w then [EUnlink] else []) ++ [EReadFile])) Hc)
      as (evs & Ht & Hf & _).
    rewrite Ht, PipelineFacts.fetchesOf_app, Hf, Hl, Hm. cbn [trace extend withFile startOfRun app fetchesOf flat_map].
    rewrite (PipelineFacts.reached_all w _ 0 (PipelineFacts.loopOutcome_closes w _ Hclose 0)).
    rewrite PipelineFacts.indexed_codes. unfold loadedSkipCodes. rewrite Hbase.
    unfold stockCodesOf. apply forallb_filter_id. apply forallb_forall. intros x _.
    rewrite bool_decide_eq_false_2 by apply not_elem_of_empty. reflexivity.
  - rewrite SkipListFacts.run_file, Hbase, SkipListFacts.items_skipCodes by reflexivity.
    cbn [skipCodesIn]. apply union_empty_l_L.
  - intros Ha. destruct (AppendFacts.run_appends w file) as [_ H]. rewrite (H Ha), Hbase.
    reflexivity.
Qed.

Lemma X4_first_monday_starts_over_witness :
  map snd (fetchesOf (trace (snd (run
     (onFirstMonday (quietWorld (settings "A,B" "15") undervalued))
     (Some (utf16 "A" ++ [Str.newline]))))))
  = Str.split (utf16 "A,B") Str.comma.
Proof.
  exact (proj1 (X4_first_monday_starts_over
                  (onFirstMonday (quietWorld (settings "A,B" "15") undervalued))
                  (Some (utf16 "A" ++ [Str.newline])) (utf16 "A,B")
                  eq_refl eq_refl eq_refl eq_refl eq_refl (fun _ => eq_refl))).
Defined.

(** X5. The test [allStockCodes.length === 0] never holds, since
    [split] gives at least one piece. Without [STOCK_CODES] the run
    throws a TypeError at that point and leaves the state as it is; with
    [STOCK_CODES], be it the empty string, the browser is launched, and
    for the empty string the empty code is fetched once. *)
Theorem X5_stock_codes_are_never_empty :
  (forall s c, Str.split s c <> [])
  /\ (forall w skipCodes s,
        STOCK_CODES (env w) = None ->
        processAll w skipCodes s = (Throw (Failure TypeError), s))
  /\ (forall w skipCodes s codes,
        STOCK_CODES (env w) = Some codes ->
        exists evs, trace (snd (processAll w skipCodes s)) = trace s ++ ELaunch :: evs)
  /\ (forall w file,
        STOCK_CODES (env w) = Some [] -> unlinkFault w = None -> readFault w = None ->
        launch w = None ->
        fetchesOf (trace (snd (run w file))) = [(0, [])]).
Proof.
  split; [apply StrFacts.split_not_nil|]. split; [apply ReachFacts.processAll_unset|]. split.
  - intros w skipCodes s codes Hc. rewrite (RunFacts.processAll_spec _ _ _ _ Hc). cbv zeta.
    destruct (launch w); [exists []; reflexivity|].
    set (stockCodes := stockCodesOf _ _).
    destruct (loopOutcome w 0 stockCodes).
    + destruct (closeBrowser w).
      * eexists. cbn [snd trace extend loopState]. rewrite <- !app_assoc. reflexivity.
      * destruct (DispatchFacts.dispatch_events w
                    (extend (loopState w 0 stockCodes (extend s [ELaunch])) [ECloseBrowser]))
          as (evs & -> & _).
        eexists. cbn [snd trace extend loopState withBatch]. rewrite <- !app_assoc. reflexivity.
    + eexists. cbn [snd trace extend loopState]. rewrite <- !app_assoc. reflexivity.
  - intros w file Hc Hu Hr Hl. rewrite IsolationFacts.run_loaded by assumption.
    destruct (TraceFacts.processAll_fetches w (loadedSkipCodes w file) []
                (extend (withFile (startOfRun file) (afterReset w file))
                   ((if isFirstMonday w then [EUnlink] else []) ++ [EReadFile])) Hc)
      as (evs & Ht & Hf & _).
    rewrite Ht, PipelineFacts.fetchesOf_app, Hf, Hl.
    assert (Hnot : [] ∉ loadedSkipCodes w file).
    { unfold loadedSkipCodes. destruct (afterReset w file); [|apply not_elem_of_empty].
      intros H. apply FileFacts.skipCodesOf_spec in H as [_ H]. apply H. reflexivity. }
    change (Str.split [] Str.comma) with [@nil codeunit]. unfold stockCodesOf.
    cbn [List.filter]. rewrite bool_decide_eq_false_2 by exact Hnot. cbn [negb reached].
    replace (fetchesOf _) with (@nil (nat * jsstring))
      by (destruct (isFirstMonday w); reflexivity).
    destruct (itemOutcome w 0 []); reflexivity.
Qed.

(** ** The browser and its pages *)

Module OrderFacts.
Import Str StrFacts FileFacts PipelineFacts DispatchFacts RunFacts ShapeFacts TraceFacts ReturnFacts ReachFacts.

Lemma pagesOf_app a b : pagesOf (a ++ b) = pagesOf a ++ pagesOf b.
Proof. apply List.filter_app. Qed.

Lemma pagesOf_prelude pre : Forall preludeEvent pre -> pagesOf pre = [].
Proof.
  induction 1 as [|e pre He _ IH]; [reflexivity|].
  destruct e; try contradiction; exact IH.
Qed.

Lemma pagesOf_tail w b tail : Forall (tailEvent w b) tail -> pagesOf tail = [].
Proof.
  induction 1 as [|e tail He _ IH]; [reflexivity|].
  destruct e; try contradiction; exact IH.
Qed.

Lemma pagesOf_item w i c : pagesOf (itemEvents w i c) = pageEvents w (i, c).
Proof.
  unfold itemEvents, pageEvents. cbn [pagesOf List.filter fst snd]. f_equal.
  fold (pagesOf (map EAppendFile (itemAppends w i c) ++
                 (if pageCreated (fetch w i c) then [EClosePage] else []) ++
                 match itemOutcome w i c with
                 | Ret _ => [ESleep (getRandomDelay w i)]
                 | Throw _ => []
                 end)).
  rewrite !pagesOf_app.
  replace (pagesOf (map EAppendFile (itemAppends w i c))) with (@nil event)
    by (unfold itemAppends; destruct (targetUnavailable _); reflexivity).
  destruct (pageCreated _), (itemOutcome w i c); reflexivity.
Qed.

Lemma pagesOf_items w items : pagesOf (loopEvents w items) = flat_map (pageEvents w) items.
Proof.
  induction items as [|[i c] items IH]; [reflexivity|].
  unfold loopEvents in *. cbn [flat_map fst snd]. rewrite pagesOf_app, IH, pagesOf_item.
  reflexivity.
Qed.

(** The item whose page does not close is the last one. *)
Lemma reached_throw w codes i c error :
  forall index,
    In (i, c) (reached w index codes) -> itemOutcome w i c = Throw error ->
    loopOutcome w index codes = Throw error
    /\ exists before, reached w index codes = before ++ [(i, c)].
Proof.
  induction codes as [|code codes IH]; intros index Hin Hout; [destruct Hin|].
  cbn [reached loopOutcome] in *. destruct Hin as [[= <- <-]|Hin].
  - rewrite Hout. split; [reflexivity|]. exists []. reflexivity.
  - destruct (itemOutcome w index code) as [[]|e]; [|destruct Hin].
    destruct (IH _ Hin Hout) as [H1 [before H2]]. split; [exact H1|].
    exists ((index, code) :: before). rewrite H2. reflexivity.
Qed.

Lemma loopState_trace w index codes s :
  trace (loopState w index codes s) = trace s ++ loopEvents w (reached w index codes).
Proof. reflexivity. Qed.

Lemma closeBrowser_prelude pre : Forall preludeEvent pre -> ~ In ECloseBrowser pre.
Proof.
  intros H Hin. rewrite List.Forall_forall in H. exact (H _ Hin).
Qed.

Lemma closeBrowser_items w items : ~ In ECloseBrowser (loopEvents w items).
Proof.
  unfold loopEvents. intros H. apply in_flat_map in H as ([i c] & _ & H).
  unfold itemEvents in H. cbn [fst snd] in H.
  destruct H as [H|H]; [discriminate|].
  apply in_app_or in H as [H|H].
  - apply in_map_iff in H as (t & H & _). discriminate.
  - apply in_app_or in H as [H|H].
    + destruct (pageCreated _); [destruct H as [H|[]]; discriminate|destruct H].
    + destruct (itemOutcome w i c); [destruct H as [H|[]]; discriminate|destruct H].
Qed.

(** The trace of [processAll] in closed form, as far as the loop. *)
Lemma processAll_loop w skipCodes codes s :
  STOCK_CODES (env w) = Some codes -> launch w = None ->
  let stockCodes := stockCodesOf (Str.split codes Str.comma) skipCodes in
  let s1 := loopState w 0 stockCodes (extend s [ELaunch]) in
  processAll w skipCodes s =
  match loopOutcome w 0 stockCodes with
  | Throw error => (Throw error, s1)
  | Ret _ =>
      match closeBrowser w with
      | Some error => (Throw error, extend s1 [ECloseBrowser])
      | None => dispatch w (extend s1 [ECloseBrowser])
      end
  end.
Proof. intros Hc Hl. rewrite (processAll_spec _ _ _ _ Hc), Hl. reflexivity. Qed.

(** Whoever fetched has launched. *)
Lemma fetched_launched w skipCodes s :
  fetchesOf (trace s) = [] ->
  fetchesOf (trace (snd (processAll w skipCodes s))) <> [] ->
  exists codes, STOCK_CODES (env w) = Some codes /\ launch w = None
    /\ fetchesOf (trace (snd (processAll w skipCodes s)))
       = reached w 0 (stockCodesOf (Str.split codes Str.comma) skipCodes).
Proof.
  intros Hs Hne. destruct (STOCK_CODES (env w)) as [codes|] eqn:Hc.
  - destruct (processAll_fetches w skipCodes codes s Hc) as (evs & Ht & Hf & _).
    rewrite Ht, fetchesOf_app, Hs in Hne |- *. cbn [app] in *. rewrite Hf in Hne |- *.
    destruct (launch w); [contradiction|]. exists codes. auto.
  - rewrite processAll_unset in Hne by exact Hc. contradiction.
Qed.

(** A run that returns: the file is prepared, the browser launched, the
    items processed, the browser closed, the batch sorted and sent. *)
Lemma returning_run w file :
  fst (run w file) = Ret tt ->
  let final := snd (run w file) in
  exists tail,
    trace final
    = trace (afterLoad w file)
      ++ ELaunch :: loopEvents w (fetchesOf (trace final)) ++ ECloseBrowser :: tail
    /\ notificationBatch final
       = sort (flat_map (fun ic => itemCandidates w ic.1 ic.2) (fetchesOf (trace final)))
    /\ Forall (dispatchEvent w (notificationBatch final)) tail.
Proof.
  intros Hret final. unfold final.
  destruct (run_reaches w file) as [(e & He & _)|(sc & Hrun & _)].
  { rewrite He in Hret. discriminate. }
  rewrite Hrun in *. set (s0 := afterLoad w file) in *.
  destruct (afterLoad_quiet w file) as (Hf0 & _ & _ & Hpre). fold s0 in Hf0, Hpre.
  destruct (STOCK_CODES (env w)) as [codes|] eqn:Hc.
  2:{ rewrite processAll_unset in Hret by exact Hc. discriminate. }
  destruct (processAll_fetches w sc codes s0 Hc) as (evs & Ht & Hf & Hok).
  destruct (Hok Hret) as [Hl Hloop].
  assert (Hfetch : fetchesOf (trace (snd (processAll w sc s0)))
                   = reached w 0 (stockCodesOf (Str.split codes Str.comma) sc)).
  { rewrite Ht, fetchesOf_app, Hf0, Hf, Hl. reflexivity. }
  rewrite Hfetch. clear Ht Hf Hok evs Hfetch.
  rewrite (processAll_loop _ _ _ _ Hc Hl) in Hret |- *. cbv zeta in *.
  rewrite Hloop in Hret |- *.
  destruct (closeBrowser w); [discriminate|].
  set (s1 := extend (loopState w 0 _ (extend s0 [ELaunch])) [ECloseBrowser]).
  destruct (dispatch_events w s1) as (tail & Hs & Htail & _).
  rewrite Hs. cbn [notificationBatch trace extend withBatch].
  exists tail. split; [|split].
  - unfold s1. cbn [trace extend]. rewrite loopState_trace. cbn [trace extend].
    rewrite <- !app_assoc. reflexivity.
  - unfold s1. cbn [notificationBatch extend loopState]. unfold s0, afterLoad.
    reflexivity.
  - exact Htail.
Qed.

End OrderFacts.

(** X6. In every run the requests for a page and the calls of
    [page.close] alternate as follows: each code fetched is followed by
    one call of [page.close] if its page was created and by none
    otherwise, before the next code is fetched. *)
Theorem X6_every_page_is_closed (w : world) (file : option jsstring) :
  pagesOf (trace (snd (run w file)))
  = flat_map (pageEvents w) (fetchesOf (trace (snd (run w file)))).
Proof.
  destruct (ShapeFacts.run_shaped w file)
    as (pre & items & tail & Ht & Hpre & Htail & _).
  rewrite (SkipListFacts.shape_fetches w _ pre items tail Ht Hpre Htail), Ht.
  rewrite !OrderFacts.pagesOf_app, (OrderFacts.pagesOf_prelude _ Hpre),
    (OrderFacts.pagesOf_tail _ _ _ Htail), app_nil_r.
  apply OrderFacts.pagesOf_items.
Qed.

(** X7. When [page.close] rejects for an item whose page was created,
    nothing catches the error: the run ends with it, this item is the
    last one fetched, the browser is never closed and nothing is posted. *)
Theorem X7_page_close_failure_ends_the_run
  (w : world) (file : option jsstring) (index : nat) (code : jsstring) (error : exn) :
  let final := snd (run w file) in
  In (index, code) (fetchesOf (trace final)) ->
  pageCreated (fetch w index code) = true -> closePage w index = Some error ->
  fst (run w file) = Throw error
  /\ (exists before, fetchesOf (trace final) = before ++ [(index, code)])
  /\ ~ In ECloseBrowser (trace final)
  /\ postsOf (trace final) = [].
Proof.
  intros final Hin Hpage Hclose. unfold final in *.
  assert (Hout : itemOutcome w index code = Throw error)
    by (unfold itemOutcome; rewrite Hpage, Hclose; reflexivity).
  destruct (ReachFacts.run_reaches w file) as [(e & _ & Hpre)|(sc & Hrun & _)].
  { destruct (TraceFacts.prelude_quiet _ Hpre) as (H & _). rewrite H in Hin. destruct Hin. }
  rewrite Hrun in *.
  destruct (ReachFacts.afterLoad_quiet w file) as (Hf0 & Hp0 & Hc0 & _).
  destruct (OrderFacts.fetched_launched w sc _ Hf0) as (codes & Hc & Hl & Hf).
  { intros H. rewrite H in Hin. destruct Hin. }
  rewrite Hf in Hin |- *.
  destruct (OrderFacts.reached_throw w _ _ _ _ 0 Hin Hout) as [Hloop Hlast].
  rewrite (OrderFacts.processAll_loop _ _ _ _ Hc Hl). cbv zeta. rewrite Hloop.
  cbn [fst snd]. split; [reflexivity|]. split; [exact Hlast|].
  rewrite OrderFacts.loopState_trace. cbn [trace extend]. split.
  - intros H. apply in_app_or in H as [H|H].
    + apply in_app_or in H as [H|[H|[]]]; [|discriminate]. exact (Hc0 H).
    + exact (OrderFacts.closeBrowser_items _ _ H).
  - rewrite !PipelineFacts.postsOf_app, Hp0. cbn [postsOf flat_map app].
    apply PipelineFacts.postsOf_items.
Qed.

Lemma X7_page_close_failure_ends_the_run_witness :
  fst (run (stuckPage 1 (quietWorld (settings "A,B,C" "15") undervalued)) None)
  = Throw (Failure EPIPE)
  /\ (exists before,
        fetchesOf (trace (snd (run (stuckPage 1 (quietWorld (settings "A,B,C" "15") undervalued))
                                 None)))
        = before ++ [(1, utf16 "B")])
  /\ ~ In ECloseBrowser
         (trace (snd (run (stuckPage 1 (quietWorld (settings "A,B,C" "15") undervalued)) None)))
  /\ postsOf (trace (snd (run (stuckPage 1 (quietWorld (settings "A,B,C" "15") undervalued))
                            None))) = [].
Proof.
  apply (X7_page_close_failure_ends_the_run
           (stuckPage 1 (quietWorld (settings "A,B,C" "15") undervalued)) None 1 (utf16 "B")
           (Failure EPIPE)); [|reflexivity|reflexivity].
  vm_compute. right. left. reflexivity.
Defined.

(** X8. A run that returns has gone through these steps in this order:
    [skip-list.txt] is deleted or not and read, the browser is launched,
    the items are processed one after the other, the browser is closed,
    and only then come the messages and the pauses of the dispatch. *)
Theorem X8_order_of_a_run_that_returns (w : world) (file : option jsstring) :
  fst (run w file) = Ret tt ->
  let final := snd (run w file) in
  exists pre tail,
    trace final
    = pre ++ ELaunch :: loopEvents w (fetchesOf (trace final)) ++ ECloseBrowser :: tail
    /\ Forall (fun e => e = EUnlink \/ e = EReadFile) pre
    /\ Forall (dispatchEvent w (notificationBatch final)) tail.
Proof.
  intros Hret final. destruct (OrderFacts.returning_run w file Hret) as (tail & Ht & _ & Htail).
  exists (trace (afterLoad w file)), tail. split; [exact Ht|]. split; [|exact Htail].
  apply ReachFacts.afterLoad_quiet.
Qed.

Lemma X8_order_of_a_run_that_returns_witness :
  exists pre tail,
    trace (snd (run (quietWorld (settings "A,B" "15") undervalued) None))
    = pre ++ ELaunch
          :: loopEvents (quietWorld (settings "A,B" "15") undervalued)
               (fetchesOf (trace (snd (run (quietWorld (settings "A,B" "15") undervalued) None))))
          ++ ECloseBrowser :: tail
    /\ Forall (fun e => e = EUnlink \/ e = EReadFile) pre
    /\ Forall (dispatchEvent (quietWorld (settings "A,B" "15") undervalued)
                 (notificationBatch (snd (run (quietWorld (settings "A,B" "15") undervalued) None))))
         tail.
Proof.
  exact (X8_order_of_a_run_that_returns (quietWorld (settings "A,B" "15") undervalued) None
           eq_refl).
Defined.

(** ** Slack out of reach *)

Module SlackFacts.
Import Str StrFacts FileFacts PipelineFacts DispatchFacts RunFacts ShapeFacts TraceFacts ReturnFacts ReachFacts OrderFacts.

Lemma send_unconfigured w i stocks s :
  configured w = false -> sendSlackNotification w i stocks s = (Ret tt, s).
Proof.
  unfold configured, sendSlackNotification. intros Hc.
  apply andb_false_iff in Hc as [H|H]; apply negb_false_iff in H; rewrite H;
    rewrite ?orb_true_r; reflexivity.
Qed.

Lemma sendLoop_unconfigured w :
  configured w = false ->
  forall fuel k s,
    batchCount (length (notificationBatch s)) - k <= fuel ->
    sendLoop w fuel (k * BATCH_SIZE) s =
    (Ret tt,
     extend s (repeat (ESleep 1000) (batchCount (length (notificationBatch s)) - S k))).
Proof.
  intros Hc. induction fuel as [|fuel IH]; intros k s Hfuel.
  - replace (batchCount (length (notificationBatch s)) - S k) with 0 by lia.
    cbn. rewrite extend_nil. reflexivity.
  - cbn [sendLoop]. unfold bind at 1. unfold getBatch at 1.
    destruct (Nat.ltb_spec (k * BATCH_SIZE) (length (notificationBatch s))) as [Hlt|Hge].
    + unfold bind at 1. rewrite send_unconfigured by exact Hc. unfold bind at 1.
      pose proof (below_count _ _ Hlt) as Hcnt.
      replace (k * BATCH_SIZE + BATCH_SIZE) with (S k * BATCH_SIZE) by (unfold BATCH_SIZE; lia).
      destruct (Nat.ltb_spec (S k * BATCH_SIZE) (length (notificationBatch s))) as [Hlt'|Hge'].
      * unfold sleep, emit.
        match goal with |- sendLoop w fuel _ ?s1 = _ =>
          rewrite (IH (S k) s1) by (cbn [notificationBatch]; lia) end.
        cbn [notificationBatch]. rewrite (below_count _ _ Hlt').
        unfold extend. cbn [skipFile results notificationBatch trace repeat].
        rewrite <- !app_assoc. reflexivity.
      * unfold ret. rewrite (IH (S k) s) by lia.
        assert (batchCount (length (notificationBatch s)) - S k = 0)
          by (apply above_count; exact Hge').
        replace (batchCount (length (notificationBatch s)) - S (S k)) with 0 by lia.
        rewrite H. reflexivity.
    + pose proof (above_count _ _ Hge).
      replace (batchCount (length (notificationBatch s)) - S k) with 0 by lia.
      cbn. rewrite extend_nil. reflexivity.
Qed.

Lemma dispatch_unconfigured w s :
  configured w = false ->
  dispatch w s =
  (Ret tt,
   extend (withBatch s (sort (notificationBatch s)))
     (repeat (ESleep 1000) (batchCount (length (notificationBatch s)) - 1))).
Proof.
  intros Hc. unfold dispatch, bind, getBatch.
  destruct (notificationBatch s) as [|c b] eqn:Hb.
  - cbn. unfold extend, withBatch. cbn. rewrite app_nil_r, <- Hb. destruct s; reflexivity.
  - change (0 <? length (c :: b)) with true. cbv iota.
    unfold setBatch. fold (withBatch s (sort (c :: b))).
    pose proof (sendLoop_unconfigured w Hc (length (c :: b)) 0 (withBatch s (sort (c :: b)))) as H.
    change (0 * BATCH_SIZE) with 0 in H. rewrite H.
    + cbn [notificationBatch withBatch]. rewrite sort_length. reflexivity.
    + cbn [notificationBatch withBatch]. rewrite sort_length.
      unfold batchCount, BATCH_SIZE.
      pose proof (Nat.div_mod_eq (length (c :: b) + (5 - 1)) 5).
      pose proof (Nat.mod_upper_bound (length (c :: b) + (5 - 1)) 5).
      cbn [length] in *. lia.
Qed.

(** The messages of a run are those of its dispatch. *)
Lemma run_posts_of_dispatch w file :
  postsOf (trace (snd (run w file))) = []
  \/ exists s1, run w file = dispatch w s1 /\ postsOf (trace s1) = [].
Proof.
  destruct (run_reaches w file) as [(e & _ & Hpre)|(sc & Hrun & _)].
  { left. apply (prelude_quiet _ Hpre). }
  rewrite Hrun. destruct (afterLoad_quiet w file) as (_ & Hp0 & _).
  destruct (STOCK_CODES (env w)) as [codes|] eqn:Hc.
  2:{ left. rewrite processAll_unset by exact Hc. exact Hp0. }
  rewrite (processAll_spec _ _ _ _ Hc). cbv zeta.
  destruct (launch w).
  { left. cbn [snd trace extend]. rewrite postsOf_app, Hp0. reflexivity. }
  set (stockCodes := stockCodesOf _ _).
  assert (H1 : postsOf (trace (loopState w 0 stockCodes (extend (afterLoad w file) [ELaunch])))
               = []).
  { rewrite loopState_trace. cbn [trace extend]. rewrite !postsOf_app, Hp0.
    apply postsOf_items. }
  destruct (loopOutcome w 0 stockCodes); [|left; exact H1].
  destruct (closeBrowser w).
  - left. cbn [snd]. unfold extend at 1. cbn [trace]. rewrite postsOf_app, H1. reflexivity.
  - right. eexists. split; [reflexivity|].
    unfold extend at 1. cbn [trace]. rewrite postsOf_app, H1. reflexivity.
Qed.

Lemma postsOf_sleeps n : postsOf (repeat (ESleep 1000) n) = [].
Proof. induction n; [reflexivity|exact IHn]. Qed.

(** The loop when Slack refuses the batch at offset [k * BATCH_SIZE] and
    none before. *)
Lemma sendLoop_refused w k error :
  configured w = true ->
  (forall j, j < k -> postMessage w (j * BATCH_SIZE) = None) ->
  postMessage w (k * BATCH_SIZE) = Some error ->
  forall fuel j s,
    j <= k -> k * BATCH_SIZE < length (notificationBatch s) ->
    batchCount (length (notificationBatch s)) - j <= fuel ->
    sendLoop w fuel (j * BATCH_SIZE) s =
    (Throw error,
     extend s (flat_map (batchEvents w (notificationBatch s))
                 (map (fun j => j * BATCH_SIZE) (seq j (k - j)))
               ++ [postEvent w (k * BATCH_SIZE)
                     (batchAt (notificationBatch s) (k * BATCH_SIZE))])).
Proof.
  intros Hc Hok Hbad. induction fuel as [|fuel IH]; intros j s Hj Hk Hfuel.
  - pose proof (below_count _ _ Hk). lia.
  - cbn [sendLoop]. unfold bind at 1. unfold getBatch at 1.
    assert (Hlt : j * BATCH_SIZE < length (notificationBatch s))
      by (unfold BATCH_SIZE in *; lia).
    destruct (Nat.ltb_spec (j * BATCH_SIZE) (length (notificationBatch s))) as [_|?]; [|lia].
    unfold bind at 1. rewrite send_spec by (auto using slice_nonempty).
    destruct (Nat.eq_dec j k) as [->|Hne].
    + rewrite Hbad, Nat.sub_diag. reflexivity.
    + rewrite Hok by lia. unfold bind at 1.
      replace (k - j) with (S (k - S j)) by lia.
      cbn [seq map flat_map]. unfold batchEvents at 1.
      fold (batchAt (notificationBatch s) (j * BATCH_SIZE)).
      replace (j * BATCH_SIZE + BATCH_SIZE) with (S j * BATCH_SIZE) by (unfold BATCH_SIZE; lia).
      pose proof (below_count _ _ Hlt) as Hcnt.
      destruct (Nat.ltb_spec (S j * BATCH_SIZE) (length (notificationBatch s))) as [Hlt'|Hge'];
        [|unfold BATCH_SIZE in *; lia].
      unfold sleep, emit.
      match goal with |- sendLoop w fuel _ ?s1 = _ =>
        rewrite (IH (S j) s1) by (cbn [notificationBatch extend]; lia) end.
      unfold extend. cbn [skipFile results notificationBatch trace].
      rewrite <- !app_assoc. reflexivity.
Qed.

End SlackFacts.

(** X9. Without the token or the channel of Slack no message is ever
    posted and the dispatch does not fail; the batch is sorted all the
    same, and the loop still pauses 1000 ms after every batch but the
    last. *)
Theorem X9_without_slack_settings (w : world) :
  configured w = false ->
  (forall s,
     dispatch w s =
     (Ret tt,
      extend (withBatch s (sort (notificationBatch s)))
        (repeat (ESleep 1000) (batchCount (length (notificationBatch s)) - 1))))
  /\ (forall file, postsOf (trace (snd (run w file))) = []).
Proof.
  intros Hc. split; [intros s; apply SlackFacts.dispatch_unconfigured, Hc|].
  intros file. destruct (SlackFacts.run_posts_of_dispatch w file) as [H|(s1 & Hrun & Hp)];
    [exact H|].
  rewrite Hrun, SlackFacts.dispatch_unconfigured by exact Hc.
  cbn [snd trace extend withBatch].
  rewrite PipelineFacts.postsOf_app, Hp. apply SlackFacts.postsOf_sleeps.
Qed.

Lemma X9_without_slack_settings_witness :
  trace (snd (dispatch (quietWorld (withoutSlack "A" "15") undervalued)
                (withBatch (startOfRun None) twelve)))
  = [ESleep 1000; ESleep 1000].
Proof.
  rewrite (proj1 (X9_without_slack_settings (quietWorld (withoutSlack "A" "15") undervalued)
                    eq_refl)).
  reflexivity.
Defined.

(** X10. When Slack refuses the message of the batch number [k], having
    accepted those before, the dispatch throws that error right after the
    call: the batches 0 to [k] have been posted in order, with a pause
    after each but the last, and no later batch is. *)
Theorem X10_refused_message_stops_the_dispatch
  (w : world) (s : runstate) (k : nat) (error : exn) :
  configured w = true ->
  (forall j, j < k -> postMessage w (j * BATCH_SIZE) = None) ->
  postMessage w (k * BATCH_SIZE) = Some error ->
  k * BATCH_SIZE < length (notificationBatch s) ->
  let sorted := sort (notificationBatch s) in
  dispatch w s = (Throw error, extend (withBatch s sorted) (eventsUntil w sorted k))
  /\ postsOf (eventsUntil w sorted k)
     = map (fun i => (messageTitle (getKSTTimestamp w i) (batchAt sorted i), batchAt sorted i))
         (map (fun j => j * BATCH_SIZE) (seq 0 (S k))).
Proof.
  intros Hc Hok Hbad Hk sorted. split.
  - unfold dispatch, bind, getBatch.
    destruct (notificationBatch s) as [|c b] eqn:Hb; [cbn [length] in Hk; lia|].
    change (0 <? length (c :: b)) with true. cbv iota.
    unfold setBatch. fold (withBatch s (sort (c :: b))).
    pose proof (SlackFacts.sendLoop_refused w k error Hc Hok Hbad (length (c :: b)) 0
                  (withBatch s (sort (c :: b)))) as H.
    change (0 * BATCH_SIZE) with 0 in H. rewrite H.
    + cbn [notificationBatch withBatch]. rewrite Nat.sub_0_r. reflexivity.
    + lia.
    + cbn [notificationBatch withBatch]. rewrite DispatchFacts.sort_length. exact Hk.
    + cbn [notificationBatch withBatch]. rewrite DispatchFacts.sort_length.
      unfold batchCount, BATCH_SIZE.
      pose proof (Nat.div_mod_eq (length (c :: b) + (5 - 1)) 5).
      pose proof (Nat.mod_upper_bound (length (c :: b) + (5 - 1)) 5).
      cbn [length] in *. lia.
  - unfold eventsUntil. rewrite PipelineFacts.postsOf_app, ReturnFacts.postsOf_batches.
    rewrite seq_S, !map_app. reflexivity.
Qed.

Lemma X10_refused_message_stops_the_dispatch_witness :
  fst (dispatch (refusedAt 5 (quietWorld (settings "A" "15") undervalued))
         (withBatch (startOfRun None) twelve))
  = Throw (Failure EPIPE)
  /\ map (fun p => length p.2)
       (postsOf (trace (snd (dispatch (refusedAt 5 (quietWorld (settings "A" "15") undervalued))
                               (withBatch (startOfRun None) twelve)))))
     = [5; 5].
Proof.
  rewrite (proj1 (X10_refused_message_stops_the_dispatch
                    (refusedAt 5 (quietWorld (settings "A" "15") undervalued))
                    (withBatch (startOfRun None) twelve) 1 (Failure EPIPE)
                    eq_refl (fun j Hj => ltac:(destruct j; [reflexivity|lia])) eq_refl
                    ltac:(vm_compute; lia))).
  split; reflexivity.
Defined.

(** ** The capitalisation in the filter *)

Module FilterFacts.
Import NumberFacts.

Lemma geb_NaN_l x : F64.geb F64.NaN x = false.
Proof. destruct x; reflexivity. Qed.

Lemma leb_zero x :
  F64.isNaN x = false -> F64.leb x F64.zero = negb (F64.ltb F64.zero x).
Proof. destruct x as [[]|[]| |[] m e]; intros H; try discriminate; reflexivity. Qed.

Lemma minMarketCap_not_NaN e : F64.isNaN (minMarketCap e) = false.
Proof. unfold minMarketCap. destruct (Parse.parseInt _); reflexivity. Qed.

Lemma analysis_cap_NaN e code stockData :
  F64.isNaN (parseMarketCapToBillions (VString (marketCap stockData))) = true ->
  analysis e code stockData = None.
Proof.
  intros H. unfold analysis.
  destruct (parseMarketCapToBillions _); try discriminate.
  rewrite geb_NaN_l, andb_false_r.
  destruct (F64.isNaN (gapPercentage e)); [reflexivity|].
  cbn [negb]. destruct (_ && _ && _); reflexivity.
Qed.

Lemma geb_zero_min e :
  F64.geb F64.zero (minMarketCap e) = negb (F64.gtb (minMarketCap e) F64.zero).
Proof. apply leb_zero, minMarketCap_not_NaN. Qed.

(** A capitalisation of zero is below every positive minimum. *)
Lemma analysis_no_cap e code stockData :
  parseMarketCapToBillions (VString (marketCap stockData)) = F64.zero ->
  F64.gtb (minMarketCap e) F64.zero = true -> analysis e code stockData = None.
Proof.
  intros Hcap Hmin. unfold analysis. rewrite Hcap, geb_zero_min, Hmin. cbn [negb].
  rewrite andb_false_r. destruct (F64.isNaN (gapPercentage e)); [reflexivity|].
  cbn [negb]. destruct (_ && _ && _); reflexivity.
Qed.

End FilterFacts.

(** X11. The market capitalisation in the filter. A text without either
    unit, such as the marker of a missing capitalisation, counts as 0: no
    candidate when the minimum is above zero, and otherwise the gap alone
    decides. A text that the parser turns into NaN, such as a large unit
    with nothing readable in front, never gives a candidate. *)
Theorem X11_market_cap_in_the_filter :
  (forall e code stockData,
     Str.includes (marketCap stockData) jo = false ->
     Str.includes (marketCap stockData) eok = false ->
     (F64.gtb (minMarketCap e) F64.zero = true -> analysis e code stockData = None)
     /\ (forall zc zt,
           Parse.integerValue (ungroup (currentPrice stockData)) = Some zc ->
           Parse.integerValue (ungroup (targetPrice stockData)) = Some zt ->
           (0 < zt)%Z ->
           F64.gtb (minMarketCap e) F64.zero = false ->
           analysis e code stockData =
           if F64.geb (gapOf (F64.of_Z zc) (F64.of_Z zt)) (gapPercentage e)
           then Some {| code := code; data := stockData;
                        gap := gapOf (F64.of_Z zc) (F64.of_Z zt) |}
           else None))
  /\ Str.includes noMarketCap jo = false /\ Str.includes noMarketCap eok = false
  /\ (forall e code stockData,
        F64.isNaN (parseMarketCapToBillions (VString (marketCap stockData))) = true ->
        analysis e code stockData = None)
  /\ (forall e code stockData a rest,
        marketCap stockData = a ++ jo :: rest ->
        Str.includes a jo = false -> Parse.integerValue (ungroup a) = None ->
        analysis e code stockData = None).
Proof.
  split; [|split; [reflexivity|split; [reflexivity|split]]].
  - intros e code stockData Hj He.
    pose proof (MarketCapFacts.neither_unit _ Hj He) as Hcap.
    split.
    + apply FilterFacts.analysis_no_cap, Hcap.
    + intros zc zt Hc Ht Hpos Hmin.
      rewrite (AnalysisFacts.analysis_integers e code stockData zc zt Hc Ht Hpos).
      rewrite Hcap, FilterFacts.geb_zero_min, Hmin. cbn [negb]. rewrite andb_true_r.
      reflexivity.
  - apply FilterFacts.analysis_cap_NaN.
  - intros e code stockData a rest Hcap Ha Hn. apply FilterFacts.analysis_cap_NaN.
    rewrite Hcap, MarketCapFacts.large_unparseable by assumption. reflexivity.
Qed.

(** ** Stability of the sort *)

Module StableFacts.
Import NumberFacts DispatchFacts.

Lemma ltb_not_leb x y : F64.ltb y x = true -> F64.leb x y = false.
Proof.
  unfold F64.ltb, F64.leb, SFltb, SFleb, SFcompare.
  destruct x as [sx|sx| |sx mx ex], y as [sy|sy| |sy my ey];
    try discriminate; try destruct sx; try destruct sy; try reflexivity; try discriminate.
  - rewrite (Z.compare_antisym ex ey).
    destruct (Z.compare_spec ex ey); cbn [CompOpp]; try easy.
    subst. rewrite !Pos.compare_cont_spec. cbn [Pos.switch_Eq].
    rewrite (Pos.compare_antisym mx my). destruct (Pos.compare mx my); easy.
  - rewrite (Z.compare_antisym ex ey).
    destruct (Z.compare_spec ex ey); cbn [CompOpp]; try easy.
    subst. rewrite !Pos.compare_cont_spec. cbn [Pos.switch_Eq].
    rewrite (Pos.compare_antisym mx my). destruct (Pos.compare mx my); easy.
Qed.

(** Two candidates tied with the same gap are not strictly ordered. *)
Lemma tied_not_ltb g x y :
  F64.isNaN g = false -> regular x = true -> regular y = true ->
  tied g x = true -> tied g y = true -> F64.ltb (gap y) (gap x) = false.
Proof.
  intros Hg Hx Hy Htx Hty.
  destruct (regular_inv _ Hx) as [_ Hnx], (regular_inv _ Hy) as [_ Hny].
  unfold tied in *. apply andb_true_iff in Htx as [Hx1 Hx2], Hty as [Hy1 Hy2].
  apply negb_true_iff in Hx1, Hx2, Hy1, Hy2.
  assert (Hxg : F64.leb (gap x) g = true) by (apply not_ltb_leb; assumption).
  assert (Hgy : F64.leb g (gap y) = true) by (apply not_ltb_leb; assumption).
  pose proof (leb_trans _ _ _ Hxg Hgy) as Hxy.
  destruct (F64.ltb (gap y) (gap x)) eqn:Hlt; [|reflexivity].
  rewrite (ltb_not_leb _ _ Hlt) in Hxy. discriminate.
Qed.

Lemma insert_tied g x l :
  F64.isNaN g = false -> regular x = true -> Forall (fun c => regular c = true) l ->
  List.filter (tied g) (insert x l) = List.filter (tied g) (x :: l).
Proof.
  intros Hg Hx Hl. induction l as [|y l IH]; [reflexivity|].
  apply Forall_cons in Hl as [Hy Hl]. cbn [insert].
  rewrite sortCompare_gt by assumption.
  destruct (F64.ltb (gap y) (gap x)) eqn:Hlt; [|reflexivity].
  cbn [List.filter] in *. rewrite (IH Hl).
  destruct (tied g y) eqn:Hty, (tied g x) eqn:Htx; try reflexivity.
  rewrite (tied_not_ltb g x y) in Hlt by assumption. discriminate.
Qed.

Lemma sort_tied g l :
  F64.isNaN g = false -> Forall (fun c => regular c = true) l ->
  List.filter (tied g) (sort l) = List.filter (tied g) l.
Proof.
  intros Hg. induction l as [|x l IH]; intros H; [reflexivity|].
  apply Forall_cons in H as [Hx Hl]. cbn [sort].
  rewrite insert_tied; [|exact Hg|exact Hx|].
  - cbn [List.filter]. rewrite (IH Hl). reflexivity.
  - eapply Permutation_Forall; [apply sort_perm|exact Hl].
Qed.

End StableFacts.

(** X12. The sort is stable: the candidates whose gaps equal a given
    number keep the order they had. In a run that returns, candidates
    with equal gaps are therefore sent in the order in which their codes
    were fetched. *)
Theorem X12_sort_is_stable :
  (forall (l : list candidate) (g : number),
     forallb regular l = true -> F64.isNaN g = false ->
     List.filter (tied g) (sort l) = List.filter (tied g) l)
  /\ (forall (w : world) (file : option jsstring) (g : number),
        fst (run w file) = Ret tt -> F64.isNaN g = false ->
        let final := snd (run w file) in
        List.filter (tied g) (notificationBatch final)
        = List.filter (tied g)
            (flat_map (fun ic => itemCandidates w ic.1 ic.2) (fetchesOf (trace final)))).
Proof.
  split.
  - intros l g Hl Hg. apply StableFacts.sort_tied; [exact Hg|].
    apply List.Forall_forall. rewrite forallb_forall in Hl. exact Hl.
  - intros w file g Hret Hg final.
    destruct (OrderFacts.returning_run w file Hret) as (tail & _ & Hb & _).
    unfold final. rewrite Hb. apply StableFacts.sort_tied; [exact Hg|].
    eapply Permutation_Forall; [symmetry; apply DispatchFacts.sort_perm|].
    rewrite <- Hb. apply ReturnFacts.run_regular.
Qed.

Lemma X12_sort_is_stable_witness :
  List.filter (tied (F64.of_Z 20))
    (sort (map exampleCandidate ["B"; "A"; "C"]%string))
  = List.filter (tied (F64.of_Z 20)) (map exampleCandidate ["B"; "A"; "C"]%string).
Proof.
  exact (proj1 X12_sort_is_stable (map exampleCandidate ["B"; "A"; "C"]%string) (F64.of_Z 20)
           eq_refl eq_refl).
Defined.

(** ** The console of the handler *)

Module ConsoleFacts.

Lemma started_app a b : started (a ++ b) = started a + started b.
Proof. unfold started. rewrite List.filter_app, length_app. reflexivity. Qed.
Lemma skipped_app a b : skipped (a ++ b) = skipped a + skipped b.
Proof. unfold skipped. rewrite List.filter_app, length_app. reflexivity. Qed.
Lemma finished_app a b : finished (a ++ b) = finished a + finished b.
Proof. unfold finished. rewrite List.filter_app, length_app. reflexivity. Qed.
Lemma failed_app a b : failed (a ++ b) = failed a + failed b.
Proof. unfold failed. rewrite List.filter_app, length_app. reflexivity. Qed.

Lemma trigger_counted w s : counted s -> counted (trigger w s).
Proof.
  intros (H1 & H2 & H3). unfold counted, trigger.
  destruct (isScraping s); cbn [console invocations running];
    rewrite started_app, skipped_app, finished_app, failed_app; cbn; lia.
Qed.

Lemma settle_counted w before after s :
  running s = before ++ w :: after -> counted s -> counted (settle w (before ++ after) s).
Proof.
  intros Hr (H1 & H2 & H3). unfold counted, settle.
  rewrite Hr, length_app in H2. cbn [length] in H2.
  destruct (run w (file s)) as [[[]|e] final]; cbn [console invocations running];
    rewrite !started_app, !skipped_app, !finished_app, !failed_app, length_app; cbn; lia.
Qed.

Lemma reachable_counted f s : reachable f s -> counted s.
Proof.
  induction 1 as [|s s' _ IH Hstep].
  - unfold counted. cbn. lia.
  - destruct Hstep as [w s|w before after s Hr].
    + apply trigger_counted, IH.
    + apply settle_counted; assumption.
Qed.

End ConsoleFacts.

(** X13. In every state the handler reaches the console accounts for
    the runs: every trigger logged a start and those that started no run
    logged a skip; every run that settled logged its end, the others are
    still running; and at most one error is logged per run that settled. *)
Theorem X13_console_counts (f : option jsstring) (s : scheduler) :
  reachable f s ->
  started (console s) = invocations s + skipped (console s)
  /\ finished (console s) + length (running s) = invocations s
  /\ failed (console s) <= finished (console s).
Proof. apply ConsoleFacts.reachable_counted. Qed.

Lemma X13_console_counts_witness :
  started (console exampleScheduler)
  = invocations exampleScheduler + skipped (console exampleScheduler)
  /\ finished (console exampleScheduler) + length (running exampleScheduler)
     = invocations exampleScheduler
  /\ failed (console exampleScheduler) <= finished (console exampleScheduler).
Proof.
  apply (X13_console_counts None exampleScheduler).
  apply (reachable_step None twoTriggers).
  - apply (reachable_step None (trigger (quietWorld (settings "A" "15") undervalued)
                                  (startOfScheduler None))).
    + apply (reachable_step None (startOfScheduler None)); [apply reachable_start|].
      apply step_trigger.
    + apply step_trigger.
  - exact (step_settle (quietWorld (settings "A" "15") undervalued) [] [] twoTriggers eq_refl).
Defined.

(** ** The timestamp *)

Example getKSTTimestamp_examples :
  Clock.getKSTTimestamp 0 = utf16 "1970-01-01 09:00"
  /\ Clock.getKSTTimestamp 1736805600000 = utf16 "2025-01-14 07:00"
  /\ Clock.getKSTTimestamp 1709218799999 = utf16 "2024-02-29 23:59"
  /\ Clock.getKSTTimestamp 1709218800000 = utf16 "2024-03-01 00:00"
  /\ Clock.getKSTTimestamp 1735657199000 = utf16 "2024-12-31 23:59"
  /\ Clock.getKSTTimestamp (-1) = utf16 "1970-01-01 08:59"
  /\ Clock.getKSTTimestamp (-62167219200000) = utf16 "0-01-01 09:00"
  /\ Clock.getKSTTimestamp 8640000000000000 = utf16 "NaN-NaN-NaN NaN:NaN".
Proof. vm_compute. repeat split. Qed.

Module ClockFacts.
Import Clock.
Local Open Scope Z_scope.

Lemma DayFromYear_next y : DayFromYear (y + 1) = DayFromYear y + DaysInYear y.
Proof.
  unfold DayFromYear, DaysInYear.
  destruct (Z.eqb_spec (y mod 4) 0), (Z.eqb_spec (y mod 100) 0), (Z.eqb_spec (y mod 400) 0);
    cbn [negb]; Z.div_mod_to_equations; lia.
Qed.

Lemma DaysInYear_bounds y : 365 <= DaysInYear y <= 366.
Proof.
  unfold DaysInYear.
  destruct (negb _); [lia|]. destruct (negb _); [lia|]. destruct (negb _); lia.
Qed.

Lemma DayFromYear_mono y1 y2 : y1 <= y2 -> DayFromYear y1 <= DayFromYear y2.
Proof. unfold DayFromYear. intros H. Z.div_mod_to_equations. lia. Qed.

(** The year of a time is the largest one that starts at or before it. *)
Lemma YearFromTime_days t :
  DayFromYear (YearFromTime t) <= Day t < DayFromYear (YearFromTime t + 1).
Proof.
  unfold YearFromTime. cbv zeta. set (d := Day t).
  set (y := 1970 + d * 400 / 146097).
  assert (Hy : 146097 * (y - 1970) <= d * 400 < 146097 * (y - 1970) + 146097)
    by (unfold y; Z.div_mod_to_equations; lia).
  destruct (Z.leb_spec (DayFromYear (y + 1)) d) as [H1|H1].
  - split; [exact H1|]. replace (y + 1 + 1) with (y + 2) by lia.
    unfold DayFromYear in *. Z.div_mod_to_equations. lia.
  - destruct (Z.leb_spec (DayFromYear y) d) as [H2|H2].
    + split; assumption.
    + replace (y - 1 + 1) with y by lia. split; [|exact H2].
      unfold DayFromYear in *. Z.div_mod_to_equations. lia.
Qed.

Lemma YearFromTime_largest t :
  TimeFromYear (YearFromTime t) <= t
  /\ forall y, TimeFromYear y <= t -> y <= YearFromTime t.
Proof.
  destruct (YearFromTime_days t) as [H1 H2]. unfold TimeFromYear, Day, msPerDay in *. split.
  - Z.div_mod_to_equations. lia.
  - intros y Hy. destruct (Z.le_gt_cases y (YearFromTime t)) as [H|H]; [exact H|].
    assert (DayFromYear (YearFromTime t + 1) <= DayFromYear y)
      by (apply DayFromYear_mono; lia).
    Z.div_mod_to_equations. lia.
Qed.

Lemma DayWithinYear_bounds t : 0 <= DayWithinYear t < 365 + InLeapYear t.
Proof.
  unfold DayWithinYear, InLeapYear. destruct (YearFromTime_days t) as [H1 H2].
  rewrite DayFromYear_next in H2. pose proof (DaysInYear_bounds (YearFromTime t)).
  destruct (Z.eqb_spec (DaysInYear (YearFromTime t)) 366); lia.
Qed.

Lemma InLeapYear_bounds t : 0 <= InLeapYear t <= 1.
Proof. unfold InLeapYear. destruct (_ =? _); lia. Qed.

Lemma MonthFromTime_bounds t : 0 <= MonthFromTime t <= 11.
Proof.
  unfold MonthFromTime. cbv zeta.
  repeat match goal with |- context [if ?b then _ else _] => destruct b end; lia.
Qed.

Lemma DateFromTime_bounds t : 1 <= DateFromTime t <= 31.
Proof.
  pose proof (DayWithinYear_bounds t) as Hd. pose proof (InLeapYear_bounds t) as Hl.
  unfold DateFromTime, MonthFromTime. cbv zeta.
  repeat match goal with
         | |- context [if (?a <? ?b) then _ else _] => destruct (Z.ltb_spec a b)
         end; lia.
Qed.

Lemma HourFromTime_bounds t : 0 <= HourFromTime t <= 23.
Proof. unfold HourFromTime. Z.div_mod_to_equations. lia. Qed.

Lemma MinFromTime_bounds t : 0 <= MinFromTime t <= 59.
Proof. unfold MinFromTime. Z.div_mod_to_equations. lia. Qed.

(** Nine hours later. *)
Lemma HourFromTime_shift t : HourFromTime (t + 32400000) = (HourFromTime t + 9) mod 24.
Proof. unfold HourFromTime, msPerHour. Z.div_mod_to_equations. lia. Qed.

Lemma MinFromTime_shift t : MinFromTime (t + 32400000) = MinFromTime t.
Proof. unfold MinFromTime, msPerMinute. Z.div_mod_to_equations. lia. Qed.

Lemma Day_shift t :
  Day (t + 32400000) = Day t + (if HourFromTime t <? 15 then 0 else 1).
Proof.
  unfold Day, HourFromTime, msPerDay, msPerHour.
  destruct (Z.ltb_spec ((t / 3600000) mod 24) 15); Z.div_mod_to_equations; lia.
Qed.

Lemma TimeFromYear_mono y1 y2 : y1 <= y2 -> TimeFromYear y1 <= TimeFromYear y2.
Proof.
  intros H. apply DayFromYear_mono in H. unfold TimeFromYear, msPerDay. lia.
Qed.

Lemma YearFromTime_range t y1 y2 :
  TimeFromYear y1 <= t < TimeFromYear y2 -> y1 <= YearFromTime t < y2.
Proof.
  intros [H1 H2]. destruct (YearFromTime_largest t) as [Hy Hmax]. split.
  - apply Hmax, H1.
  - destruct (Z.lt_ge_cases (YearFromTime t) y2) as [H|H]; [exact H|].
    apply TimeFromYear_mono in H. lia.
Qed.

(** The digits of a number, from the loop of [Str.decimal]. *)
Lemma decimal_go_last fuel n acc :
  (n < 10)%N -> Str.decimal_go (S fuel) n acc = (48 + n)%N :: acc.
Proof.
  intros H. cbn [Str.decimal_go]. rewrite N.mod_small by exact H.
  destruct (N.ltb_spec n 10); [reflexivity|lia].
Qed.

Lemma decimal_go_more fuel n acc :
  (10 <= n)%N ->
  Str.decimal_go (S fuel) n acc = Str.decimal_go fuel (n / 10)%N ((48 + n mod 10)%N :: acc).
Proof.
  intros H. cbn [Str.decimal_go]. destruct (N.ltb_spec n 10); [lia|reflexivity].
Qed.

Lemma decimal_of_Z z :
  0 <= z -> Str.decimal (Z.to_nat z) = Str.decimal_go (S (Z.to_nat z)) (Z.to_N z) [].
Proof. intros H. unfold Str.decimal. rewrite Z_nat_N. reflexivity. Qed.

Lemma digit_div z k : 0 <= z -> 0 < k -> digit (z / k) = (48 + Z.to_N z / Z.to_N k)%N.
Proof. intros Hz Hk. unfold digit. rewrite Z2N.inj_div by lia. reflexivity. Qed.

Lemma digit_mod z k : 0 <= z -> 0 < k -> digit (z mod k) = (48 + Z.to_N z mod Z.to_N k)%N.
Proof. intros Hz Hk. unfold digit. rewrite Z2N.inj_mod by lia. reflexivity. Qed.

Lemma two_digits n :
  0 <= n <= 99 -> padStart (toString (Some n)) 2 48%N = two n.
Proof.
  intros Hn. unfold toString, two. destruct (Z.ltb_spec n 0); [lia|].
  rewrite decimal_of_Z by lia.
  rewrite digit_div, digit_mod by lia. change (Z.to_N 10) with 10%N.
  assert (Hlt : (Z.to_N n < 100)%N) by lia.
  destruct (N.lt_ge_cases (Z.to_N n) 10) as [Hs|Hs].
  - rewrite decimal_go_last by exact Hs.
    rewrite N.div_small, N.mod_small by exact Hs. reflexivity.
  - destruct (Z.to_nat n) as [|fuel] eqn:E; [lia|].
    rewrite decimal_go_more by exact Hs.
    rewrite decimal_go_last by (apply N.Div0.div_lt_upper_bound; lia). reflexivity.
Qed.

Lemma four_digits y : 1000 <= y <= 9999 -> toString (Some y) = four y.
Proof.
  intros Hy. unfold toString, four. destruct (Z.ltb_spec y 0); [lia|].
  rewrite decimal_of_Z by lia.
  assert (Hd : forall k, 0 < k -> y / k mod 10 = (y / k) mod 10) by reflexivity.
  rewrite !digit_mod, !digit_div by (try apply Z.div_pos; lia).
  rewrite !Z2N.inj_div by lia.
  change (Z.to_N 10) with 10%N. change (Z.to_N 100) with 100%N.
  change (Z.to_N 1000) with 1000%N.
  set (n := Z.to_N y). assert (Hn : (1000 <= n < 10000)%N) by lia.
  destruct (Z.to_nat y) as [|[|[|fuel]]] eqn:E; try lia.
  rewrite decimal_go_more by lia.
  rewrite decimal_go_more by (apply N.div_le_lower_bound; lia).
  rewrite N.Div0.div_div. change (10 * 10)%N with 100%N.
  rewrite decimal_go_more by (apply N.div_le_lower_bound; lia).
  rewrite N.Div0.div_div. change (100 * 10)%N with 1000%N.
  rewrite decimal_go_last by (apply N.Div0.div_lt_upper_bound; lia).
  replace (n / 10 / 10)%N with (n / 100)%N
    by (rewrite N.Div0.div_div; reflexivity).
  reflexivity.
Qed.

End ClockFacts.

(** X14. From year 1000 to year 9999 of Korean time the timestamp has
    the form yyyy-mm-dd hh:mm: sixteen code units, the year written with
    four digits and the other fields with two. The hour is the UTC hour
    plus nine modulo 24 and the minute is the UTC minute; the date is
    that of the UTC day until 15:00 UTC and that of the next day from
    then on. *)
Theorem X14_timestamp_format (now : Z) :
  (Clock.TimeFromYear 1000 <= now + 32400000 < Clock.TimeFromYear 10000)%Z ->
  let kst := (now + 32400000)%Z in
  Clock.getKSTTimestamp now
  = four (Clock.YearFromTime kst) ++ [45%N]
    ++ two (Clock.MonthFromTime kst + 1) ++ [45%N]
    ++ two (Clock.DateFromTime kst) ++ [32%N]
    ++ two ((Clock.HourFromTime now + 9) mod 24) ++ [58%N]
    ++ two (Clock.MinFromTime now)
  /\ length (Clock.getKSTTimestamp now) = 16
  /\ (1000 <= Clock.YearFromTime kst <= 9999
      /\ 1 <= Clock.MonthFromTime kst + 1 <= 12
      /\ 1 <= Clock.DateFromTime kst <= 31)%Z
  /\ Clock.Day kst
     = (Clock.Day now + (if Clock.HourFromTime now <? 15 then 0 else 1))%Z.
Proof.
  intros Hrange kst.
  pose proof (ClockFacts.YearFromTime_range _ _ _ Hrange) as Hy. fold kst in Hy.
  pose proof (ClockFacts.MonthFromTime_bounds kst) as Hm.
  pose proof (ClockFacts.DateFromTime_bounds kst) as Hd.
  pose proof (ClockFacts.HourFromTime_bounds kst) as Hh.
  pose proof (ClockFacts.MinFromTime_bounds kst) as Hmi.
  assert (Heq : Clock.getKSTTimestamp now
    = four (Clock.YearFromTime kst) ++ [45%N]
      ++ two (Clock.MonthFromTime kst + 1) ++ [45%N]
      ++ two (Clock.DateFromTime kst) ++ [32%N]
      ++ two ((Clock.HourFromTime now + 9) mod 24) ++ [58%N]
      ++ two (Clock.MinFromTime now)).
  { unfold Clock.getKSTTimestamp. cbv zeta.
    change (9 * 60 * 60 * 1000)%Z with 32400000%Z. fold kst.
    assert (Hclip : Clock.TimeClip kst = Some kst).
    { unfold Clock.TimeClip. destruct (Z.gtb_spec (Z.abs kst) 8640000000000000); [|reflexivity].
      unfold kst in *. vm_compute Clock.TimeFromYear in Hrange. lia. }
    rewrite Hclip. cbn [Clock.getUTCFullYear Clock.getUTCMonth Clock.getUTCDate
                         Clock.getUTCHours Clock.getUTCMinutes option_map].
    rewrite ClockFacts.four_digits by lia.
    rewrite !ClockFacts.two_digits by lia.
    unfold kst. rewrite ClockFacts.HourFromTime_shift, ClockFacts.MinFromTime_shift.
    reflexivity. }
  split; [exact Heq|]. split; [rewrite Heq; reflexivity|].
  split; [lia|]. apply ClockFacts.Day_shift.
Qed.

Lemma X14_timestamp_format_witness :
  Clock.getKSTTimestamp 1736805600000 = utf16 "2025-01-14 07:00"
  /\ length (Clock.getKSTTimestamp 1736805600000) = 16.
Proof.
  destruct (X14_timestamp_format 1736805600000 ltac:(vm_compute; split; [discriminate|reflexivity]))
    as (H1 & H2 & _).
  split; [rewrite H1; reflexivity|exact H2].
Defined.

(** ** The extraction *)

Example won_unit : utf16 "원" = [won].
Proof. reflexivity. Qed.

Example evaluate_example :
  evaluate examplePage
  = {| name := utf16 "S"; currentPrice := utf16 "8,000"; targetPrice := utf16 "10,000";
       marketCap := utf16 "2조4674억" |}
  /\ evaluate {| nameElement := None; currentPriceElement := None;
                 targetPriceElement := None; keys := [] |}
     = {| name := noName; currentPrice := noCurrentPrice; targetPrice := noTargetPrice;
          marketCap := noMarketCap |}.
Proof. vm_compute. split; reflexivity. Qed.

Module PageFacts.
Import Str StrFacts ParseFacts MarketCapFacts.

Lemma grouped_chars a :
  grouped a = true -> forallb (fun c => isDigit c || (c =? comma)%N) a = true /\ a <> [].
Proof.
  unfold grouped. intros H. apply andb_true_iff in H as [Hall Hne]. split; [exact Hall|].
  intros ->. discriminate.
Qed.

Lemma price_char_not_space c : isDigit c || (c =? comma)%N = true -> isWhiteSpace c = false.
Proof.
  intros H. apply orb_true_iff in H as [H|H]; [apply digit_not_space, H|].
  apply N.eqb_eq in H. subst c. reflexivity.
Qed.

Lemma price_char_not_won c : isDigit c || (c =? comma)%N = true -> (won =? c)%N = false.
Proof.
  intros H. apply orb_true_iff in H as [H|H].
  - unfold isDigit in H. apply andb_true_iff in H as [H1 H2]. apply N.leb_le in H1, H2.
    apply N.eqb_neq. unfold won. lia.
  - apply N.eqb_eq in H. subst c. reflexivity.
Qed.

Lemma space_not_won c : isWhiteSpace c = true -> (won =? c)%N = false.
Proof.
  intros H. destruct (N.eqb_spec won c) as [<-|]; [discriminate H|reflexivity].
Qed.

Lemma includes_false s c (p : codeunit -> bool) :
  (forall x, p x = true -> (c =? x)%N = false) -> forallb p s = true -> includes s c = false.
Proof.
  intros Hp. induction s as [|x s IH]; [reflexivity|]. cbn [forallb]. intros H.
  apply andb_true_iff in H as [Hx Hs]. rewrite includes_cons, (Hp x Hx), IH by exact Hs.
  reflexivity.
Qed.

Lemma trimStart_blank ws s : blank ws = true -> trimStart (ws ++ s) = trimStart s.
Proof.
  induction ws as [|x ws IH]; [reflexivity|]. cbn [blank forallb app trimStart]. intros H.
  apply andb_true_iff in H as [Hx Hs]. rewrite Hx. apply IH, Hs.
Qed.

Lemma trimStart_solid x s : isWhiteSpace x = false -> trimStart (x :: s) = x :: s.
Proof. intros H. cbn [trimStart]. rewrite H. reflexivity. Qed.

Lemma blank_reverse ws : blank (reverse ws) = blank ws.
Proof.
  unfold blank. induction ws as [|x ws IH]; [reflexivity|].
  rewrite reverse_cons, forallb_app, IH. cbn [forallb]. rewrite andb_true_r. apply andb_comm.
Qed.

(** Trimming takes the white space around a text that neither starts
    nor ends with white space. *)
Lemma trim_padded before a after :
  blank before = true -> blank after = true ->
  forallb (fun c => isDigit c || (c =? comma)%N) a = true -> a <> [] ->
  trim (before ++ a ++ after) = a.
Proof.
  intros Hb Ha Hall Hne. unfold trim. rewrite trimStart_blank by exact Hb.
  destruct a as [|x a]; [contradiction|]. cbn [forallb] in Hall.
  apply andb_true_iff in Hall as [Hx Hall].
  cbn [app]. rewrite trimStart_solid by (apply price_char_not_space, Hx).
  change (x :: a ++ after) with ((x :: a) ++ after).
  rewrite reverse_app, trimStart_blank by (rewrite blank_reverse; exact Ha).
  assert (Hlast : exists y r, reverse (x :: a) = y :: r /\ isWhiteSpace y = false).
  { destruct (reverse (x :: a)) as [|y r] eqn:E.
    - apply (f_equal reverse) in E. rewrite reverse_involutive in E. discriminate.
    - exists y, r. split; [reflexivity|]. apply price_char_not_space.
      assert (Hin : In y (x :: a)).
      { apply list_elem_of_In. rewrite <- (reverse_involutive (x :: a)), E.
        apply elem_of_reverse. left. }
      assert (Hxa : forallb (fun c => isDigit c || (c =? comma)%N) (x :: a) = true)
        by (cbn [forallb]; rewrite Hx, Hall; reflexivity).
      rewrite forallb_forall in Hxa. apply Hxa, Hin. }
  destruct Hlast as (y & r & E & Hy). rewrite E, trimStart_solid by exact Hy.
  rewrite <- E. apply reverse_involutive.
Qed.

(** The field the extraction gives for the text of a price. *)
Lemma price_field before a unit after :
  blank before = true -> blank after = true -> grouped a = true ->
  unit = [] \/ unit = [won] ->
  trim (replace (priceText before a unit after) won []) = a.
Proof.
  intros Hb Ha Hg Hu. destruct (grouped_chars a Hg) as [Hall Hne]. unfold priceText.
  assert (H1 : includes before won = false)
    by (apply (includes_false _ _ isWhiteSpace); [apply space_not_won|exact Hb]).
  assert (H2 : includes a won = false)
    by (apply (includes_false _ _ (fun c => isDigit c || (c =? comma)%N));
        [apply price_char_not_won|exact Hall]).
  assert (H3 : includes after won = false)
    by (apply (includes_false _ _ isWhiteSpace); [apply space_not_won|exact Ha]).
  destruct Hu as [->| ->].
  - cbn [app].
    assert (Hno : forall s, includes s won = false -> replace s won [] = s).
    { induction s as [|x s IH]; [reflexivity|]. rewrite includes_cons. intros H.
      apply orb_false_iff in H as [Hx Hs]. cbn [replace]. rewrite N.eqb_sym, Hx, IH by exact Hs.
      reflexivity. }
    rewrite Hno by (rewrite !includes_app, H1, H2, H3; reflexivity).
    apply trim_padded; assumption.
  - rewrite !app_assoc, <- (app_assoc (before ++ a)). cbn [app].
    rewrite replace_at by (rewrite includes_app, H1, H2; reflexivity).
    rewrite <- app_assoc. apply trim_padded; assumption.
Qed.

Lemma grouped_integer a :
  grouped a = true -> Parse.integerValue (ungroup a) = Some (groupedValue a).
Proof.
  intros Hg. destruct (grouped_ungroup a Hg) as [Hall Hne].
  unfold Parse.integerValue. rewrite leadingInteger_digits by assumption. reflexivity.
Qed.

Lemma grouped_not_marker a : grouped a = true -> a <> noTargetPrice.
Proof. intros Hg ->. discriminate. Qed.

End PageFacts.

(** X15. A price the page shows as digits with separators, with or
    without the currency sign and with white space around, is extracted
    as these digits and separators and read as their number. Such a
    target is not the marker of a missing target, and when it is above
    zero the analysis tests the gap of the two numbers. *)
Theorem X15_prices_read_from_the_page
  (doc : document) (e : Env) (code : jsstring)
  (before a unit after before' b unit' after' : jsstring) :
  currentPriceElement doc = Some (priceText before a unit after) ->
  targetPriceElement doc = Some (priceText before' b unit' after') ->
  blank before = true -> blank after = true -> grouped a = true ->
  unit = [] \/ unit = [won] ->
  blank before' = true -> blank after' = true -> grouped b = true ->
  unit' = [] \/ unit' = [won] ->
  let stockData := evaluate doc in
  currentPrice stockData = a /\ targetPrice stockData = b
  /\ priceOf (currentPrice stockData) = F64.of_Z (groupedValue a)
  /\ priceOf (targetPrice stockData) = F64.of_Z (groupedValue b)
  /\ targetPrice stockData <> noTargetPrice
  /\ ((0 < groupedValue b)%Z ->
      analysis e code stockData =
      if F64.geb (gapOf (F64.of_Z (groupedValue a)) (F64.of_Z (groupedValue b)))
           (gapPercentage e)
         && F64.geb (parseMarketCapToBillions (VString (marketCap stockData)))
              (minMarketCap e)
      then Some {| code := code; data := stockData;
                   gap := gapOf (F64.of_Z (groupedValue a)) (F64.of_Z (groupedValue b)) |}
      else None).
Proof.
  intros Hc Ht Hb1 Ha1 Hg1 Hu1 Hb2 Ha2 Hg2 Hu2 stockData.
  assert (Hcur : currentPrice stockData = a).
  { unfold stockData, evaluate. cbn [currentPrice]. rewrite Hc.
    apply PageFacts.price_field; assumption. }
  assert (Htar : targetPrice stockData = b).
  { unfold stockData, evaluate. cbn [targetPrice]. rewrite Ht.
    apply PageFacts.price_field; assumption. }
  destruct (MarketCapFacts.grouped_ungroup a Hg1) as [Hall1 Hne1].
  destruct (MarketCapFacts.grouped_ungroup b Hg2) as [Hall2 Hne2].
  split; [exact Hcur|]. split; [exact Htar|]. rewrite Hcur, Htar.
  split; [apply ParseFacts.parseInt_digits; assumption|].
  split; [apply ParseFacts.parseInt_digits; assumption|].
  split; [apply PageFacts.grouped_not_marker, Hg2|].
  intros Hpos. apply AnalysisFacts.analysis_integers; [| |exact Hpos].
  - rewrite Hcur. apply PageFacts.grouped_integer, Hg1.
  - rewrite Htar. apply PageFacts.grouped_integer, Hg2.
Qed.

Lemma X15_prices_read_from_the_page_witness :
  currentPrice (evaluate examplePage) = utf16 "8,000"
  /\ targetPrice (evaluate examplePage) = utf16 "10,000"
  /\ priceOf (currentPrice (evaluate examplePage)) = F64.of_Z 8000
  /\ priceOf (targetPrice (evaluate examplePage)) = F64.of_Z 10000.
Proof.
  destruct (X15_prices_read_from_the_page examplePage (exampleEnv "15") (utf16 "005930")
              [] (utf16 "8,000") [won] [] (utf16 " ") (utf16 "10,000") [won] (utf16 " ")
              eq_refl eq_refl eq_refl eq_refl eq_refl (or_intror eq_refl)
              eq_refl eq_refl eq_refl (or_intror eq_refl))
    as (H1 & H2 & H3 & H4 & _).
  repeat split; assumption.
Defined.

Module MissingFacts.
Import Str StrFacts ParseFacts MarketCapFacts.

Lemma find_none {A} (p : A -> bool) l :
  Forall (fun x => p x = false) l -> List.find p l = None.
Proof.
  induction 1 as [|x l Hx _ IH]; [reflexivity|]. cbn [List.find]. rewrite Hx. exact IH.
Qed.

Lemma analysis_no_current e code stockData :
  currentPrice stockData = noCurrentPrice -> analysis e code stockData = None.
Proof.
  intros Hc. unfold analysis. rewrite Hc.
  change (priceOf noCurrentPrice) with F64.NaN. cbn [F64.isNaN negb andb].
  destruct (negb _); reflexivity.
Qed.

End MissingFacts.

(** X16. Elements missing from the page. Without the target price the
    item adds no candidate and, the append going through, its code is
    appended to [skip-list.txt]. Without the current price, the target
    being there, it adds no candidate and leaves the file alone. Without
    the key of the capitalisation the capitalisation is the marker, which
    counts as 0, and the item adds no candidate under a minimum above
    zero. *)
Theorem X16_missing_elements
  (w : world) (index : nat) (code : jsstring) (s : runstate) (doc : document) :
  fetch w index code = Extracted (evaluate doc) ->
  let after := snd (processItem w index code s) in
  (targetPriceElement doc = None ->
   notificationBatch after = notificationBatch s
   /\ (appendFault w index = None ->
       skipFile after = appendText (skipFile s) (code ++ [Str.newline])))
  /\ (currentPriceElement doc = None -> targetPrice (evaluate doc) <> noTargetPrice ->
      notificationBatch after = notificationBatch s /\ skipFile after = skipFile s)
  /\ (Forall (fun el => Str.trim el.1 <> marketCapKey) (keys doc) ->
      marketCap (evaluate doc) = noMarketCap
      /\ parseMarketCapToBillions (VString (marketCap (evaluate doc))) = F64.zero
      /\ (F64.gtb (minMarketCap (env w)) F64.zero = true ->
          notificationBatch after = notificationBatch s)).
Proof.
  intros Hf after. unfold after. rewrite PipelineFacts.processItem_spec.
  cbn [snd notificationBatch skipFile].
  unfold itemCandidates, itemFile, appendRejected, targetUnavailable. rewrite Hf.
  split; [|split].
  - intros Ht.
    assert (Hm : targetPrice (evaluate doc) = noTargetPrice)
      by (unfold evaluate; cbn [targetPrice]; rewrite Ht; reflexivity).
    rewrite (AnalysisFacts.analysis_no_target _ _ _ Hm), Hm.
    rewrite bool_decide_eq_true_2 by reflexivity. split.
    + destruct (appendFault w index); cbn [andb]; apply app_nil_r.
    + intros ->. reflexivity.
  - intros Hc Hn.
    assert (Hm : currentPrice (evaluate doc) = noCurrentPrice)
      by (unfold evaluate; cbn [currentPrice]; rewrite Hc; reflexivity).
    rewrite (MissingFacts.analysis_no_current _ _ _ Hm).
    rewrite bool_decide_eq_false_2 by exact Hn. cbn [andb]. split; [apply app_nil_r|reflexivity].
  - intros Hk.
    assert (Hm : marketCap (evaluate doc) = noMarketCap).
    { unfold evaluate. cbn [marketCap]. rewrite MissingFacts.find_none; [reflexivity|].
      eapply Forall_impl; [exact Hk|]. intros el Hel. cbn beta.
      apply bool_decide_eq_false_2, Hel. }
    split; [exact Hm|]. rewrite Hm. split; [reflexivity|]. intros Hmin.
    rewrite FilterFacts.analysis_no_cap; [|rewrite Hm; reflexivity|exact Hmin].
    destruct (_ && _); apply app_nil_r.
Qed.

Lemma X16_missing_elements_witness :
  skipFile (snd (processItem
                   (quietWorld (settings "A" "15")
                      (fun _ _ => Extracted (evaluate {| nameElement := None;
                                                         currentPriceElement := None;
                                                         targetPriceElement := None;
                                                         keys := [] |})))
                   0 (utf16 "A") (startOfRun None)))
  = appendText None (utf16 "A" ++ [Str.newline]).
Proof.
  exact (proj2 (proj1 (X16_missing_elements
                  (quietWorld (settings "A" "15")
                     (fun _ _ => Extracted (evaluate {| nameElement := None;
                                                        currentPriceElement := None;
                                                        targetPriceElement := None;
                                                        keys := [] |})))
                  0 (utf16 "A") (startOfRun None)
                  {| nameElement := None; currentPriceElement := None;
                     targetPriceElement := None; keys := [] |} eq_refl) eq_refl) eq_refl).
Defined.

Example floor_examples :
  Random.floor (F64.div (F64.of_Z 5) (F64.of_Z 2)) = F64.of_Z 2
  /\ Random.floor (F64.div (F64.of_Z (-5)) (F64.of_Z 2)) = F64.of_Z (-3)
  /\ Random.floor (F64.div (F64.of_Z 1) (F64.of_Z 2)) = F64.zero
  /\ Random.floor (F64.div (F64.of_Z (-1)) (F64.of_Z 2)) = F64.of_Z (-1)
  /\ Random.floor (F64.of_Z 7) = F64.of_Z 7
  /\ Random.floor (F64.of_Z (2 ^ 60)) = F64.of_Z (2 ^ 60)
  /\ Random.floor (S754_zero true) = S754_zero true
  /\ Random.floor F64.NaN = F64.NaN.
Proof. vm_compute. repeat split. Qed.

Example getRandomDelay_examples :
  Random.getRandomDelay F64.zero (F64.of_Z 2000) (F64.of_Z 5000) = F64.of_Z 2000
  /\ Random.getRandomDelay (F64.div (F64.of_Z 1) (F64.of_Z 2)) (F64.of_Z 2000) (F64.of_Z 5000)
     = F64.of_Z 3500
  /\ Random.getRandomDelay belowOne (F64.of_Z 2000) (F64.of_Z 5000) = F64.of_Z 5001
  /\ Random.getRandomDelay (S754_finite false 9007199254740990 (-53))
       (F64.of_Z 2000) (F64.of_Z 5000) = F64.of_Z 5001
  /\ Random.getRandomDelay (S754_finite false 9007199254740989 (-53))
       (F64.of_Z 2000) (F64.of_Z 5000) = F64.of_Z 5000.
Proof. vm_compute. repeat split. Qed.

(** ** The random delay *)

Module RoundFacts.
Import NumberFacts ExactFacts ValidFacts.
Local Open Scope Z_scope.

Lemma pow2_pos n : 0 <= n -> 0 < 2 ^ n.
Proof. intros H. apply Z.pow_pos_nonneg; lia. Qed.

Lemma pow2_split a b : 0 <= a -> 0 <= b -> 2 ^ (a + b) = 2 ^ a * 2 ^ b.
Proof. intros Ha Hb. apply Z.pow_add_r; assumption. Qed.

(** Shifting a mantissa to the right keeps it between two integers
    scaled alike. *)
Lemma div_between m n k lo hi :
  0 <= n -> 0 <= k ->
  lo * 2 ^ (k + n) <= m <= hi * 2 ^ (k + n) ->
  lo * 2 ^ k <= m / 2 ^ n <= hi * 2 ^ k.
Proof.
  intros Hn Hk [H1 H2]. rewrite pow2_split in H1, H2 by assumption.
  pose proof (pow2_pos n Hn). split.
  - apply Z.div_le_lower_bound; [lia|]. lia.
  - apply Z.div_le_upper_bound; [lia|]. lia.
Qed.

(** The digits of a mantissa below [hi * 2 ^ k]. *)
Lemma digits_below m hi k :
  0 < m -> 0 <= k -> hi < 2 ^ 53 -> m <= hi * 2 ^ k -> Zdigits2 m <= 53 + k.
Proof.
  intros Hm Hk Hhi Hle. rewrite Zdigits2_log2 by exact Hm.
  assert (m < 2 ^ (53 + k)).
  { rewrite pow2_split by lia. pose proof (pow2_pos k Hk). nia. }
  assert (Z.log2 m < 53 + k) by (apply Z.log2_lt_pow2; lia). lia.
Qed.

(** The first shift of a rounding, with the mantissa rounded to the
    nearest. *)
Lemma first_shift m e lo hi :
  0 < m -> 0 <= lo -> hi < 2 ^ 53 -> e <= 0 ->
  lo * 2 ^ (- e) <= m <= hi * 2 ^ (- e) ->
  let '(mrs, e1) := shr_fexp F64.prec F64.emax m e loc_Exact in
  let m2 := round_nearest_even (shr_m mrs) (loc_of_shr_record mrs) in
  e <= e1 <= 0 /\ -1074 <= e1 /\ lo * 2 ^ (- e1) <= m2 <= hi * 2 ^ (- e1).
Proof.
  intros Hm Hlo Hhi He Hb.
  pose proof (digits_below m hi (- e) Hm ltac:(lia) Hhi ltac:(lia)) as Hd.
  unfold shr_fexp. rewrite fexp_eq.
  set (n := Z.max (Zdigits2 m + e - 53) (-1074) - e).
  destruct (Z_le_gt_dec n 0) as [Hn|Hn].
  - assert (Hs : shr (shr_record_of_loc m loc_Exact) e n = (shr_record_of_loc m loc_Exact, e))
      by (unfold shr; destruct n; try lia; reflexivity).
    rewrite Hs. cbn [shr_record_of_loc shr_m loc_of_shr_record round_nearest_even].
    unfold n in Hn. lia.
  - assert (Hs : snd (shr (shr_record_of_loc m loc_Exact) e n) = e + n)
      by (unfold shr; destruct n; try lia; reflexivity).
    assert (He1 : e + n <= 0) by (unfold n in *; lia).
    destruct (Z.eq_dec (m mod 2 ^ n) 0) as [Hex|Hin].
    + (* nothing is lost *)
      assert (Hmq : m = m / 2 ^ n * 2 ^ n).
      { pose proof (Z.div_mod m (2 ^ n) ltac:(pose proof (pow2_pos n); lia)). lia. }
      assert (Hs' : shr (shr_record_of_loc m loc_Exact) e n
                    = ({| shr_m := m / 2 ^ n; shr_r := false; shr_s := false |}, e + n)).
      { unfold shr. destruct n as [|p|p] eqn:En; try lia. cbn [shr_record_of_loc].
        rewrite Hmq at 1. rewrite shr_exact; [reflexivity|].
        apply Z.div_pos; [lia|]. apply pow2_pos. lia. }
      rewrite Hs'. cbn [shr_m loc_of_shr_record round_nearest_even].
      split; [lia|]. split; [unfold n; lia|].
      apply div_between; try lia. replace (- (e + n) + n) with (- e) by lia. exact Hb.
    + (* something is lost: the quotient is below the mantissa *)
      destruct (shr (shr_record_of_loc m loc_Exact) e n) as [mrs e1] eqn:Hshr.
      cbn [snd] in Hs. subst e1.
      assert (Hm1 : shr_m mrs = m / 2 ^ n).
      { pose proof (shr_fexp_value m e loc_Exact ltac:(lia)) as [H _]. cbv zeta in H.
        unfold shr_fexp in H. rewrite fexp_eq in H. fold n in H. rewrite Hshr in H.
        cbn [fst] in H. rewrite H. destruct (Z.ltb_spec 0 n); [reflexivity|lia]. }
      pose proof (round_nearest_even_bounds (shr_m mrs) (loc_of_shr_record mrs)) as Hr.
      rewrite Hm1 in *.
      split; [lia|]. split; [unfold n; lia|].
      pose proof (pow2_pos n ltac:(lia)) as Hp.
      pose proof (Z.div_mod m (2 ^ n) ltac:(lia)) as Hdm.
      pose proof (Z.mod_pos_bound m (2 ^ n) Hp) as Hmod.
      assert (Hb' : lo * 2 ^ (- (e + n)) <= m / 2 ^ n <= hi * 2 ^ (- (e + n))).
      { apply div_between; try lia. replace (- (e + n) + n) with (- e) by lia. exact Hb. }
      split; [lia|].
      destruct (Z.eq_dec (m / 2 ^ n) (hi * 2 ^ (- (e + n)))) as [Heq|Hne]; [|lia].
      (* the quotient cannot be the bound itself *)
      exfalso. destruct Hb as [_ Hb].
      replace (- e) with (- (e + n) + n) in Hb by lia.
      rewrite pow2_split in Hb by lia. nia.
Qed.

(** The second shift, after which the number is made. *)
Lemma second_shift m2 e1 lo hi :
  0 <= m2 -> 0 <= lo -> hi < 2 ^ 53 -> -1074 <= e1 <= 0 ->
  lo * 2 ^ (- e1) <= m2 <= hi * 2 ^ (- e1) ->
  let '(mrs, e3) := shr_fexp F64.prec F64.emax m2 e1 loc_Exact in
  e3 <= 0 /\ lo * 2 ^ (- e3) <= shr_m mrs <= hi * 2 ^ (- e3).
Proof.
  intros Hm Hlo Hhi He Hb.
  pose proof (shr_fexp_value m2 e1 loc_Exact Hm) as [H1 H2]. cbv zeta in H1, H2.
  destruct (shr_fexp F64.prec F64.emax m2 e1 loc_Exact) as [mrs e3]. cbn [fst snd] in H1, H2.
  set (n := Z.max (Zdigits2 m2 + e1 - 53) (-1074) - e1) in *.
  destruct (Z.ltb_spec 0 n) as [Hn|Hn].
  - assert (Hpos : 0 < m2).
    { destruct (Z.eq_dec m2 0) as [->|]; [|lia]. unfold n in Hn. cbn in Hn. lia. }
    pose proof (digits_below m2 hi (- e1) Hpos ltac:(lia) Hhi ltac:(lia)) as Hd.
    subst e3. rewrite H1. split; [unfold n in *; lia|].
    apply div_between; [lia|unfold n in *; lia|].
    replace (- (e1 + n) + n) with (- e1) by lia. exact Hb.
  - subst e3. rewrite H1. split; [lia|exact Hb].
Qed.

(** Rounding a mantissa to the nearest keeps it between two integers. *)
Lemma binary_round_aux_between m e lo hi :
  0 < m -> 0 <= lo -> hi < 2 ^ 53 -> e <= 0 ->
  lo * 2 ^ (- e) <= m <= hi * 2 ^ (- e) ->
  between lo hi (binary_round_aux F64.prec F64.emax false m e loc_Exact).
Proof.
  intros Hm Hlo Hhi He Hb. unfold binary_round_aux.
  pose proof (first_shift m e lo hi Hm Hlo Hhi He Hb) as H1.
  destruct (shr_fexp F64.prec F64.emax m e loc_Exact) as [mrs1 e1].
  cbv zeta in H1. destruct H1 as (He1 & He1' & Hb1).
  set (m2 := round_nearest_even (shr_m mrs1) (loc_of_shr_record mrs1)) in *.
  assert (Hm2 : 0 <= m2).
  { pose proof (pow2_pos (- e1) ltac:(lia)). nia. }
  pose proof (second_shift m2 e1 lo hi Hm2 Hlo Hhi ltac:(lia) Hb1) as H3.
  destruct (shr_fexp F64.prec F64.emax m2 e1 loc_Exact) as [mrs3 e3].
  destruct H3 as (He3 & Hb3).
  pose proof (pow2_pos (- e3) ltac:(lia)) as Hp.
  destruct (shr_m mrs3) as [|m3|m3] eqn:E.
  - cbn [between]. nia.
  - destruct (Z.leb_spec e3 (F64.emax - F64.prec)) as [_|Hgt].
    + cbn [between]. split; [exact He3|exact Hb3].
    + unfold F64.emax, F64.prec in Hgt. lia.
  - nia.
Qed.

Lemma binary_round_between (m : positive) e lo hi :
  0 <= lo -> hi < 2 ^ 53 -> e <= 0 ->
  lo * 2 ^ (- e) <= Zpos m <= hi * 2 ^ (- e) ->
  between lo hi (binary_round F64.prec F64.emax false m e).
Proof.
  intros Hlo Hhi He Hb. unfold binary_round. rewrite fexp_eq.
  set (e' := Z.max (Zpos (digits2_pos m) + e - 53) (-1074)).
  destruct (Z_le_gt_dec e' e) as [Hle|Hgt].
  - pose proof (shl_align_fst m e e' Hle) as Hf.
    assert (Hs : snd (shl_align m e e') = e')
      by (unfold shl_align; destruct (e' - e) as [|p|p] eqn:E; cbn [snd]; lia).
    destruct (shl_align m e e') as [mz ez]. cbn [fst snd] in Hf, Hs. subst ez.
    apply binary_round_aux_between; try lia.
    rewrite Hf. replace (- e') with (- e + (e - e')) by lia.
    rewrite pow2_split by lia. pose proof (pow2_pos (e - e') ltac:(lia)). nia.
  - assert (Hs : shl_align m e e' = (m, e))
      by (unfold shl_align; destruct (e' - e) as [|p|p] eqn:E; try lia; reflexivity).
    rewrite Hs. apply binary_round_aux_between; lia.
Qed.

(** A binary64 value from 0 to below 1. *)
Lemma unit_interval r :
  F64.valid r = true -> F64.leb F64.zero r = true -> F64.ltb r (F64.of_Z 1) = true ->
  (exists s, r = S754_zero s)
  \/ (exists m e, r = S754_finite false m e /\ e <= 0 /\ Zpos m <= 2 ^ (- e)).
Proof.
  intros Hv H0 H1. destruct r as [s|s| |s m e]; try discriminate.
  - left. exists s. reflexivity.
  - destruct s; discriminate.
  - destruct s; [discriminate|]. right. exists m, e. split; [reflexivity|].
    unfold F64.valid in Hv. cbn [valid_binary] in Hv.
    apply bounded_facts in Hv as (_ & Hm & _).
    change (F64.of_Z 1) with (S754_finite false 4503599627370496 (-52)) in H1.
    unfold F64.ltb, SFltb, SFcompare in H1.
    destruct (Z.compare_spec e (-52)) as [->|Hlt|Hgt]; try discriminate.
    + rewrite Pos.compare_cont_spec in H1. cbn [Pos.switch_Eq] in H1.
      destruct (Pos.compare_spec m 4503599627370496); try discriminate.
      apply Pos2Z.pos_lt_pos in H.
      split; [lia|]. change (Zpos m <= 4503599627370496). lia.
    + split; [lia|].
      assert (2 ^ 53 <= 2 ^ (- e)) by (apply Z.pow_le_mono_r; lia). lia.
Qed.

(** Such a number times 3001 is at most 3001. *)
Lemma times_3001 m e :
  e <= 0 -> Zpos m <= 2 ^ (- e) ->
  between 0 3001 (F64.mul (S754_finite false m e) (F64.of_Z 3001)).
Proof.
  intros He Hm.
  change (F64.of_Z 3001) with (S754_finite false 6599268789911552 (-41)).
  unfold F64.mul. cbn [SFmul xorb]. apply binary_round_aux_between; try lia.
  rewrite Pos2Z.inj_mul. replace (- (e + -41)) with (- e + 41) by lia.
  rewrite pow2_split by lia. change (2 ^ 41) with 2199023255552. lia.
Qed.

(** A number from 0 to 3001 plus 2000 is a number from 2000 to 5001. *)
Lemma plus_2000 p :
  between 0 3001 p ->
  between 2000 5001 (F64.add p (F64.of_Z 2000))
  /\ F64.valid (F64.add p (F64.of_Z 2000)) = true.
Proof.
  change (F64.of_Z 2000) with (S754_finite false 8796093022208000 (-42)).
  destruct p as [s|s| |s m e]; cbn [between]; try contradiction.
  - intros _. split; [|reflexivity]. cbn [F64.add SFadd between].
    change (2 ^ (- -42)) with 4398046511104. lia.
  - destruct s; [contradiction|]. intros (He & _ & Hm).
    split; [|apply binary_normalize_valid].
    unfold F64.add. cbn [SFadd cond_Zopp].
    set (ez := Z.min e (-42)).
    rewrite !shl_align_fst by (unfold ez; lia).
    pose proof (pow2_pos (e - ez) ltac:(unfold ez; lia)) as Hp1.
    pose proof (pow2_pos (-42 - ez) ltac:(unfold ez; lia)) as Hp2.
    assert (H2000 : 8796093022208000 * 2 ^ (-42 - ez) = 2000 * 2 ^ (- ez)).
    { replace (- ez) with (42 + (-42 - ez)) by lia. rewrite pow2_split by (unfold ez; lia).
      change (2 ^ 42) with 4398046511104. lia. }
    assert (Hm' : Zpos m * 2 ^ (e - ez) <= 3001 * 2 ^ (- ez)).
    { replace (- ez) with (- e + (e - ez)) by lia. rewrite pow2_split by (unfold ez; lia).
      nia. }
    destruct (Zpos m * 2 ^ (e - ez) + 8796093022208000 * 2 ^ (-42 - ez)) as [|q|q] eqn:Hq;
      try nia.
    cbn [binary_normalize]. apply binary_round_between; try lia; unfold ez; lia.
Qed.

(** The floor of a number between two positive integers is an integer
    between them. *)
Lemma floor_between lo hi x :
  0 < lo -> hi < 2 ^ 52 -> F64.valid x = true -> between lo hi x ->
  exists k, lo <= k <= hi /\ Random.floor x = F64.of_Z k.
Proof.
  intros Hlo Hhi Hv Hb. destruct x as [s|s| |s m e]; cbn [between] in Hb; try contradiction.
  - lia.
  - destruct s; [contradiction|]. destruct Hb as (He & Hb).
    unfold F64.valid in Hv. cbn [valid_binary] in Hv.
    apply bounded_facts in Hv as (Hmin & _ & Hnorm).
    assert (Hneg : e < 0).
    { destruct (Z.eq_dec e 0) as [->|]; [|lia]. specialize (Hnorm ltac:(lia)).
      change (2 ^ (- 0)) with 1 in Hb. lia. }
    unfold Random.floor. destruct (Z.leb_spec 0 e); [lia|].
    pose proof (pow2_pos (- e) ltac:(lia)) as Hp.
    assert (Hq : lo <= Zpos m / 2 ^ (- e) <= hi).
    { split; [apply Z.div_le_lower_bound; lia|apply Z.div_le_upper_bound; lia]. }
    destruct (Z.eqb_spec (Zpos m / 2 ^ (- e)) 0); [lia|].
    exists (Zpos m / 2 ^ (- e)). split; [exact Hq|reflexivity].
Qed.

End RoundFacts.

(** X17. From a number that [Math.random] can return, a binary64 value
    from 0 to below 1, [getRandomDelay(2000, 5000)] makes a whole number
    of milliseconds from 2000 to 5001: the upper bound of the call can be
    exceeded by one. It is, for 1 - 2^-53 and for 1 - 2^-52, while 0
    gives 2000. *)
Theorem X17_random_delay_bounds :
  (forall random,
     F64.valid random = true -> F64.leb F64.zero random = true ->
     F64.ltb random (F64.of_Z 1) = true ->
     exists k, (2000 <= k <= 5001)%Z
               /\ Random.getRandomDelay random (F64.of_Z 2000) (F64.of_Z 5000) = F64.of_Z k)
  /\ F64.valid belowOne = true /\ F64.ltb belowOne (F64.of_Z 1) = true
  /\ Random.getRandomDelay belowOne (F64.of_Z 2000) (F64.of_Z 5000) = F64.of_Z 5001
  /\ Random.getRandomDelay (F64.sub belowOne (S754_finite false 1 (-53)))
       (F64.of_Z 2000) (F64.of_Z 5000) = F64.of_Z 5001
  /\ Random.getRandomDelay F64.zero (F64.of_Z 2000) (F64.of_Z 5000) = F64.of_Z 2000.
Proof.
  split; [|vm_compute; repeat split].
  intros r Hv H0 H1. unfold Random.getRandomDelay.
  change (F64.add (F64.sub (F64.of_Z 5000) (F64.of_Z 2000)) (F64.of_Z 1))
    with (F64.of_Z 3001).
  destruct (RoundFacts.unit_interval r Hv H0 H1) as [[s ->]|(m & e & -> & He & Hm)].
  - exists 2000%Z. split; [lia|]. destruct s; reflexivity.
  - pose proof (RoundFacts.times_3001 m e He Hm) as Hp.
    destruct (RoundFacts.plus_2000 _ Hp) as [Hs Hvs].
    apply (RoundFacts.floor_between 2000 5001); [lia|reflexivity|exact Hvs|exact Hs].
Qed.
